(** * manga-dl: archive reconciliation and metadata generation

    A shallow embedding of [manga-dl.py]: the ComicInfo.xml generator, the
    CBZ builder [create_cbz_archive], the metadata-only updater
    [update_local_cbz], the chapter downloader [download_chapter_images]
    and the synchronisation driver [sync_cbz_with_source], followed by the
    properties of the reconciliation engine and by further properties of
    these functions.

    Conventions of the embedding.
    - Python [str] values are [string]s of 8-bit characters; the character
      classes ([str.isdigit], [str.islower], ...) are the ASCII ones.
    - Python [int]s are [Z]; [int(s)] is taken without the limit that the
      interpreter puts on the length of a numeral (4300 digits unless
      [sys.set_int_max_str_digits] says otherwise).
    - A zip container is the list of its entries (name, contents) in the
      order they were written; DEFLATE is a function of that list and is
      left out.
    - The file system is a finite map from paths to nodes; the functions
      that write thread it explicitly and return the new one.  A directory
      node carries its listing, and [os.listdir] gives the names in an
      order that the listing determines.  Paths are told apart as texts:
      no symbolic link is followed and no [.] or [..] component is
      resolved, so that a directory is reached under one name only; the
      properties that depend on it say so.
    - A container is opened for writing at any path that is not a
      directory: that the directory of the path exists and takes the new
      file is not part of the storage.
    - A write into an open container can fail (a full device, say): the
      storage carries the number of such writes it will still accept, and
      the [except] clauses of the source are the cases where it is used up.
    - The thread pools run downloads that write in folders of their own;
      they are run one after the other, and the order in which the futures
      complete is an argument of the sync.
    - An exception that the source does not catch leaves the function: the
      download of a chapter and the sync have an outcome of their own for
      it. *)

From Stdlib Require Import Ascii.
From stdpp Require Import base gmap list strings sorting pretty.

Open Scope Z_scope.

(** ** Strings *)

Module Str.

Definition code (c : ascii) : N := N_of_ascii c.

Definition isdigit (c : ascii) : bool :=
  ((48 <=? code c) && (code c <=? 57))%N.
Definition islower (c : ascii) : bool :=
  ((97 <=? code c) && (code c <=? 122))%N.
Definition isupper (c : ascii) : bool :=
  ((65 <=? code c) && (code c <=? 90))%N.
(* [\s] of the [re] module restricted to 8-bit characters *)
Definition isspace (c : ascii) : bool :=
  (((9 <=? code c) && (code c <=? 13)) || ((28 <=? code c) && (code c <=? 32)))%N.

Definition upper_char (c : ascii) : ascii :=
  if islower c then ascii_of_N (code c - 32) else c.
Definition lower_char (c : ascii) : ascii :=
  if isupper c then ascii_of_N (code c + 32) else c.

Definition dquote : ascii := "034"%char.
Definition newline : ascii := "010"%char.
Definition dq : string := String dquote "".
Definition nl : string := String newline "".

(** [s.replace(c, r)] for a one-character pattern [c]. *)
Fixpoint replace (c : ascii) (r : string) (s : string) : string :=
  match s with
  | EmptyString => EmptyString
  | String a s' =>
      if Ascii.eqb a c then r +:+ replace c r s'
      else String a (replace c r s')
  end.

Fixpoint lower (s : string) : string :=
  match s with
  | EmptyString => EmptyString
  | String a s' => String (lower_char a) (lower s')
  end.

(** [s.title()]: the first cased character of every run of cased
    characters is upper-cased, the others are lower-cased. *)
Fixpoint title_go (previous_is_cased : bool) (s : string) : string :=
  match s with
  | EmptyString => EmptyString
  | String c s' =>
      if islower c then
        String (if previous_is_cased then c else upper_char c) (title_go true s')
      else if isupper c then
        String (if previous_is_cased then lower_char c else c) (title_go true s')
      else String c (title_go false s')
  end.
Definition title : string → string := title_go false.

Fixpoint filter (p : ascii → bool) (s : string) : string :=
  match s with
  | EmptyString => EmptyString
  | String a s' => if p a then String a (filter p s') else filter p s'
  end.

Fixpoint contains (c : ascii) (s : string) : bool :=
  match s with
  | EmptyString => false
  | String a s' => Ascii.eqb a c || contains c s'
  end.

Definition startswith (p s : string) : bool := String.prefix p s.

Fixpoint endswith (suf s : string) : bool :=
  String.eqb s suf ||
  match s with
  | EmptyString => false
  | String _ s' => endswith suf s'
  end.

(** Split at the last occurrence of [sep]: [s.rpartition(sep)] without
    the separator, [None] when [sep] does not occur. *)
Fixpoint rsplit1 (sep : ascii) (s : string) : option (string * string) :=
  match s with
  | EmptyString => None
  | String c s' =>
      match rsplit1 sep s' with
      | Some (h, t) => Some (String c h, t)
      | None => if Ascii.eqb c sep then Some (EmptyString, s') else None
      end
  end.

(** [s.split(sep)[-1]] *)
Definition last_segment (sep : ascii) (s : string) : string :=
  match rsplit1 sep s with
  | Some (_, t) => t
  | None => s
  end.

Fixpoint lstrip (c : ascii) (s : string) : string :=
  match s with
  | EmptyString => EmptyString
  | String a s' => if Ascii.eqb a c then lstrip c s' else s
  end.

Fixpoint rstrip (c : ascii) (s : string) : string :=
  match s with
  | EmptyString => EmptyString
  | String a s' =>
      match rstrip c s' with
      | EmptyString => if Ascii.eqb a c then EmptyString else String a EmptyString
      | r => String a r
      end
  end.

Definition strip (c : ascii) (s : string) : string := rstrip c (lstrip c s).

(** [int(s)] for a string of decimal digits, most significant first, of
    any length. *)
Definition digit_value (c : ascii) : Z := Z.of_N (code c) - 48.
Fixpoint int_go (acc : Z) (s : string) : Z :=
  match s with
  | EmptyString => acc
  | String c s' => int_go (10 * acc + digit_value c) s'
  end.
Definition int (s : string) : Z := int_go 0 s.

(** [f"{n}"] *)
Definition of_int (n : Z) : string := pretty n.

Fixpoint zeros (n : nat) : string :=
  match n with
  | O => EmptyString
  | S n' => String "0"%char (zeros n')
  end.

(** [f"{n:03d}"]: sign first, then zeros up to a total width of 3. *)
Definition of_int_03d (n : Z) : string :=
  let digits := pretty (Z.abs_N n) in
  let sign := if n <? 0 then "-" else "" in
  sign +:+ zeros (3 - String.length sign - String.length digits) +:+ digits.

End Str.

(** ** Paths ([os.path], POSIX flavour) *)

Module Path.

Definition sep : ascii := "/"%char.

Definition basename (p : string) : string := Str.last_segment sep p.

Fixpoint all_sep (s : string) : bool :=
  match s with
  | EmptyString => true
  | String a s' => Ascii.eqb a sep && all_sep s'
  end.

Definition dirname (p : string) : string :=
  match Str.rsplit1 sep p with
  | None => EmptyString
  | Some (h, _) =>
      let head := h +:+ "/" in
      if all_sep head then head else Str.rstrip sep head
  end.

Definition join (a b : string) : string :=
  if Str.startswith "/" b then b
  else if String.eqb a "" || Str.endswith "/" a then a +:+ b
  else a +:+ "/" +:+ b.

(** The root of [os.path.splitext] applied to a name without directory
    part: cut at the last dot unless only dots precede it. *)
Fixpoint all_dots (s : string) : bool :=
  match s with
  | EmptyString => true
  | String a s' => Ascii.eqb a "."%char && all_dots s'
  end.

Definition splitext_root (name : string) : string :=
  match Str.rsplit1 "."%char name with
  | None => name
  | Some (root, _) => if all_dots root then name else root
  end.

End Path.

(** ** The metadata document *)

Definition escape_text (s : string) : string :=
  Str.replace ">"%char "&gt;" (Str.replace "<"%char "&lt;" (Str.replace "&"%char "&amp;" s)).

Definition escape_attribute (s : string) : string :=
  Str.replace Str.dquote "&quot;" (escape_text s).

Definition xml_prologue (manga_title : string) (total_page_count : Z) : string :=
  "<?xml version=" +:+ Str.dq +:+ "1.0" +:+ Str.dq +:+ " encoding=" +:+ Str.dq +:+ "utf-8" +:+ Str.dq +:+ "?>" +:+ Str.nl +:+
  "<ComicInfo xmlns:xsd=" +:+ Str.dq +:+ "http://www.w3.org/2001/XMLSchema" +:+ Str.dq +:+
  " xmlns:xsi=" +:+ Str.dq +:+ "http://www.w3.org/2001/XMLSchema-instance" +:+ Str.dq +:+ ">" +:+ Str.nl +:+
  "  <Series>" +:+ manga_title +:+ "</Series>" +:+ Str.nl +:+
  "  <Title>" +:+ manga_title +:+ "</Title>" +:+ Str.nl +:+
  "  <PageCount>" +:+ Str.of_int total_page_count +:+ "</PageCount>" +:+ Str.nl +:+
  "  <Pages>" +:+ Str.nl.

Definition xml_epilogue : string :=
  "  </Pages>" +:+ Str.nl +:+ "</ComicInfo>" +:+ Str.nl.

Definition plain_page (i : Z) : string :=
  "    <Page Image=" +:+ Str.dq +:+ Str.of_int i +:+ Str.dq +:+ " />" +:+ Str.nl.

Definition bookmarked_page (i : Z) (sanitized_bookmark page_type : string) : string :=
  "    <Page Image=" +:+ Str.dq +:+ Str.of_int i +:+ Str.dq +:+
  " Bookmark=" +:+ Str.dq +:+ sanitized_bookmark +:+ Str.dq +:+
  " Type=" +:+ Str.dq +:+ page_type +:+ Str.dq +:+ " />" +:+ Str.nl.

(** [{page_index: title for page_index, title in bookmarks}]: a later pair
    overwrites an earlier one with the same index. *)
Definition bookmark_dict (bookmarks : list (Z * string)) : gmap Z string :=
  foldl (λ m b, <[b.1 := b.2]> m) ∅ bookmarks.

Definition first_bookmark (bookmarks : list (Z * string)) : Z :=
  match bookmarks with
  | [] => -1
  | b :: _ => b.1
  end.

(** [range(n)] *)
Definition range (n : Z) : list Z := Z.of_nat <$> seq 0 (Z.to_nat n).

Definition page_entry (bookmark_map : gmap Z string) (first_bookmark_page : Z) (i : Z) : string :=
  match bookmark_map !! i with
  | Some t =>
      let sanitized_bookmark := escape_attribute t in
      let page_type := if decide (i = first_bookmark_page) then "FrontCover" else "Story" in
      bookmarked_page i sanitized_bookmark page_type
  | None => plain_page i
  end.

Definition generate_comic_info_xml
    (manga_title : string) (bookmarks : list (Z * string)) (total_page_count : Z) : string :=
  let manga_title := escape_text manga_title in
  let xml_content := xml_prologue manga_title total_page_count in
  let bookmark_map := bookmark_dict bookmarks in
  let first_bookmark_page := first_bookmark bookmarks in
  let xml_content :=
    foldl (λ acc i, acc +:+ page_entry bookmark_map first_bookmark_page i)
          xml_content (range total_page_count) in
  xml_content +:+ xml_epilogue.

(** ** Sorting

    [sorted] and [list.sort] are stable; insertion from the right is the
    stable sort: an element is put before the first element that is not
    smaller, hence before every equal element that followed it. *)

Fixpoint insert_sorted {A} (le : A → A → bool) (x : A) (l : list A) : list A :=
  match l with
  | [] => [x]
  | y :: l' => if le x y then x :: y :: l' else y :: insert_sorted le x l'
  end.

Definition py_sorted {A} (le : A → A → bool) (l : list A) : list A :=
  foldr (insert_sorted le) [] l.

(** [sorted(names)] on strings: code-point order. *)
Definition sorted_names : list string → list string := py_sorted String.leb.

(** [l.sort(key=k)] with an integer key. *)
Definition sort_by_key {A} (key : A → Z) : list A → list A :=
  py_sorted (λ a b, key a <=? key b).

(** ** Archives and the file system *)

(** A zip container is the list of its entries, name and contents, in
    the order they were written. *)

(** [zf.namelist()] *)
Definition namelist (a : list (string * string)) : list string := a.*1.

(** [zf.read(name)]: of several entries with one name the last one is
    the one the directory of the container points to. *)
Definition zip_read (a : list (string * string)) (name : string) : option string :=
  snd <$> last (List.filter (λ e, String.eqb e.1 name) a).

(** What a directory lists under a name: a regular file with its
    contents, or a directory.  The code never descends below the
    directories it lists, so a listed directory has a node of its own
    only where the code names its path. *)
Inductive dirent :=
  | Page (content : string)
  | Subdir.

Inductive node :=
  | Archive (entries : list (string * string))   (* a file that is a zip container *)
  | Blob (content : string)                      (* any other regular file *)
  | Directory (listing : gmap string dirent).

(** The storage: the nodes by path, and, to account for a write that
    fails, the number of writes into an open container that the device
    will still accept ([None]: as many as are asked). *)
Record disk := Disk {
  files : gmap string node;
  writes_left : option nat
}.

Definition set_files (f : gmap string node → gmap string node) (d : disk) : disk :=
  Disk (f (files d)) (writes_left d).

Definition folder_listing (fs : gmap string node) (folder : string) : option (gmap string dirent) :=
  match fs !! folder with
  | Some (Directory l) => Some l
  | _ => None
  end.

(** [os.path.isdir] *)
Definition isdir (fs : gmap string node) (p : string) : bool :=
  match folder_listing fs p with Some _ => true | None => false end.

(** [os.listdir]: the names, in an order fixed by the listing. *)
Definition listdir (l : gmap string dirent) : list string := (map_to_list l).*1.

(** [os.path.isfile(os.path.join(folder, name))] for a name of the listing *)
Definition isfile_in (l : gmap string dirent) (name : string) : bool :=
  match l !! name with
  | Some (Page _) => true
  | _ => false
  end.

(** An open [ZipFile(..., 'w')]. *)
Record zip_writer := ZipWriter {
  written : list (string * string);
  accepts : option nat
}.

Inductive outcome (A : Type) :=
  | Ok (a : A)
  | Raised (a : A).
Arguments Ok {A} a.
Arguments Raised {A} a.

(** [zf.writestr(name, data)] and [zf.write(path, arcname=name)] *)
Definition zip_write (name data : string) (w : zip_writer) : outcome zip_writer :=
  match accepts w with
  | Some O => Raised w
  | Some (S k) => Ok (ZipWriter (written w ++ [(name, data)]) (Some k))
  | None => Ok (ZipWriter (written w ++ [(name, data)]) None)
  end.

(** ** [create_cbz_archive] *)

(** The sort key of a chapter folder: the digits of what follows the last
    hyphen of its name, read as one integer. *)
Definition chapter_sort_key (f : string) : Z :=
  let segment :=
    if String.eqb f "" then "0" else Str.last_segment "-"%char (Path.basename f) in
  let digits := Str.filter Str.isdigit segment in
  if String.eqb digits "" then 0 else Str.int digits.

Definition clean_chapter_title (name : string) : string :=
  Str.title (Str.replace "_"%char " " (Str.replace "-"%char " " name)).

Definition num_images (l : gmap string dirent) : Z :=
  Z.of_nat (length (sorted_names (List.filter (isfile_in l) (listdir l)))).

(** One round of the first loop: a folder that is not a directory is
    passed over. *)
Definition scan_folder (fs : gmap string node)
    (acc : list (Z * string) * Z) (folder : string) : list (Z * string) * Z :=
  match folder_listing fs folder with
  | None => acc
  | Some l =>
      let '(bookmarks, current_page_index) := acc in
      (bookmarks ++ [(current_page_index, clean_chapter_title (Path.basename folder))],
       current_page_index + num_images l)
  end.

Definition scan_folders (fs : gmap string node) (chapter_folders : list string)
    : list (Z * string) * Z :=
  foldl (scan_folder fs) ([], 0) chapter_folders.

Fixpoint write_images (folder : string) (l : gmap string dirent)
    (images : list string) (w : zip_writer) : outcome zip_writer :=
  match images with
  | [] => Ok w
  | image_name :: images' =>
      match l !! image_name with
      | Some (Page content) =>
          match zip_write (Path.basename folder +:+ "/" +:+ image_name) content w with
          | Ok w' => write_images folder l images' w'
          | Raised w' => Raised w'
          end
      | _ => write_images folder l images' w
      end
  end.

(** The second loop; [os.listdir] raises on a path that is no directory. *)
Fixpoint write_folders (fs : gmap string node) (chapter_folders : list string)
    (w : zip_writer) : outcome zip_writer :=
  match chapter_folders with
  | [] => Ok w
  | folder :: folders' =>
      match folder_listing fs folder with
      | None => Raised w
      | Some l =>
          match write_images folder l (sorted_names (listdir l)) w with
          | Ok w' => write_folders fs folders' w'
          | Raised w' => Raised w'
          end
      end
  end.

(** The body of [with zipfile.ZipFile(cbz_file_name, 'w', ...) as zf]. *)
Definition write_cbz (fs : gmap string node) (comic_info_content : string)
    (chapter_folders : list string) (w : zip_writer) : outcome zip_writer :=
  match zip_write "ComicInfo.xml" comic_info_content w with
  | Ok w' => write_folders fs chapter_folders w'
  | Raised w' => Raised w'
  end.

Definition create_cbz_archive (manga_title : string) (chapter_folders : list string)
    (output_filename : option string) (d : disk) : bool * disk :=
  let cbz_file_name :=
    match output_filename with
    | Some f => if String.eqb f "" then manga_title +:+ ".cbz" else f
    | None => manga_title +:+ ".cbz"
    end in
  let chapter_folders := sort_by_key chapter_sort_key chapter_folders in
  let '(bookmarks, current_page_index) := scan_folders (files d) chapter_folders in
  let total_images := current_page_index in
  if total_images =? 0 then (false, d)
  else
    let comic_info_content := generate_comic_info_xml manga_title bookmarks total_images in
    match files d !! cbz_file_name with
    | Some (Directory _) => (false, d)      (* the container cannot be opened *)
    | _ =>
        match write_cbz (files d) comic_info_content chapter_folders
                        (ZipWriter [] (writes_left d)) with
        | Ok w => (true, Disk (<[cbz_file_name := Archive (written w)]> (files d)) (accepts w))
        | Raised w => (false, Disk (<[cbz_file_name := Archive (written w)]> (files d)) (accepts w))
        end
    end.

(** ** [infer_chapter_slugs_from_zip] *)

(** The entries that count as images. *)
Definition is_image_entry (f : string) : bool :=
  negb (Str.startswith "__MACOSX" f) && negb (Str.endswith "/" f)
  && negb (String.eqb f "ComicInfo.xml").

Definition infer_chapter_slugs_from_zip (zf : list (string * string)) : gset string :=
  let image_files := List.filter is_image_entry (namelist zf) in
  foldl (λ chapters item_path,
           let parent_dir := Path.dirname item_path in
           if String.eqb parent_dir "" then chapters else {[parent_dir]} ∪ chapters)
        ∅ image_files.

(** ** [update_local_cbz] *)

(** [re.compile(r'([cv]|ch|chapter)\s?(\d+)', re.IGNORECASE)]: the match
    at one position tries the three alternatives in turn, then at most one
    white-space character, then the longest run of digits, which it
    returns (group 2). *)
Module ChapterRegex.

Fixpoint digits_prefix (s : string) : string :=
  match s with
  | String c s' => if Str.isdigit c then String c (digits_prefix s') else EmptyString
  | EmptyString => EmptyString
  end.

Definition match_digits (s : string) : option string :=
  let ds := digits_prefix s in
  if String.eqb ds "" then None else Some ds.

Definition match_tail (s : string) : option string :=
  match s with
  | String c s' =>
      if Str.isspace c then
        match match_digits s' with
        | Some ds => Some ds
        | None => match_digits s
        end
      else match_digits s
  | EmptyString => None
  end.

(** [s] starts with [word], ignoring case; the rest of [s]. *)
Fixpoint skip_word (word s : string) : option string :=
  match word, s with
  | EmptyString, _ => Some s
  | String w word', String c s' =>
      if Ascii.eqb (Str.lower_char c) w then skip_word word' s' else None
  | String _ _, EmptyString => None
  end.

Definition match_alternative (word s : string) : option string :=
  match skip_word word s with
  | Some rest => match_tail rest
  | None => None
  end.

Definition match_here (s : string) : option string :=
  match match_alternative "c" s with
  | Some ds => Some ds
  | None =>
  match match_alternative "v" s with
  | Some ds => Some ds
  | None =>
  match match_alternative "ch" s with
  | Some ds => Some ds
  | None => match_alternative "chapter" s
  end end end.

(** [chapter_regex.search(s)], then [match.group(2)] *)
Fixpoint search (s : string) : option string :=
  match match_here s with
  | Some ds => Some ds
  | None =>
      match s with
      | String _ s' => search s'
      | EmptyString => None
      end
  end.

End ChapterRegex.

(** [chapters.setdefault(key, []).append(item)] on a dict, which keeps its
    keys in the order of their first insertion. *)
Fixpoint setdefault_append (key item : string) (chapters : list (string * list string))
    : list (string * list string) :=
  match chapters with
  | [] => [(key, [item])]
  | (k, v) :: chapters' =>
      if String.eqb k key then (k, v ++ [item]) :: chapters'
      else (k, v) :: setdefault_append key item chapters'
  end.

Definition dict_get (key : string) (chapters : list (string * list string)) : list string :=
  match List.find (λ kv, String.eqb kv.1 key) chapters with
  | Some kv => kv.2
  | None => []
  end.

Definition chapter_key_of_filename (item_path : string) : string :=
  let chapter_num :=
    match ChapterRegex.search (Path.basename item_path) with
    | Some ds => Str.int ds
    | None => 0
    end in
  "Chapter " +:+ Str.of_int_03d chapter_num.

Inductive update_result :=
  | SkippingNonCbz            (* "Skipping non-CBZ file: ..." *)
  | ErrorNotZip               (* "Error: ... is not a valid zip file." *)
  | SkippingComicInfoExists   (* "Skipping: ComicInfo.xml already exists." *)
  | SkippingNoImageFiles      (* "Skipping: No image files found." *)
  | SkippingNoChapters        (* "Skipping: Could not infer chapters from filenames." *)
  | SkippingNoImages          (* "Skipping: No images found after analysis." *)
  | Success (total_images : Z) (chapters : nat)
  | Error                     (* "Error: {e}" *)
  | Uncaught.                 (* an exception leaves the function *)

Definition is_skip (r : update_result) : bool :=
  match r with
  | SkippingNonCbz | SkippingComicInfoExists | SkippingNoImageFiles
  | SkippingNoChapters | SkippingNoImages => true
  | _ => false
  end.

(** The grouping of the image entries into chapters; [None] is the
    return in the middle of it. *)
Definition group_chapters (image_files : list string) : option (list (string * list string)) :=
  let parent_dirs : gset string := list_to_set (Path.dirname <$> image_files) in
  if bool_decide (size parent_dirs = 1%nat ∧ "" ∈ parent_dirs) then
    let chapters :=
      foldl (λ chapters item_path,
               setdefault_append (chapter_key_of_filename item_path) item_path chapters)
            [] image_files in
    if bool_decide (length chapters = 1%nat) && bool_decide ("Chapter 000" ∈ chapters.*1)
    then None else Some chapters
  else
    Some (foldl (λ chapters item_path,
                   setdefault_append (Path.dirname item_path) item_path chapters)
                [] image_files).

Definition count_chapter (chapters : list (string * list string))
    (acc : list (Z * string) * Z * Z) (chapter_key : string) : list (Z * string) * Z * Z :=
  let '(bookmarks, current_page_index, total_images) := acc in
  let num_pages_in_chapter := Z.of_nat (length (dict_get chapter_key chapters)) in
  (bookmarks ++ [(current_page_index, clean_chapter_title chapter_key)],
   current_page_index + num_pages_in_chapter,
   total_images + num_pages_in_chapter).

Fixpoint rewrite_images (original_zf : list (string * string)) (chapter_folder : string)
    (image_list : list string) (w : zip_writer) : outcome zip_writer :=
  match image_list with
  | [] => Ok w
  | original_image_path :: image_list' =>
      match zip_read original_zf original_image_path with
      | None => Raised w
      | Some data =>
          let new_image_path := chapter_folder +:+ "/" +:+ Path.basename original_image_path in
          match zip_write new_image_path data w with
          | Ok w' => rewrite_images original_zf chapter_folder image_list' w'
          | Raised w' => Raised w'
          end
      end
  end.

Fixpoint rewrite_chapters (original_zf : list (string * string))
    (chapters : list (string * list string)) (w : zip_writer) : outcome zip_writer :=
  match chapters with
  | [] => Ok w
  | (chapter_folder, image_list) :: chapters' =>
      match rewrite_images original_zf chapter_folder image_list w with
      | Ok w' => rewrite_chapters original_zf chapters' w'
      | Raised w' => Raised w'
      end
  end.

(** The [except] clause: the temporary file is removed if it is there;
    [os.remove] itself raises on a directory. *)
Definition cleanup_temp (temp_cbz_path : string) (left : option nat) (fs : gmap string node)
    : update_result * disk :=
  match fs !! temp_cbz_path with
  | None => (Error, Disk fs left)
  | Some (Directory _) => (Uncaught, Disk fs left)
  | Some _ => (Error, Disk (delete temp_cbz_path fs) left)
  end.

Definition update_local_cbz (cbz_path : string) (custom_title : option string)
    (force_overwrite : bool) (d : disk) : update_result * disk :=
  if negb (Str.endswith ".cbz" (Str.lower cbz_path)) then (SkippingNonCbz, d)
  else
  match files d !! cbz_path with
  | Some (Archive zf) =>
    let temp_cbz_path := cbz_path +:+ ".tmp" in
    if bool_decide ("ComicInfo.xml" ∈ namelist zf) && negb force_overwrite
    then (SkippingComicInfoExists, d)
    else
    let image_files := sorted_names (List.filter is_image_entry (namelist zf)) in
    match image_files with
    | [] => (SkippingNoImageFiles, d)
    | _ =>
    match group_chapters image_files with
    | None => (SkippingNoChapters, d)
    | Some chapters =>
    let sorted_chapter_keys := sorted_names chapters.*1 in
    let '(bookmarks, current_page_index, total_images) :=
      foldl (count_chapter chapters) ([], 0, 0) sorted_chapter_keys in
    if total_images =? 0 then (SkippingNoImages, d)
    else
    let manga_title :=
      match custom_title with
      | Some t => if String.eqb t "" then
                    Str.title (Str.replace "-"%char " " (Path.splitext_root (Path.basename cbz_path)))
                  else t
      | None => Str.title (Str.replace "-"%char " " (Path.splitext_root (Path.basename cbz_path)))
      end in
    let comic_info_content := generate_comic_info_xml manga_title bookmarks total_images in
    match files d !! temp_cbz_path with
    | Some (Directory _) => cleanup_temp temp_cbz_path (writes_left d) (files d)
    | _ =>
      let build :=
        match zip_write "ComicInfo.xml" comic_info_content (ZipWriter [] (writes_left d)) with
        | Ok w => rewrite_chapters zf chapters w
        | Raised w => Raised w
        end in
      match build with
      | Ok w =>
          (* shutil.move(temp_cbz_path, cbz_path) *)
          (Success total_images (length bookmarks),
           Disk (<[cbz_path := Archive (written w)]> (delete temp_cbz_path (files d))) (accepts w))
      | Raised w =>
          cleanup_temp temp_cbz_path (accepts w)
                       (<[temp_cbz_path := Archive (written w)]> (files d))
      end
    end
    end
    end
  | _ => (ErrorNotZip, d)
  end.

(** ** The source site and [download_chapter_images] *)

(** What the fetch of one image comes to.  A [RequestException] is raised
    by [session.get] or by [raise_for_status], before the file is opened;
    any other exception (an [OSError] of [open] or of the copy, an error of
    [urllib3] while the raw stream is read) is not caught by
    [download_image]: it escapes, and when the file had been opened it is
    there with what was copied. *)
Inductive fetch :=
  | Fetched (data : string)
  | RequestFailed
  | Escaped (partial : option string).

(** What the retrieval of a chapter page comes to: the stripped [src] of
    every [img.wp-manga-chapter-img] of the page, in page order; a
    [RequestException], which [download_chapter_images] catches; or any
    other exception (one of the parser, say), which it does not catch. *)
Inductive page_list :=
  | Listed (image_tags : list string)
  | ListFailed
  | ListEscaped.

(** The collaborators behind [requests], [BeautifulSoup] and [urljoin],
    and the sizes of the worker pools the run was started with. *)
Record web := Web {
  (* [find_all_chapter_urls]: the chapter URLs, oldest first; [[]] on failure *)
  chapter_list : string → list string;
  (* [session.get(chapter_url)], [raise_for_status] and the search of the
     parsed page for its image tags *)
  chapter_page : string → page_list;
  (* [urljoin(chapter_url, src)] raises [ValueError] *)
  urljoin_raises : string → string → bool;
  (* [session.get(urljoin(chapter_url, src), stream=True)] and the copy of
     its raw stream into the file *)
  get_image : string → string → fetch;
  (* [args.chapter_workers] and [args.workers], the sizes of the two pools
     of a sync *)
  chapter_workers : Z;
  workers : Z
}.

Inductive image_status := skipped | downloaded | failed.

(** [download_image], on the listing of the directory of [file_path];
    [None] for an exception that leaves it. *)
Definition download_image (session : web) (chapter_url src file_name : string)
    (l : gmap string dirent) : option image_status * gmap string dirent :=
  match l !! file_name with
  | Some _ => (Some skipped, l)
  | None =>
      match get_image session chapter_url src with
      | Fetched data => (Some downloaded, <[file_name := Page data]> l)
      | RequestFailed => (Some failed, l)
      | Escaped None => (None, l)
      | Escaped (Some partial) => (None, <[file_name := Page partial]> l)
      end
  end.

(** [os.makedirs(os.path.join(parent, name), exist_ok=True)]; [None] when
    a regular file is in the way, at the path itself or at its parent. *)
Definition makedirs (parent name : string) (fs : gmap string node) : option (gmap string node) :=
  let p := Path.join parent name in
  match fs !! p with
  | Some (Directory _) => Some fs
  | Some _ => None
  | None =>
      match fs !! parent with
      | Some (Directory l) =>
          match l !! name with
          | Some (Page _) => None
          | _ => Some (<[p := Directory ∅]> (<[parent := Directory (<[name := Subdir]> l)]> fs))
          end
      | Some _ => None
      | None => Some (<[p := Directory ∅]> fs)
      end
  end.

Definition url_slug (url : string) : string :=
  Str.last_segment "/"%char (Str.strip "/"%char url).

Definition page_file_name (i : nat) : string :=
  "page_" +:+ Str.of_int_03d (Z.of_nat i + 1) +:+ ".jpg".

(** [enumerate(image_tags)] filtered on a non-empty [src] *)
Definition page_tasks (image_tags : list string) : list (string * string) :=
  omap (λ t, if String.eqb t.2 "" then None else Some (t.2, page_file_name t.1))
       (imap (λ i src, (i, src)) image_tags).

Inductive download_result :=
  | Returns (output_dir : option string)
  | DownloadRaises.

(** The pool of page workers: every task runs, each on a file of its
    own, so they are run here one after the other; the flag tells whether
    an exception has left one of them, which [future.result()] raises
    again. *)
Definition run_page_tasks (session : web) (chapter_url : string)
    (tasks : list (string * string)) (l : gmap string dirent) : bool * gmap string dirent :=
  foldl (λ acc task,
           let r := download_image session chapter_url task.1 task.2 acc.2 in
           (acc.1 || bool_decide (r.1 = None), r.2))
        (false, l) tasks.

(** Only a [RequestException] is caught: the [OSError] of [os.makedirs],
    what escapes from the retrieval of the chapter page, the [ValueError]
    of [urljoin] while the tasks are listed, that of a pool without
    workers and whatever has left a page task leave the function. *)
Definition download_chapter_images (session : web) (chapter_url base_download_dir : string)
    (max_workers : Z) (fs : gmap string node) : download_result * gmap string node :=
  let chapter_name := url_slug chapter_url in
  let output_dir := Path.join base_download_dir chapter_name in
  match makedirs base_download_dir chapter_name fs with
  | None => (DownloadRaises, fs)
  | Some fs =>
      match chapter_page session chapter_url with
      | ListEscaped => (DownloadRaises, fs)
      | ListFailed => (Returns None, fs)
      | Listed [] => (Returns None, fs)
      | Listed image_tags =>
          if existsb (λ src, negb (String.eqb src "") && urljoin_raises session chapter_url src)
                     image_tags
          then (DownloadRaises, fs)
          else if max_workers <=? 0 then (DownloadRaises, fs)
          else
          let l := default ∅ (folder_listing fs output_dir) in
          let '(raised, l') := run_page_tasks session chapter_url (page_tasks image_tags) l in
          (if raised then DownloadRaises else Returns (Some output_dir),
           <[output_dir := Directory l']> fs)
      end
  end.

(** ** [sync_cbz_with_source] *)

Fixpoint split (sep : ascii) (s : string) : list string :=
  match s with
  | EmptyString => [EmptyString]
  | String c s' =>
      if Ascii.eqb c sep then EmptyString :: split sep s'
      else match split sep s' with
           | h :: t => String c h :: t
           | [] => [String c EmptyString]
           end
  end.

(** The path of a member below the target directory: empty, [.] and [..]
    components are dropped. *)
Definition member_parts (name : string) : list string :=
  List.filter (λ x, negb (String.eqb x "" || String.eqb x "." || String.eqb x ".."))
              (split "/"%char name).

(** Put [v] under [name] in the listing of [dir]; a file does not replace
    a directory nor a directory a file. *)
Definition put_dirent (dir name : string) (v : dirent) (fs : gmap string node)
    : option (gmap string node) :=
  match fs !! dir with
  | Some (Directory l) =>
      match l !! name, v with
      | Some Subdir, Page _ => None
      | Some (Page _), Subdir => None
      | _, _ => Some (<[dir := Directory (<[name := v]> l)]> fs)
      end
  | _ => None
  end.

(** [zf.extract(name, path)].  Two levels are kept: a member deeper than
    that leaves a sub-directory in its chapter folder. *)
Definition extract_member (path name data : string) (fs : gmap string node)
    : option (gmap string node) :=
  let is_dir := Str.endswith "/" name in
  match member_parts name with
  | [] => if is_dir then Some fs else None
  | [c] => if is_dir then makedirs path c fs else put_dirent path c (Page data) fs
  | c :: c2 :: rest =>
      fs ← makedirs path c fs;
      put_dirent (Path.join path c) c2
                 (match rest with [] => if is_dir then Subdir else Page data | _ => Subdir end) fs
  end.

(** [zf.extractall(path)] *)
Definition extractall (zf : list (string * string)) (path : string) (fs : gmap string node)
    : option (gmap string node) :=
  foldl (λ acc name, fs ← acc; data ← zip_read zf name; extract_member path name data fs)
        (Some fs) (namelist zf).

(** Leaving [with tempfile.TemporaryDirectory()]: the directory goes with
    the folders in it. *)
Definition rmtree (temp_dir : string) (fs : gmap string node) : gmap string node :=
  match fs !! temp_dir with
  | Some (Directory l) =>
      delete temp_dir (foldr (λ d fs, delete (Path.join temp_dir d) fs) fs (listdir l))
  | _ => fs
  end.

Definition slug_to_url (online_urls : list string) : gmap string string :=
  foldl (λ m url, <[url_slug url := url]> m) ∅ online_urls.

(** The chapters to fetch, in the order they are submitted. *)
Definition urls_to_download (zf : list (string * string)) (online_urls exclude : list string)
    : list string :=
  let local_slugs := infer_chapter_slugs_from_zip zf in
  let online_urls :=
    List.filter (λ u, negb (bool_decide (url_slug u ∈ exclude))) online_urls in
  let slug_to_url := slug_to_url online_urls in
  let online_slugs : gset string := dom slug_to_url in
  let missing_slugs := sorted_names (elements (online_slugs ∖ local_slugs)) in
  (λ slug, slug_to_url !!! slug) <$> missing_slugs.

(** The pool of chapter workers: every submitted download runs; they work
    in folders of their own, so they are run here one after the other.
    The result of each is kept under its URL. *)
Definition run_downloads (session : web) (urls : list string) (temp_dir : string)
    (fs : gmap string node) : gmap string download_result * gmap string node :=
  foldl (λ acc url,
           let r := download_chapter_images session url temp_dir (workers session) acc.2 in
           (<[url := r.1]> acc.1, r.2))
        (∅, fs) urls.

(** [downloaded_chapter_paths], filled as the futures complete:
    [completed] lists the submitted URLs in their order of completion. *)
Definition collect_paths (results : gmap string download_result) (completed : list string)
    : list string :=
  omap (λ url, match results !! url with
               | Some (Returns (Some chapter_path)) =>
                   if String.eqb chapter_path "" then None else Some chapter_path
               | _ => None
               end) completed.

Definition any_raised (results : gmap string download_result) (completed : list string) : bool :=
  existsb (λ url, match results !! url with Some DownloadRaises => true | _ => false end)
          completed.

Inductive sync_status :=
  | LocalFileNotFound
  | NoRemoteChapters
  | UpToDate
  | SyncComplete
  | SyncFailed
  | SyncRaises.

Definition existing_chapter_folders (temp_dir : string) (fs : gmap string node) : list string :=
  match folder_listing fs temp_dir with
  | Some l =>
      List.filter (isdir fs) (Path.join temp_dir <$> listdir l)
  | None => []
  end.

Definition sync_cbz_with_source (session : web) (cbz_path series_url : string)
    (exclude : list string) (temp_dir : string) (completed : list string) (d : disk)
    : sync_status * disk :=
  match files d !! cbz_path with
  | None => (LocalFileNotFound, d)
  | Some (Archive zf) =>
      let online_urls := chapter_list session series_url in
      match online_urls with
      | [] => (NoRemoteChapters, d)
      | _ =>
      let urls := urls_to_download zf online_urls exclude in
      match urls with
      | [] => (UpToDate, d)
      | _ =>
      let fs := <[temp_dir := Directory ∅]> (files d) in
      if chapter_workers session <=? 0
      then (SyncRaises, set_files (λ _, rmtree temp_dir fs) d)
      else
      let '(results, fs) := run_downloads session urls temp_dir fs in
      if any_raised results completed then (SyncRaises, set_files (λ _, rmtree temp_dir fs) d)
      else
      let downloaded_chapter_paths := collect_paths results completed in
      match extractall zf temp_dir fs with
      | None => (SyncRaises, set_files (λ _, rmtree temp_dir fs) d)
      | Some fs =>
          let all_chapter_folders :=
            existing_chapter_folders temp_dir fs ++ downloaded_chapter_paths in
          let manga_title := Path.splitext_root (Path.basename cbz_path) in
          let '(ok, d') :=
            create_cbz_archive manga_title all_chapter_folders (Some cbz_path)
                               (Disk fs (writes_left d)) in
          (if ok then SyncComplete else SyncFailed, set_files (rmtree temp_dir) d')
      end
      end
      end
  | Some _ => (SyncRaises, d)
  end.

(** ** Notions used to state the properties *)

(** The entries one chapter folder contributes to the container: its
    regular files in the order of their names, under the folder's name. *)
Definition folder_pages (fs : gmap string node) (folder : string) : list (string * string) :=
  match folder_listing fs folder with
  | Some l =>
      omap (λ image_name,
              match l !! image_name with
              | Some (Page content) =>
                  Some (Path.basename folder +:+ "/" +:+ image_name, content)
              | _ => None
              end)
           (sorted_names (listdir l))
  | None => []
  end.

(** The name the container is written under. *)
Definition cbz_file_name (manga_title : string) (output_filename : option string) : string :=
  match output_filename with
  | Some f => if String.eqb f "" then manga_title +:+ ".cbz" else f
  | None => manga_title +:+ ".cbz"
  end.

(** The order in which [create_cbz_archive] takes the folders. *)
Definition chapter_order (chapter_folders : list string) : list string :=
  sort_by_key chapter_sort_key chapter_folders.

(** The concatenation of a list of strings. *)
Definition concat_strings (l : list string) : string := foldr String.append EmptyString l.

(** The title the dictionary of bookmarks holds for an index: that of the
    last pair of the list with this index. *)
Definition last_bookmark (i : Z) (bookmarks : list (Z * string)) : option string :=
  snd <$> last (filter (λ b, b.1 = i) bookmarks).

(** A field of the document in which [&] only starts one of the four
    entities and [<] and [>] do not occur; for an attribute value the
    double quote must not occur either. *)
Fixpoint xml_escaped (in_attribute : bool) (s : string) : bool :=
  match s with
  | EmptyString => true
  | String c s' =>
      (if Ascii.eqb c "&"%char then
         String.prefix "amp;" s' || String.prefix "lt;" s'
         || String.prefix "gt;" s' || String.prefix "quot;" s'
       else if Ascii.eqb c "<"%char then false
       else if Ascii.eqb c ">"%char then false
       else if Ascii.eqb c Str.dquote then negb in_attribute
       else true)
      && xml_escaped in_attribute s'
  end.

(** Reading a field back: the entities become the characters they stand
    for.  [skip] characters of an entity are still to be passed over. *)
Fixpoint unescape_go (skip : nat) (s : string) : string :=
  match s with
  | EmptyString => EmptyString
  | String c s' =>
      match skip with
      | S k => unescape_go k s'
      | O =>
          if Ascii.eqb c "&"%char then
            if String.prefix "amp;" s' then String "&"%char (unescape_go 4 s')
            else if String.prefix "lt;" s' then String "<"%char (unescape_go 3 s')
            else if String.prefix "gt;" s' then String ">"%char (unescape_go 3 s')
            else if String.prefix "quot;" s' then String Str.dquote (unescape_go 5 s')
            else String c (unescape_go 0 s')
          else String c (unescape_go 0 s')
      end
  end.
Definition unescape : string → string := unescape_go 0.

(** The page entries of the container stored under [path]. *)
Definition archive_pages (d : disk) (path : string) : list (string * string) :=
  match files d !! path with
  | Some (Archive entries) =>
      List.filter (λ e, negb (String.eqb e.1 "ComicInfo.xml")) entries
  | _ => []
  end.

(** The order the specification asks for, natural sort: a name is read as
    a sequence of chunks, a maximal run of digits being one chunk with the
    value of the number it writes and any other character a chunk of its
    own; two names compare chunk by chunk, numbers by value, characters by
    code, a number before a character, a shorter sequence before its
    extensions. *)
Inductive chunk :=
  | Number (n : Z)
  | Character (c : ascii).

Definition close_run (run : option Z) : list chunk :=
  match run with
  | Some n => [Number n]
  | None => []
  end.

Fixpoint chunks_go (run : option Z) (s : string) : list chunk :=
  match s with
  | EmptyString => close_run run
  | String c s' =>
      if Str.isdigit c then
        chunks_go (Some (10 * default 0 run + Str.digit_value c)) s'
      else close_run run ++ Character c :: chunks_go None s'
  end.

Definition chunks : string → list chunk := chunks_go None.

Definition chunk_compare (a b : chunk) : comparison :=
  match a, b with
  | Number n, Number m => n ?= m
  | Number _, Character _ => Lt
  | Character _, Number _ => Gt
  | Character c, Character e => (Str.code c ?= Str.code e)%N
  end.

Fixpoint chunks_leb (a b : list chunk) : bool :=
  match a, b with
  | [], _ => true
  | _ :: _, [] => false
  | x :: a', y :: b' =>
      match chunk_compare x y with
      | Lt => true
      | Gt => false
      | Eq => chunks_leb a' b'
      end
  end.

Definition spec_natural_leb (a b : string) : bool := chunks_leb (chunks a) (chunks b).

Definition spec_natural_sort : list string → list string := py_sorted spec_natural_leb.

(** The order of the keys. *)
Definition key_le {A} (key : A → Z) (a b : A) : Prop := key a ≤ key b.

(** ** Auxiliary notions of the proofs *)

Definition page_entry_of (folder : string) (l : gmap string dirent) (image_name : string)
    : option (string * string) :=
  match l !! image_name with
  | Some (Page content) => Some (Path.basename folder +:+ "/" +:+ image_name, content)
  | _ => None
  end.

(** Escaping, character by character. *)
Definition escape_char (in_attribute : bool) (c : ascii) : string :=
  if Ascii.eqb c "&"%char then "&amp;"
  else if Ascii.eqb c "<"%char then "&lt;"
  else if Ascii.eqb c ">"%char then "&gt;"
  else if in_attribute && Ascii.eqb c Str.dquote then "&quot;"
  else String c "".

Definition tasks_from (k : nat) (image_tags : list string) : list (string * string) :=
  omap (λ t : nat * string, if String.eqb t.2 "" then None else Some (t.2, page_file_name t.1))
       (imap (λ i src, ((k + i)%nat, src)) image_tags).

(** What the fetch of an image leaves in its file, if anything. *)
Definition fetch_file (f : fetch) : option string :=
  match f with
  | Fetched data => Some data
  | RequestFailed => None
  | Escaped partial => partial
  end.

(** ** The inputs of the examples *)

Definition tagged_archive : list (string * string) :=
  [("ComicInfo.xml", "<ComicInfo />"); ("chapter-1/page_001.jpg", "P1")].

Definition tagged_disk : disk :=
  Disk (<["/m/x.cbz" := Archive tagged_archive]> ∅) None.

Definition empty_folder_disk : disk :=
  Disk (<["/t/chapter-1" := Directory (<["extras" := Subdir]> ∅)]>
          (<["/m/x.cbz" := Archive tagged_archive]> ∅)) None.

Definition chapter_1_url : string := "https://m.example/manga/x/chapter-1/".

(** A site whose chapter page lists two images, neither of which can be
    fetched. *)
Definition site_without_images : web :=
  Web (λ _, [chapter_1_url]) (λ _, Listed ["a.jpg"; "b.jpg"]) (λ _ _, false)
      (λ _ _, RequestFailed) 4 10.

Definition scratch_files : gmap string node := <["/tmp/t" := Directory ∅]> ∅.

(** An archive whose page of chapter 1 is stored under a name that starts
    with [./]. *)
Definition dotted_archive : list (string * string) :=
  [("ComicInfo.xml", "<ComicInfo />"); ("./chapter-1/page_001.jpg", "old page")].

Definition dotted_disk : disk :=
  Disk (<["/m/x.cbz" := Archive dotted_archive]> ∅) None.

Definition chapter_2_url : string := "https://m.example/manga/x/chapter-2/".

Definition quoted_bookmarks : list (Z * string) :=
  [(0, "Chapter 1 <" +:+ Str.dq +:+ "Dawn" +:+ Str.dq +:+ ">"); (2, "Chapter 2 & 3")].

(** A chapter of five pages, the third of which cannot be fetched. *)
Definition site_with_failure : web :=
  Web (λ _, [chapter_1_url])
      (λ _, Listed ["1.jpg"; "2.jpg"; "3.jpg"; "4.jpg"; "5.jpg"])
      (λ _ _, false)
      (λ _ src, if String.eqb src "3.jpg" then RequestFailed else Fetched ("image " +:+ src))
      4 10.

Definition volumes_disk : disk :=
  Disk (<["/t/vol-1-ch-2" := Directory (<["page_001.jpg" := Page "first"]> ∅)]>
       (<["/t/vol-2-ch-1" := Directory (<["page_001.jpg" := Page "second"]> ∅)]> ∅)) None.

Definition special_1_url : string := "https://m.example/manga/x/special-1/".

(** A site with a chapter and a special that both end in the number 1. *)
Definition site_with_special : web :=
  Web (λ _, [chapter_1_url; special_1_url])
      (λ u, if String.eqb u chapter_1_url then Listed ["a.jpg"] else Listed ["b.jpg"; "c.jpg"])
      (λ _ _, false)
      (λ _ src, Fetched ("image " +:+ src)) 4 10.

Definition local_archive : list (string * string) :=
  [("ComicInfo.xml", "<ComicInfo />"); ("chapter-0/page_001.jpg", "P0")].

Definition local_disk (left : option nat) : disk :=
  Disk (<["/m/x.cbz" := Archive local_archive]> ∅) left.

(** A site with two chapters of one page each. *)
Definition site_with_two_chapters : web :=
  Web (λ _, [chapter_1_url; chapter_2_url]) (λ _, Listed ["a.jpg"])
      (λ _ _, false)
      (λ u src, Fetched ("image " +:+ src +:+ " of " +:+ url_slug u)) 4 10.

(** ** Further notions used to state properties *)

(** The writer an attempt to write ends with, raised or not. *)
Definition outcome_state {A} (o : outcome A) : A :=
  match o with
  | Ok a => a
  | Raised a => a
  end.

(** The entries [create_cbz_archive] sets out to write. *)
Definition planned_entries (fs : gmap string node) (manga_title : string)
    (chapter_folders : list string) : list (string * string) :=
  let order := chapter_order chapter_folders in
  let scan := scan_folders fs order in
  ("ComicInfo.xml", generate_comic_info_xml manga_title scan.1 scan.2)
  :: mjoin (folder_pages fs <$> order).

(** The bookmarks the first loop of [create_cbz_archive] collects, from
    the page index [current_page_index] on. *)
Fixpoint bookmarks_from (fs : gmap string node) (current_page_index : Z)
    (chapter_folders : list string) : list (Z * string) :=
  match chapter_folders with
  | [] => []
  | folder :: folders' =>
      match folder_listing fs folder with
      | None => bookmarks_from fs current_page_index folders'
      | Some l =>
          (current_page_index, clean_chapter_title (Path.basename folder))
          :: bookmarks_from fs (current_page_index + num_images l) folders'
      end
  end.

(** The entry [update_local_cbz] writes for an image of the original
    container that it has put into the chapter [chapter_folder]. *)
Definition regrouped_page (zf : list (string * string)) (chapter_folder original : string)
    : option (string * string) :=
  data ← zip_read zf original;
  Some (chapter_folder +:+ "/" +:+ Path.basename original, data).

(** The grouping loops of [update_local_cbz], for either way of naming the
    chapter of an image. *)
Definition group_by_key (chapter_key : string → string) (image_files : list string)
    : list (string * list string) :=
  foldl (λ chapters item_path, setdefault_append (chapter_key item_path) item_path chapters)
        [] image_files.

(** The temporary directory of a sync while it is in use: it is a
    directory, the names it lists hold no separator, and every path right
    below it that exists is listed. *)
Definition temp_tree (temp_dir : string) (fs : gmap string node) : Prop :=
  ∃ l, fs !! temp_dir = Some (Directory l)
       ∧ (∀ name, is_Some (l !! name) → Str.contains "/"%char name = false)
       ∧ (∀ c, Str.contains "/"%char c = false →
               is_Some (fs !! Path.join temp_dir c) → is_Some (l !! c)).

(** Two states of the files that agree everywhere but at the temporary
    directory and right below it. *)
Definition same_outside (temp_dir : string) (fs fs' : gmap string node) : Prop :=
  ∀ p, p ≠ temp_dir →
       (∀ c, Str.contains "/"%char c = false → p ≠ Path.join temp_dir c) →
       fs' !! p = fs !! p.

(** ** Further inputs of the examples *)

(** A chapter folder with one page, and an archive where the container
    is to be written; the second folder of the examples is missing. *)
Definition broken_list_disk : disk :=
  Disk (<["/t/chapter-1" := Directory (<["page_001.jpg" := Page "one"]> ∅)]>
       (<["/m/T.cbz" := Archive tagged_archive]> ∅)) None.

(** An archive without folders, the chapter being told by the file names. *)
Definition flat_archive : list (string * string) :=
  [("ch1_01.jpg", "A"); ("ch2_01.jpg", "B"); ("ch1_02.jpg", "C")].

(** Two archives side by side. *)
Definition flat_disk (left : option nat) : disk :=
  Disk (<["/m/other.cbz" := Archive tagged_archive]>
       (<["/m/my-manga.cbz" := Archive flat_archive]> ∅)) left.

(** An archive of images whose names tell no chapter. *)
Definition unnumbered_disk : disk :=
  Disk (<["/m/art.cbz" := Archive [("cover.jpg", "A"); ("back.jpg", "B")]]> ∅) None.

(** A chapter folder that already holds its first page. *)
Definition resumed_files : gmap string node :=
  <["/d/chapter-1" := Directory (<["page_001.jpg" := Page "kept"]> ∅)]> ∅.

(** * Lemmas *)

#[local] Arguments String.append !_ _ / : simpl nomatch.

Section stable_sort.
Context {A : Type} (key : A → Z).

Local Abbreviation key_le := (key_le key).

Lemma insert_sorted_perm (le : A → A → bool) x l : insert_sorted le x l ≡ₚ x :: l.
Proof.
  induction l as [|y l IH]; simpl; [done|].
  destruct (le x y); [done|]. rewrite IH. apply Permutation_swap.
Qed.

Lemma py_sorted_perm (le : A → A → bool) l : py_sorted le l ≡ₚ l.
Proof.
  induction l as [|x l IH]; simpl; [done|].
  rewrite insert_sorted_perm. by f_equiv.
Qed.

Lemma insert_sorted_by_key x l :
  StronglySorted key_le l →
  StronglySorted key_le (insert_sorted (λ a b, key a <=? key b) x l).
Proof.
  induction 1 as [|y l Hl IH Hy]; simpl.
  - repeat constructor.
  - destruct (Z.leb_spec (key x) (key y)) as [Hxy|Hxy].
    + constructor; [by constructor|].
      constructor; [done|].
      eapply Forall_impl; [exact Hy|]. unfold key_le. intros; simpl in *; lia.
    + constructor; [done|].
      rewrite insert_sorted_perm. constructor; [unfold key_le; lia|done].
Qed.

Lemma sort_by_key_sorted l : StronglySorted key_le (sort_by_key key l).
Proof.
  induction l as [|x l IH]; simpl; [constructor|].
  by apply insert_sorted_by_key.
Qed.

Lemma filter_insert_sorted k x l :
  filter (λ a, key a = k) (insert_sorted (λ a b, key a <=? key b) x l)
  = filter (λ a, key a = k) (x :: l).
Proof.
  induction l as [|y l IH]; simpl; [done|].
  destruct (Z.leb_spec (key x) (key y)) as [Hxy|Hxy]; [done|].
  rewrite filter_cons, IH, !filter_cons.
  repeat case_decide; try done; lia.
Qed.

(** Stability: elements with equal keys keep their order. *)
Lemma sort_by_key_stable k l :
  filter (λ a, key a = k) (sort_by_key key l) = filter (λ a, key a = k) l.
Proof.
  induction l as [|x l IH]; simpl; [done|].
  unfold sort_by_key in *. simpl.
  rewrite filter_insert_sorted, !filter_cons, IH. done.
Qed.

Lemma sorted_by_key_unique l1 l2 :
  StronglySorted key_le l1 → StronglySorted key_le l2 →
  (∀ k, filter (λ a, key a = k) l1 = filter (λ a, key a = k) l2) →
  l1 = l2.
Proof.
  intros H1. revert l2. induction H1 as [|x l1 Hl1 IH Hx]; intros l2 H2 Hf.
  - destruct l2 as [|y l2]; [done|].
    specialize (Hf (key y)). rewrite filter_cons in Hf.
    case_decide; [|done]. by rewrite filter_nil in Hf.
  - destruct H2 as [|y l2 Hl2 Hy].
    { specialize (Hf (key x)). rewrite filter_cons in Hf.
      case_decide; [|done]. by rewrite filter_nil in Hf. }
    assert (key x = key y) as Hk.
    { destruct (Z.lt_trichotomy (key x) (key y)) as [Hlt|[?|Hlt]]; [|done|].
      - specialize (Hf (key x)). rewrite !filter_cons in Hf.
        case_decide; [|done]. case_decide; [lia|].
        assert (x ∈ filter (λ a, key a = key x) l2) as Hin
          by (rewrite <- Hf; left).
        apply list_elem_of_filter in Hin as [_ Hin].
        rewrite Forall_forall in Hy. specialize (Hy _ Hin). unfold key_le in Hy. lia.
      - specialize (Hf (key y)). rewrite !filter_cons in Hf.
        case_decide; [lia|]. case_decide; [|done].
        assert (y ∈ filter (λ a, key a = key y) l1) as Hin
          by (rewrite Hf; left).
        apply list_elem_of_filter in Hin as [_ Hin].
        rewrite Forall_forall in Hx. specialize (Hx _ Hin). unfold key_le in Hx. lia. }
    assert (x = y) as ->.
    { specialize (Hf (key x)). rewrite !filter_cons in Hf.
      case_decide; [|done]. case_decide; [|congruence]. congruence. }
    f_equal. apply IH; [done|]. intros k. specialize (Hf k).
    rewrite !filter_cons in Hf. case_decide; congruence.
Qed.

Lemma sort_by_key_ext l1 l2 :
  (∀ k, filter (λ a, key a = k) l1 = filter (λ a, key a = k) l2) →
  sort_by_key key l1 = sort_by_key key l2.
Proof.
  intros Hf. apply sorted_by_key_unique; try apply sort_by_key_sorted.
  intros k. by rewrite !sort_by_key_stable.
Qed.

Lemma filter_key_length_le_1 k l :
  NoDup (key <$> l) → (length (filter (λ a, key a = k) l) ≤ 1)%nat.
Proof.
  induction l as [|x l IH]; simpl; [lia|].
  rewrite NoDup_cons. intros [Hx Hl]. rewrite filter_cons.
  case_decide as Hk; simpl; [|by apply IH].
  assert (filter (λ a, key a = k) l = []) as ->; [|simpl; lia].
  clear IH Hl. induction l as [|y l IH]; [done|].
  rewrite filter_cons. case_decide as Hky.
  - exfalso. apply Hx. simpl. rewrite Hk, <- Hky. left.
  - apply IH. intros Hin. apply Hx. simpl. by right.
Qed.

Lemma filter_key_perm_eq k l1 l2 :
  l1 ≡ₚ l2 → NoDup (key <$> l1) →
  filter (λ a, key a = k) l1 = filter (λ a, key a = k) l2.
Proof.
  intros Hp Hnd.
  pose proof (filter_key_length_le_1 k l1 Hnd) as Hlen.
  assert (filter (λ a, key a = k) l1 ≡ₚ filter (λ a, key a = k) l2) as Hpf
    by (by rewrite Hp).
  destruct (filter (λ a, key a = k) l1) as [|a [|b l]]; simpl in Hlen; [| |lia].
  - by apply Permutation_nil_l in Hpf.
  - by apply Permutation_singleton_l in Hpf.
Qed.

(** The order in which elements with pairwise distinct keys are appended
    does not show after the sort. *)
Lemma sort_by_key_app_perm l d1 d2 :
  d1 ≡ₚ d2 → NoDup (key <$> d1) →
  sort_by_key key (l ++ d1) = sort_by_key key (l ++ d2).
Proof.
  intros Hp Hnd. apply sort_by_key_ext. intros k.
  rewrite !filter_app. f_equal. by apply filter_key_perm_eq.
Qed.
End stable_sort.


Lemma zip_write_ok name data w w' :
  zip_write name data w = Ok w' → written w' = written w ++ [(name, data)].
Proof.
  unfold zip_write. destruct (accepts w) as [[|k]|]; intros; simplify_eq; done.
Qed.

Lemma zip_write_raised name data w w' :
  zip_write name data w = Raised w' → w' = w ∧ accepts w = Some O.
Proof.
  unfold zip_write. destruct (accepts w) as [[|k]|]; intros; simplify_eq; done.
Qed.

Lemma zip_write_unlimited name data w :
  accepts w = None →
  zip_write name data w = Ok (ZipWriter (written w ++ [(name, data)]) None).
Proof. unfold zip_write. by intros ->. Qed.

Lemma write_images_ok folder l images w w' :
  write_images folder l images w = Ok w' →
  written w' = written w ++ omap (page_entry_of folder l) images.
Proof.
  revert w. induction images as [|n images IH]; intros w; simpl.
  - intros; simplify_eq. by rewrite app_nil_r.
  - unfold page_entry_of at 1.
    destruct (l !! n) as [[content|]|] eqn:Hn; [|by apply IH..].
    destruct (zip_write _ content w) as [w1|w1] eqn:Hw; [|done].
    intros Hr. apply IH in Hr. rewrite Hr.
    apply zip_write_ok in Hw. rewrite Hw. by rewrite <- app_assoc.
Qed.

Lemma write_images_prefix folder l images w w' :
  write_images folder l images w = Raised w' →
  ∃ done_, written w' = written w ++ done_ ∧ accepts w' = Some O.
Proof.
  revert w. induction images as [|n images IH]; intros w; simpl; [done|].
  destruct (l !! n) as [[content|]|] eqn:Hn; [|by apply IH..].
  destruct (zip_write _ content w) as [w1|w1] eqn:Hw.
  - intros Hr. apply IH in Hr as (dn & Hr & Ha). apply zip_write_ok in Hw.
    eexists. split; [|done]. rewrite Hr, Hw, <- app_assoc. done.
  - intros; simplify_eq. apply zip_write_raised in Hw as [-> Ha].
    exists []. by rewrite app_nil_r.
Qed.

Lemma folder_pages_listing fs folder l :
  folder_listing fs folder = Some l →
  folder_pages fs folder = omap (page_entry_of folder l) (sorted_names (listdir l)).
Proof. unfold folder_pages. by intros ->. Qed.

Lemma write_folders_ok fs folders w w' :
  write_folders fs folders w = Ok w' →
  Forall (λ f, isdir fs f = true) folders ∧
  written w' = written w ++ mjoin (folder_pages fs <$> folders).
Proof.
  revert w. induction folders as [|f folders IH]; intros w; simpl.
  - intros; simplify_eq. by rewrite app_nil_r.
  - destruct (folder_listing fs f) as [l|] eqn:Hl; [|done].
    destruct (write_images f l _ w) as [w1|w1] eqn:Hw; [|done].
    intros Hr. apply IH in Hr as [Hd Hr]. split.
    + constructor; [|done]. unfold isdir. by rewrite Hl.
    + apply write_images_ok in Hw. rewrite Hr, Hw, <- app_assoc.
      by rewrite (folder_pages_listing _ _ _ Hl).
Qed.

Lemma write_folders_unlimited fs folders w :
  accepts w = None →
  Forall (λ f, isdir fs f = true) folders →
  write_folders fs folders w
  = Ok (ZipWriter (written w ++ mjoin (folder_pages fs <$> folders)) None).
Proof.
  intros Hw Hd. revert w Hw. induction Hd as [|f folders Hf Hd IH]; intros w Hw; simpl.
  - rewrite app_nil_r. destruct w; simpl in *; by subst.
  - unfold isdir in Hf. destruct (folder_listing fs f) as [l|] eqn:Hl; [|done].
    rewrite (folder_pages_listing _ _ _ Hl).
    assert (∀ images w, accepts w = None →
       write_images f l images w
       = Ok (ZipWriter (written w ++ omap (page_entry_of f l) images) None)) as Himg.
    { clear. induction images as [|n images IH]; intros w Hw; simpl.
      - rewrite app_nil_r. destruct w; simpl in *; by subst.
      - unfold page_entry_of at 1.
        destruct (l !! n) as [[content|]|]; [|by apply IH..].
        rewrite zip_write_unlimited by done. rewrite IH by done. simpl.
        by rewrite <- app_assoc. }
    rewrite Himg by done. rewrite IH by done. simpl. by rewrite <- app_assoc.
Qed.

Lemma write_cbz_ok fs comic_info_content folders left w :
  write_cbz fs comic_info_content folders (ZipWriter [] left) = Ok w →
  Forall (λ f, isdir fs f = true) folders ∧
  written w = ("ComicInfo.xml", comic_info_content) :: mjoin (folder_pages fs <$> folders).
Proof.
  unfold write_cbz.
  destruct (zip_write _ _ _) as [w1|w1] eqn:Hw1; [|done].
  intros Hw2. apply write_folders_ok in Hw2 as [Hd Hw2]. apply zip_write_ok in Hw1.
  split; [done|]. rewrite Hw2, Hw1. done.
Qed.

(** What a successful [create_cbz_archive] leaves behind. *)
Lemma create_cbz_archive_true manga_title chapter_folders output_filename d d' :
  create_cbz_archive manga_title chapter_folders output_filename d = (true, d') →
  let order := chapter_order chapter_folders in
  let scan := scan_folders (files d) order in
  scan.2 ≠ 0 ∧
  Forall (λ f, isdir (files d) f = true) order ∧
  files d' = <[cbz_file_name manga_title output_filename :=
                 Archive (("ComicInfo.xml", generate_comic_info_xml manga_title scan.1 scan.2)
                          :: mjoin (folder_pages (files d) <$> order))]> (files d).
Proof.
  unfold create_cbz_archive, chapter_order. fold (cbz_file_name manga_title output_filename).
  destruct (scan_folders _ _) as [bookmarks total] eqn:Hscan. simpl.
  destruct (Z.eqb_spec total 0) as [->|Hne]; [intros; simplify_eq|].
  destruct (write_cbz _ _ _ _) as [w|w] eqn:Hw;
    [apply write_cbz_ok in Hw as [Hd Hw]|];
    destruct (files d !! cbz_file_name manga_title output_filename) as [[]|];
    intros H; simplify_eq; simpl; rewrite ?Hw; done.
Qed.


Lemma append_assoc (a b c : string) : (a +:+ b) +:+ c = a +:+ (b +:+ c).
Proof. induction a as [|x a IH]; simpl; [done|]. f_equal. exact IH. Qed.

Lemma append_nil_r (a : string) : a +:+ "" = a.
Proof. induction a as [|x a IH]; simpl; [done|]. f_equal. exact IH. Qed.

Lemma foldl_append {A} (f : A → string) (l : list A) (init : string) :
  foldl (λ acc i, acc +:+ f i) init l = init +:+ concat_strings (f <$> l).
Proof.
  revert init. induction l as [|x l IH]; intros init; simpl.
  - by rewrite append_nil_r.
  - by rewrite IH, append_assoc.
Qed.

Lemma bookmark_dict_lookup bookmarks i :
  bookmark_dict bookmarks !! i = last_bookmark i bookmarks.
Proof.
  unfold bookmark_dict, last_bookmark.
  induction bookmarks as [|b bookmarks IH] using rev_ind; [done|].
  rewrite foldl_app, filter_app. simpl. rewrite filter_cons, filter_nil.
  case_decide as Hb.
  - rewrite last_snoc. simpl. subst i. by rewrite lookup_insert_eq.
  - rewrite app_nil_r. by rewrite lookup_insert_ne.
Qed.

Lemma range_length n : length (range n) = Z.to_nat n.
Proof. unfold range. by rewrite length_fmap, length_seq. Qed.

Lemma range_lookup n (i : nat) :
  (i < Z.to_nat n)%nat → range n !! i = Some (Z.of_nat i).
Proof.
  intros Hi. unfold range. rewrite list_lookup_fmap, lookup_seq_lt by done. done.
Qed.

(** The document is the prologue, one entry per index and the epilogue. *)
Lemma generate_comic_info_xml_unfold manga_title bookmarks total_page_count :
  generate_comic_info_xml manga_title bookmarks total_page_count
  = xml_prologue (escape_text manga_title) total_page_count
    +:+ concat_strings (page_entry (bookmark_dict bookmarks) (first_bookmark bookmarks)
                          <$> range total_page_count)
    +:+ xml_epilogue.
Proof.
  unfold generate_comic_info_xml. by rewrite foldl_append, append_assoc.
Qed.

Lemma replace_app c r a b :
  Str.replace c r (a +:+ b) = Str.replace c r a +:+ Str.replace c r b.
Proof.
  induction a as [|x a IH]; simpl; [done|].
  destruct (Ascii.eqb x c); simpl; rewrite IH; [|done]. by rewrite append_assoc.
Qed.

Lemma escape_text_cons c s :
  escape_text (String c s) = escape_char false c +:+ escape_text s.
Proof.
  unfold escape_text, escape_char. simpl.
  destruct (Ascii.eqb_spec c "&"%char) as [->|Hamp]; [done|].
  simpl.
  destruct (Ascii.eqb_spec c "<"%char) as [->|Hlt]; [done|].
  simpl.
  destruct (Ascii.eqb_spec c ">"%char) as [->|Hgt]; done.
Qed.

Lemma escape_attribute_cons c s :
  escape_attribute (String c s) = escape_char true c +:+ escape_attribute s.
Proof.
  unfold escape_attribute. rewrite escape_text_cons, replace_app.
  f_equal. unfold escape_char. simpl.
  destruct (Ascii.eqb_spec c "&"%char) as [->|Hamp]; [done|].
  destruct (Ascii.eqb_spec c "<"%char) as [->|Hlt]; [done|].
  destruct (Ascii.eqb_spec c ">"%char) as [->|Hgt]; [done|].
  simpl. destruct (Ascii.eqb c Str.dquote); done.
Qed.

Lemma prefix_nil s : String.prefix "" s = true.
Proof. by destruct s. Qed.

Lemma escape_text_escaped s : xml_escaped false (escape_text s) = true.
Proof.
  induction s as [|c s IH]; [done|].
  rewrite escape_text_cons. unfold escape_char.
  destruct (Ascii.eqb_spec c "&"%char) as [->|Hamp]; [simpl; rewrite prefix_nil; exact IH|].
  destruct (Ascii.eqb_spec c "<"%char) as [->|Hlt]; [simpl; rewrite prefix_nil; exact IH|].
  destruct (Ascii.eqb_spec c ">"%char) as [->|Hgt]; [simpl; rewrite prefix_nil; exact IH|].
  simpl.
  destruct (Ascii.eqb_spec c "&"%char); [done|].
  destruct (Ascii.eqb_spec c "<"%char); [done|].
  destruct (Ascii.eqb_spec c ">"%char); [done|].
  rewrite IH. by destruct (Ascii.eqb c Str.dquote).
Qed.

Lemma escape_attribute_escaped s : xml_escaped true (escape_attribute s) = true.
Proof.
  induction s as [|c s IH]; [done|].
  rewrite escape_attribute_cons. unfold escape_char.
  destruct (Ascii.eqb_spec c "&"%char) as [->|Hamp]; [simpl; rewrite prefix_nil; exact IH|].
  destruct (Ascii.eqb_spec c "<"%char) as [->|Hlt]; [simpl; rewrite prefix_nil; exact IH|].
  destruct (Ascii.eqb_spec c ">"%char) as [->|Hgt]; [simpl; rewrite prefix_nil; exact IH|].
  simpl.
  destruct (Ascii.eqb_spec c Str.dquote) as [->|Hdq]; [simpl; rewrite prefix_nil; exact IH|].
  simpl.
  destruct (Ascii.eqb_spec c "&"%char); [done|].
  destruct (Ascii.eqb_spec c "<"%char); [done|].
  destruct (Ascii.eqb_spec c ">"%char); [done|].
  destruct (Ascii.eqb_spec c Str.dquote); [done|].
  by rewrite IH.
Qed.

Lemma unescape_escape_char in_attribute c s :
  unescape (escape_char in_attribute c +:+ s) = String c (unescape s).
Proof.
  unfold escape_char, unescape.
  destruct (Ascii.eqb_spec c "&"%char) as [->|Hamp]; [simpl; by rewrite prefix_nil|].
  destruct (Ascii.eqb_spec c "<"%char) as [->|Hlt]; [simpl; by rewrite prefix_nil|].
  destruct (Ascii.eqb_spec c ">"%char) as [->|Hgt]; [simpl; by rewrite prefix_nil|].
  destruct in_attribute; simpl.
  - destruct (Ascii.eqb_spec c Str.dquote) as [->|Hdq]; [simpl; by rewrite prefix_nil|].
    simpl. by destruct (Ascii.eqb_spec c "&"%char).
  - by destruct (Ascii.eqb_spec c "&"%char).
Qed.

Lemma unescape_escape_text s : unescape (escape_text s) = s.
Proof.
  induction s as [|c s IH]; [done|].
  by rewrite escape_text_cons, unescape_escape_char, IH.
Qed.

Lemma unescape_escape_attribute s : unescape (escape_attribute s) = s.
Proof.
  induction s as [|c s IH]; [done|].
  by rewrite escape_attribute_cons, unescape_escape_char, IH.
Qed.


(** *** Listings *)

Lemma elem_of_listdir (l : gmap string dirent) name :
  name ∈ listdir l ↔ is_Some (l !! name).
Proof.
  unfold listdir. rewrite list_elem_of_fmap. split.
  - intros [[n v] [-> Hin]]. apply elem_of_map_to_list in Hin. by exists v.
  - intros [v Hv]. exists (name, v). split; [done|]. by apply elem_of_map_to_list.
Qed.

Lemma elem_of_sorted_names l name : name ∈ sorted_names l ↔ name ∈ l.
Proof. unfold sorted_names. by rewrite py_sorted_perm. Qed.

Lemma list_filter_none {A} (p : A → bool) l :
  (∀ x, x ∈ l → p x = false) → List.filter p l = [].
Proof.
  induction l as [|x l IH]; intros Hp; simpl; [done|].
  rewrite (Hp x) by left. apply IH. intros y Hy. apply Hp. by right.
Qed.

Lemma num_images_none (l : gmap string dirent) :
  (∀ name, isfile_in l name = false) → num_images l = 0.
Proof.
  intros Hl. unfold num_images. rewrite list_filter_none; [done|]. auto.
Qed.

Lemma scan_folders_no_pages fs folders acc :
  (∀ folder l, folder ∈ folders → folder_listing fs folder = Some l → num_images l = 0) →
  (foldl (scan_folder fs) acc folders).2 = acc.2.
Proof.
  revert acc. induction folders as [|f folders IH]; intros acc Hf; simpl; [done|].
  rewrite IH.
  - unfold scan_folder. destruct (folder_listing fs f) as [l|] eqn:Hl; [|done].
    destruct acc as [bms idx]. simpl. rewrite (Hf f l); [lia|left|done].
  - intros folder l Hin. apply Hf. by right.
Qed.

(** *** The chapters that are fetched *)

Lemma slug_to_url_slug urls slug url :
  slug_to_url urls !! slug = Some url → url_slug url = slug.
Proof.
  unfold slug_to_url. revert slug url.
  induction urls as [|u urls IH] using rev_ind; intros slug url; [done|].
  rewrite foldl_app. simpl. destruct (decide (url_slug u = slug)) as [<-|Hne].
  - rewrite lookup_insert_eq. by intros [= ->].
  - rewrite lookup_insert_ne by done. apply IH.
Qed.

Lemma urls_to_download_slug zf online_urls exclude url :
  url ∈ urls_to_download zf online_urls exclude →
  url_slug url ∉ infer_chapter_slugs_from_zip zf.
Proof.
  unfold urls_to_download. rewrite list_elem_of_fmap. intros (slug & -> & Hin).
  apply elem_of_sorted_names, elem_of_elements, elem_of_difference in Hin as [Hdom Hloc].
  apply elem_of_dom in Hdom as [u Hu].
  rewrite (lookup_total_correct _ _ _ Hu).
  by rewrite (slug_to_url_slug _ _ _ Hu).
Qed.

(** *** What [download_chapter_images] returns *)

Lemma download_chapter_images_returns session chapter_url base max_workers fs :
  (download_chapter_images session chapter_url base max_workers fs).1
  = match makedirs base (url_slug chapter_url) fs with
    | None => DownloadRaises
    | Some fs' =>
        match chapter_page session chapter_url with
        | ListEscaped => DownloadRaises
        | ListFailed | Listed [] => Returns None
        | Listed (tag :: tags) =>
            if existsb (λ src, negb (String.eqb src "")
                               && urljoin_raises session chapter_url src) (tag :: tags)
            then DownloadRaises
            else if max_workers <=? 0 then DownloadRaises
            else if (run_page_tasks session chapter_url (page_tasks (tag :: tags))
                       (default ∅ (folder_listing fs' (Path.join base (url_slug chapter_url))))).1
            then DownloadRaises
            else Returns (Some (Path.join base (url_slug chapter_url)))
        end
    end.
Proof.
  unfold download_chapter_images.
  destruct (makedirs _ _ _); [|done].
  destruct (chapter_page _ _) as [[|tag tags]| |]; [done| |done..].
  destruct (existsb _ _); [done|]. destruct (max_workers <=? 0); [done|].
  by destruct (run_page_tasks _ _ _ _) as [[] ?].
Qed.

Lemma download_chapter_images_path session chapter_url base max_workers fs p :
  (download_chapter_images session chapter_url base max_workers fs).1 = Returns (Some p) →
  p = Path.join base (url_slug chapter_url).
Proof.
  rewrite download_chapter_images_returns.
  destruct (makedirs _ _ _); [|done].
  destruct (chapter_page session chapter_url) as [[|tag tags]| |]; [done| |done..].
  destruct (existsb _ _); [done|]. destruct (max_workers <=? 0); [done|].
  destruct (run_page_tasks _ _ _ _).1; congruence.
Qed.

(** *** Every page of every folder is in the container *)

Lemma folder_pages_elem fs folder l name content :
  folder_listing fs folder = Some l →
  l !! name = Some (Page content) →
  (Path.basename folder +:+ "/" +:+ name, content) ∈ folder_pages fs folder.
Proof.
  intros Hl Hn. rewrite (folder_pages_listing _ _ _ Hl).
  apply list_elem_of_omap. exists name. split.
  - apply elem_of_sorted_names, elem_of_listdir. by eexists.
  - unfold page_entry_of. by rewrite Hn.
Qed.

Lemma chapter_order_perm folders : chapter_order folders ≡ₚ folders.
Proof. apply py_sorted_perm. Qed.


(** *** Reading back what [f"{n:03d}"] prints *)

Lemma digit_value_pretty_N_char (x : N) :
  (x < 10)%N → Str.digit_value (pretty_N_char x) = Z.of_N x.
Proof.
  intros Hx.
  assert (x = 0 ∨ x = 1 ∨ x = 2 ∨ x = 3 ∨ x = 4 ∨ x = 5 ∨ x = 6 ∨ x = 7 ∨ x = 8 ∨ x = 9)%N
    as Hc by lia.
  repeat (destruct Hc as [->|Hc]; [done|]). by subst.
Qed.

Lemma int_go_pretty_N_go (x : N) s :
  Str.int_go 0 (pretty_N_go x s) = Str.int_go (Z.of_N x) s.
Proof.
  revert s. induction (N.lt_wf_0 x) as [x _ IH]; intros s.
  destruct (decide (x = 0%N)) as [->|Hx]; [done|].
  rewrite pretty_N_go_step by lia.
  rewrite IH by (apply N.div_lt; lia). simpl.
  rewrite digit_value_pretty_N_char by (apply N.mod_lt; lia).
  f_equal. pose proof (N.div_mod x 10). lia.
Qed.

Lemma int_pretty_N (x : N) : Str.int (pretty x) = Z.of_N x.
Proof.
  unfold Str.int, pretty, pretty_N. case_decide as Hx; [by subst|].
  by rewrite int_go_pretty_N_go.
Qed.

Lemma int_go_zeros k s : Str.int_go 0 (Str.zeros k +:+ s) = Str.int_go 0 s.
Proof. induction k as [|k IH]; simpl; [done|]. exact IH. Qed.

Lemma int_of_int_03d n : 0 ≤ n → Str.int (Str.of_int_03d n) = n.
Proof.
  intros Hn. unfold Str.of_int_03d.
  destruct (Z.ltb_spec n 0) as [?|_]; [lia|]. simpl.
  unfold Str.int. rewrite int_go_zeros. fold (Str.int (pretty (Z.abs_N n))).
  rewrite int_pretty_N. lia.
Qed.

Lemma append_cancel_r (a b c : string) : a +:+ c = b +:+ c → a = b.
Proof.
  assert (∀ a c, String.length (a +:+ c) = (String.length a + String.length c)%nat) as Hlen.
  { clear. induction a as [|x a IH]; intros c; simpl; [done|]. by rewrite IH. }
  revert b. induction a as [|x a IH]; intros [|y b] Heq; simpl in *.
  - done.
  - apply (f_equal String.length) in Heq. simpl in Heq. rewrite Hlen in Heq. lia.
  - apply (f_equal String.length) in Heq. simpl in Heq. rewrite Hlen in Heq. lia.
  - injection Heq as -> Heq. f_equal. by apply IH.
Qed.

#[local] Instance page_file_name_inj : Inj (=) (=) page_file_name.
Proof.
  intros i j Heq. unfold page_file_name in Heq. simpl in Heq.
  injection Heq as Heq. apply append_cancel_r in Heq.
  apply (f_equal Str.int) in Heq. rewrite !int_of_int_03d in Heq by lia. lia.
Qed.

(** *** The chapter folder after the download *)

Lemma page_tasks_from image_tags : page_tasks image_tags = tasks_from 0 image_tags.
Proof. done. Qed.

Lemma tasks_from_cons k src image_tags :
  tasks_from k (src :: image_tags)
  = (if String.eqb src "" then [] else [(src, page_file_name k)])
    ++ tasks_from (S k) image_tags.
Proof.
  unfold tasks_from. rewrite imap_cons. simpl. rewrite Nat.add_0_r.
  assert (imap ((λ i s, ((k + i)%nat, s)) ∘ S) image_tags
          = imap (λ i s, ((S k + i)%nat, s)) image_tags) as ->.
  { apply imap_ext. intros i x _. simpl. f_equal. lia. }
  by destruct (String.eqb src "").
Qed.

Lemma elem_of_tasks_from k image_tags src name :
  (src, name) ∈ tasks_from k image_tags ↔
  ∃ i, image_tags !! i = Some src ∧ src ≠ "" ∧ name = page_file_name (k + i).
Proof.
  revert k. induction image_tags as [|s tags IH]; intros k.
  - unfold tasks_from. simpl. split; [by intros ?%elem_of_nil|by intros (i & ? & _)].
  - rewrite tasks_from_cons, elem_of_app, IH. split.
    + intros [Hh|(i & Hi & Hne & ->)].
      * destruct (String.eqb_spec s ""); [by apply elem_of_nil in Hh|].
        apply list_elem_of_singleton in Hh. simplify_eq.
        exists O. by rewrite Nat.add_0_r.
      * exists (S i). split_and!; [done..|f_equal; lia].
    + intros ([|i] & Hi & Hne & ->); simpl in Hi.
      * left. simplify_eq. destruct (String.eqb_spec src ""); [done|].
        rewrite Nat.add_0_r. apply list_elem_of_singleton. done.
      * right. exists i. split_and!; [done..|f_equal; lia].
Qed.

Lemma tasks_from_names_sublist k image_tags :
  (tasks_from k image_tags).*2 `sublist_of` page_file_name <$> seq k (length image_tags).
Proof.
  revert k. induction image_tags as [|s tags IH]; intros k; simpl.
  - constructor.
  - rewrite tasks_from_cons, fmap_app.
    destruct (String.eqb s ""); simpl.
    + apply sublist_cons, IH.
    + apply sublist_skip, IH.
Qed.

Lemma page_tasks_names_NoDup image_tags : NoDup (page_tasks image_tags).*2.
Proof.
  eapply sublist_NoDup; [|apply (tasks_from_names_sublist 0)].
  apply (NoDup_fmap_2 _), NoDup_seq.
Qed.

Lemma download_image_lookup session chapter_url src file_name l name :
  (download_image session chapter_url src file_name l).2 !! name
  = match l !! name with
    | Some v => Some v
    | None => if decide (file_name = name)
              then Page <$> fetch_file (get_image session chapter_url src) else None
    end.
Proof.
  unfold download_image.
  destruct (decide (file_name = name)) as [->|Hne].
  - destruct (l !! name) as [v|] eqn:Hl; simpl; [done|].
    destruct (get_image _ _ _) as [data| |[partial|]]; simpl;
      by rewrite ?lookup_insert_eq.
  - destruct (l !! file_name) eqn:Hf; simpl; [by destruct (l !! name)|].
    destruct (get_image _ _ _) as [data| |[partial|]]; simpl;
      rewrite ?lookup_insert_ne by done; by destruct (l !! name).
Qed.

Lemma download_images_lookup session chapter_url tasks l name v :
  NoDup tasks.*2 →
  foldl (λ l task, (download_image session chapter_url task.1 task.2 l).2) l tasks
    !! name = Some v ↔
  l !! name = Some v ∨
  (l !! name = None ∧
   ∃ src data, (src, name) ∈ tasks
               ∧ fetch_file (get_image session chapter_url src) = Some data
               ∧ v = Page data).
Proof.
  revert l. induction tasks as [|[src fname] tasks IH]; intros l Hnd; simpl.
  - split; [by left|]. intros [?|(_ & ? & ? & ?%elem_of_nil & _)]; done.
  - simpl in Hnd. apply NoDup_cons in Hnd as [Hfresh Hnd].
    rewrite IH by done. rewrite !download_image_lookup.
    destruct (l !! name) as [v0|] eqn:Hl.
    { split; [intros [?|[? _]]; [by left|done]|intros [?|[? _]]; [by left|done]]. }
    destruct (decide (fname = name)) as [->|Hne].
    + destruct (fetch_file (get_image session chapter_url src)) as [data|] eqn:Hg; simpl.
      * split.
        -- intros [?|[? _]]; [|done]. right. split; [done|].
           exists src, data. split_and!; [left|done|congruence].
        -- intros [?|(_ & src' & data' & Hin & Hg' & ->)]; [done|]. left.
           apply elem_of_cons in Hin as [?|Hin]; [by simplify_eq|].
           exfalso. apply Hfresh, list_elem_of_fmap. by exists (src', name).
      * split.
        -- intros [?|(_ & src' & data' & Hin & _)]; [done|].
           exfalso. apply Hfresh, list_elem_of_fmap. by exists (src', name).
        -- intros [?|(_ & src' & data' & Hin & Hg' & ->)]; [done|].
           apply elem_of_cons in Hin as [?|Hin]; [by simplify_eq|].
           exfalso. apply Hfresh, list_elem_of_fmap. by exists (src', name).
    + split.
      * intros [?|(_ & src' & data' & Hin & Hg' & ->)]; [done|]. right. split; [done|].
        exists src', data'. split_and!; [by right|done..].
      * intros [?|(_ & src' & data' & Hin & Hg' & ->)]; [done|]. right. split; [done|].
        exists src', data'. split_and!; [|done..].
        apply elem_of_cons in Hin as [?|Hin]; [by simplify_eq|done].
Qed.

Lemma run_page_tasks_listing session chapter_url tasks l :
  (run_page_tasks session chapter_url tasks l).2
  = foldl (λ l task, (download_image session chapter_url task.1 task.2 l).2) l tasks.
Proof.
  unfold run_page_tasks. generalize false. revert l.
  induction tasks as [|task tasks IH]; intros l raised; simpl; [done|]. apply IH.
Qed.

Lemma download_image_raises session chapter_url src file_name l :
  (download_image session chapter_url src file_name l).1 = None
  ↔ l !! file_name = None ∧ ∃ partial, get_image session chapter_url src = Escaped partial.
Proof.
  unfold download_image. destruct (l !! file_name); simpl.
  - split; [done|]. by intros [? _].
  - destruct (get_image _ _ _) as [data| |[partial|]]; simpl; split;
      try done; try (by intros [_ [? ?]]); intros _; (split; [done|]); by eexists.
Qed.

(** An exception leaves the pool exactly when it leaves the fetch of an
    image whose file was not there. *)
Lemma run_page_tasks_raised session chapter_url tasks l :
  NoDup tasks.*2 →
  (run_page_tasks session chapter_url tasks l).1 = true
  ↔ ∃ src name partial,
      (src, name) ∈ tasks ∧ l !! name = None
      ∧ get_image session chapter_url src = Escaped partial.
Proof.
  unfold run_page_tasks.
  assert (∀ raised,
    NoDup tasks.*2 →
    (foldl (λ acc task,
              let r := download_image session chapter_url task.1 task.2 acc.2 in
              (acc.1 || bool_decide (r.1 = None), r.2)) (raised, l) tasks).1 = true
    ↔ raised = true
      ∨ ∃ src name partial,
          (src, name) ∈ tasks ∧ l !! name = None
          ∧ get_image session chapter_url src = Escaped partial) as Hgo.
  { revert l. induction tasks as [|[src fname] tasks IH]; intros l raised Hnd; simpl.
    - split; [by left|]. intros [?|(? & ? & ? & ?%elem_of_nil & _)]; done.
    - simpl in Hnd. apply NoDup_cons in Hnd as [Hfresh Hnd].
      rewrite IH by done. rewrite orb_true_iff, bool_decide_eq_true, download_image_raises.
      split.
      + intros [[?|(Hl & partial & Hg)]|(src' & name & partial & Hin & Hl & Hg)].
        * by left.
        * right. exists src, fname, partial. split_and!; [left|done..].
        * right. exists src', name, partial. split_and!; [by right| |done].
          rewrite download_image_lookup in Hl. by destruct (l !! name).
      + intros [?|(src' & name & partial & Hin & Hl & Hg)]; [left; by left|].
        apply elem_of_cons in Hin as [Heq|Hin].
        * simplify_eq. left. right. split; [done|]. by exists partial.
        * right. exists src', name, partial. split_and!; [done| |done].
          rewrite download_image_lookup, Hl.
          destruct (decide (fname = name)) as [->|]; [|done].
          exfalso. apply Hfresh, list_elem_of_fmap. by exists (src', name). }
  intros Hnd. rewrite Hgo by done. split; [by intros [?|?]|by right].
Qed.



(** *** Path names *)

Lemma rsplit1_None sep s : Str.rsplit1 sep s = None ↔ Str.contains sep s = false.
Proof.
  induction s as [|c s IH]; simpl; [done|].
  destruct (Str.rsplit1 sep s) as [[h t]|].
  - split; [done|]. intros [_ Hc]%orb_false_iff. by apply IH in Hc.
  - destruct IH as [IH _]. rewrite IH by done.
    destruct (Ascii.eqb c sep); simpl; split; done.
Qed.

Lemma rsplit1_app_sep sep h t :
  Str.contains sep t = false →
  Str.rsplit1 sep (h +:+ String sep t) = Some (h, t).
Proof.
  intros Ht. induction h as [|c h IH]; simpl.
  - apply rsplit1_None in Ht. rewrite Ht. by rewrite Ascii.eqb_refl.
  - by rewrite IH.
Qed.

Lemma rsplit1_tail_no_sep sep s h t :
  Str.rsplit1 sep s = Some (h, t) → Str.contains sep t = false.
Proof.
  revert h t. induction s as [|c s IH]; intros h t; simpl; [done|].
  destruct (Str.rsplit1 sep s) as [[h' t']|] eqn:Hs.
  - intros [= <- <-]. by eapply IH.
  - destruct (Ascii.eqb c sep); [|done]. intros [= <- <-].
    by apply rsplit1_None.
Qed.

Lemma last_segment_no_sep sep s : Str.contains sep (Str.last_segment sep s) = false.
Proof.
  unfold Str.last_segment. destruct (Str.rsplit1 sep s) as [[h t]|] eqn:Hs.
  - by eapply rsplit1_tail_no_sep.
  - by apply rsplit1_None.
Qed.

Lemma last_segment_id sep s : Str.contains sep s = false → Str.last_segment sep s = s.
Proof. intros Hs. unfold Str.last_segment. apply rsplit1_None in Hs. by rewrite Hs. Qed.

Lemma last_segment_app_sep sep h t :
  Str.contains sep t = false → Str.last_segment sep (h +:+ String sep t) = t.
Proof. intros Ht. unfold Str.last_segment. by rewrite rsplit1_app_sep. Qed.

Lemma endswith_cons suf c s :
  Str.endswith suf (String c s) = String.eqb (String c s) suf || Str.endswith suf s.
Proof. done. Qed.

Lemma endswith_sep_inv s : Str.endswith "/" s = true → ∃ h, s = h +:+ "/".
Proof.
  induction s as [|c s IH]; [done|]. rewrite endswith_cons.
  intros [Heq|Hs]%orb_true_iff.
  - apply String.eqb_eq in Heq. exists "". by rewrite Heq.
  - destruct (IH Hs) as [h ->]. by exists (String c h).
Qed.

Lemma url_slug_no_sep url : Str.contains "/"%char (url_slug url) = false.
Proof. apply last_segment_no_sep. Qed.

Lemma startswith_sep_contains name :
  Str.startswith "/" name = true → Str.contains "/"%char name = true.
Proof.
  destruct name as [|c name]; [done|]. unfold Str.startswith. cbn [String.prefix].
  destruct (ascii_dec "/" c) as [<-|]; done.
Qed.

Lemma basename_join base name :
  Str.contains "/"%char name = false → Path.basename (Path.join base name) = name.
Proof.
  intros Hn. unfold Path.join, Path.basename, Path.sep.
  destruct (Str.startswith "/" name) eqn:Hs.
  { apply startswith_sep_contains in Hs. congruence. }
  destruct (String.eqb_spec base "") as [->|_].
  { rewrite orb_true_l. by apply last_segment_id. }
  rewrite orb_false_l. destruct (Str.endswith "/" base) eqn:He.
  - apply endswith_sep_inv in He as [h ->].
    rewrite append_assoc. change ("/" +:+ name) with (String "/"%char name).
    by apply last_segment_app_sep.
  - change (base +:+ "/" +:+ name) with (base +:+ String "/"%char name).
    by apply last_segment_app_sep.
Qed.

Lemma chapter_sort_key_join base name :
  Str.contains "/"%char name = false →
  chapter_sort_key (Path.join base name) = chapter_sort_key name.
Proof.
  intros Hn. unfold chapter_sort_key.
  rewrite basename_join by done.
  assert (Path.basename name = name) as -> by (by apply last_segment_id).
  destruct (String.eqb_spec (Path.join base name) "") as [Hj|Hj].
  - assert (name = "") as ->.
    { rewrite <- (basename_join base name Hn), Hj. done. }
    done.
  - destruct (String.eqb_spec name "") as [->|_]; done.
Qed.

(** *** The chapter folder of a new chapter *)




(** *** The page entries of a container that was built *)

Lemma contains_app_sep a c : Str.contains "/"%char (a +:+ String "/"%char c) = true.
Proof.
  induction a as [|x a IH]; simpl; [done|].
  rewrite IH. by destruct (Ascii.eqb x "/").
Qed.

Lemma folder_pages_names fs folder e :
  e ∈ folder_pages fs folder → String.eqb e.1 "ComicInfo.xml" = false.
Proof.
  unfold folder_pages. destruct (folder_listing fs folder) as [l|]; [|by intros ?%elem_of_nil].
  intros (name & _ & He)%list_elem_of_omap.
  destruct (l !! name) as [[content|]|]; simplify_eq. cbn [fst].
  destruct (String.eqb_spec (Path.basename folder +:+ "/" +:+ name) "ComicInfo.xml")
    as [Heq|]; [|done].
  pose proof (contains_app_sep (Path.basename folder) name) as Hc.
  change (String "/"%char name) with ("/" +:+ name) in Hc. by rewrite Heq in Hc.
Qed.

Lemma list_filter_all {A} (p : A → bool) l :
  (∀ x, x ∈ l → p x = true) → List.filter p l = l.
Proof.
  induction l as [|x l IH]; intros Hp; simpl; [done|].
  rewrite (Hp x) by left. f_equal. apply IH. intros y Hy. apply Hp. by right.
Qed.

Lemma archive_pages_created manga_title chapter_folders output_filename d d' :
  create_cbz_archive manga_title chapter_folders output_filename d = (true, d') →
  archive_pages d' (cbz_file_name manga_title output_filename)
  = mjoin (folder_pages (files d) <$> chapter_order chapter_folders).
Proof.
  intros Hcreate. apply create_cbz_archive_true in Hcreate as (_ & _ & Hfiles).
  unfold archive_pages. rewrite Hfiles, lookup_insert_eq. simpl.
  apply list_filter_all. intros e (pages & He & Hin)%list_elem_of_join.
  apply list_elem_of_fmap in Hin as (folder & -> & _).
  by rewrite (folder_pages_names _ _ _ He).
Qed.

(** *** Collection of the downloaded chapters *)

Lemma run_downloads_snoc session urls url temp_dir fs :
  run_downloads session (urls ++ [url]) temp_dir fs
  = let acc := run_downloads session urls temp_dir fs in
    let r := download_chapter_images session url temp_dir (workers session) acc.2 in
    (<[url := r.1]> acc.1, r.2).
Proof. unfold run_downloads. by rewrite foldl_app. Qed.

Lemma run_downloads_path session urls temp_dir fs url p :
  (run_downloads session urls temp_dir fs).1 !! url = Some (Returns (Some p)) →
  p = Path.join temp_dir (url_slug url).
Proof.
  induction urls as [|u urls IH] using rev_ind; [done|].
  rewrite run_downloads_snoc. simpl.
  destruct (decide (u = url)) as [->|Hne].
  - rewrite lookup_insert_eq. intros [= Hret].
    by apply download_chapter_images_path in Hret.
  - by rewrite lookup_insert_ne.
Qed.

Lemma collect_paths_keys session urls temp_dir fs completed :
  chapter_sort_key <$> collect_paths (run_downloads session urls temp_dir fs).1 completed
  `sublist_of` (λ u, chapter_sort_key (url_slug u)) <$> completed.
Proof.
  induction completed as [|u completed IH]; simpl; [constructor|].
  destruct ((run_downloads session urls temp_dir fs).1 !! u) as [[[p|]|]|] eqn:Hu;
    try (by apply sublist_cons).
  destruct (String.eqb p ""); [by apply sublist_cons|]. simpl.
  rewrite (run_downloads_path _ _ _ _ _ _ Hu).
  rewrite chapter_sort_key_join by apply url_slug_no_sep.
  by apply sublist_skip.
Qed.

Lemma any_raised_perm results completed completed' :
  completed ≡ₚ completed' → any_raised results completed = any_raised results completed'.
Proof.
  unfold any_raised. induction 1 as [|x l l' _ IH|x y l|l1 l2 l3 _ IH1 _ IH2]; simpl.
  - done.
  - by rewrite IH.
  - by rewrite !orb_assoc, (orb_comm (match results !! y with Some DownloadRaises => true | _ => false end)).
  - by rewrite IH1.
Qed.

Lemma collect_paths_perm results completed completed' :
  completed ≡ₚ completed' → collect_paths results completed ≡ₚ collect_paths results completed'.
Proof. intros Hp. unfold collect_paths. by rewrite Hp. Qed.

(** *** The metadata-only update leaves the archive alone unless it succeeds *)

Lemma append_neq (s t : string) : t ≠ "" → s +:+ t ≠ s.
Proof.
  intros Ht Heq. apply Ht. apply (f_equal String.length) in Heq.
  assert (∀ a c, String.length (a +:+ c) = (String.length a + String.length c)%nat) as Hlen.
  { clear. induction a as [|x a IH]; intros c; simpl; [done|]. by rewrite IH. }
  rewrite Hlen in Heq. destruct t; [done|]. simpl in Heq. lia.
Qed.



(** *** The order of collection and the container *)

Lemma create_cbz_archive_app_perm manga_title existing fetched fetched' output_filename d :
  fetched ≡ₚ fetched' → NoDup (chapter_sort_key <$> fetched) →
  create_cbz_archive manga_title (existing ++ fetched) output_filename d
  = create_cbz_archive manga_title (existing ++ fetched') output_filename d.
Proof.
  intros Hp Hnd. unfold create_cbz_archive.
  by rewrite (sort_by_key_app_perm chapter_sort_key existing fetched fetched').
Qed.

Lemma sorted_names_sorted l : StronglySorted String.le (sorted_names l).
Proof.
  unfold sorted_names. induction l as [|x l IH]; simpl; [constructor|].
  revert IH. generalize (py_sorted String.leb l). clear l.
  intros l Hl. induction Hl as [|y l Hl IH Hy]; simpl.
  - repeat constructor.
  - destruct (String.leb x y) eqn:Hxy.
    + constructor; [by constructor|]. constructor; [by apply Is_true_true|].
      eapply Forall_impl; [exact Hy|]. intros z Hz. simpl in Hz.
      etrans; [|exact Hz]. by apply Is_true_true.
    + constructor; [done|]. rewrite insert_sorted_perm. constructor; [|done].
      destruct (String.leb_total x y) as [H|H]; [congruence|]. by apply Is_true_true.
Qed.


(** *** Two runs of the program *)

(** The metadata-only update takes the chapter keys in code-point order:
    [chapter-10] gets its bookmark before [chapter-2]. *)
Example update_local_cbz_orders_keys_by_code_point :
  archive_pages
    (update_local_cbz "/m/x.cbz" None false
       (Disk (<["/m/x.cbz" := Archive [("chapter-2/1.jpg", "two");
                                        ("chapter-10/1.jpg", "ten")]]> ∅) None)).2
    "/m/x.cbz"
  = [("chapter-10/1.jpg", "ten"); ("chapter-2/1.jpg", "two")]
  ∧ sorted_names ["chapter-2"; "chapter-10"] = ["chapter-10"; "chapter-2"].
Proof. by vm_compute. Qed.

(** The sync downloads into the directory it extracts the archive into, and
    takes every folder of that directory for an existing chapter: a
    downloaded chapter is in the list of folders twice, and so are its
    pages in the container. *)
Example sync_lists_downloaded_chapter_twice :
  archive_pages
    (sync_cbz_with_source site_with_two_chapters "/m/x.cbz" "https://m.example/manga/x/" []
       "/tmp/t" [chapter_1_url; chapter_2_url] (Disk (<["/m/x.cbz" := Archive tagged_archive]> ∅) None)).2
    "/m/x.cbz"
  = [("chapter-1/page_001.jpg", "P1");
     ("chapter-2/page_001.jpg", "image a.jpg of chapter-2");
     ("chapter-2/page_001.jpg", "image a.jpg of chapter-2")].
Proof. by vm_compute. Qed.

(** *** What a chapter download touches *)

Lemma makedirs_frame parent name fs fs' p :
  makedirs parent name fs = Some fs' →
  p ≠ parent → p ≠ Path.join parent name → fs' !! p = fs !! p.
Proof.
  unfold makedirs. intros Hmk Hp Hj.
  destruct (fs !! Path.join parent name) as [[| |l0]|]; [done|done|by simplify_eq|].
  destruct (fs !! parent) as [[| |l]|]; [done|done|
    |injection Hmk as <-; by rewrite lookup_insert_ne].
  destruct (l !! name) as [[|]|]; [done|..]; injection Hmk as <-;
    by rewrite !lookup_insert_ne.
Qed.

Lemma makedirs_isdir parent name fs fs' :
  makedirs parent name fs = Some fs' → isdir fs' (Path.join parent name) = true.
Proof.
  unfold makedirs, isdir, folder_listing. intros Hmk.
  destruct (fs !! Path.join parent name) as [[| |l0]|] eqn:Hj; [done|done|..].
  { injection Hmk as <-. by rewrite Hj. }
  destruct (fs !! parent) as [[| |l]|]; [done|done|
    |injection Hmk as <-; by rewrite lookup_insert_eq].
  destruct (l !! name) as [[|]|]; [done|..]; injection Hmk as <-;
    by rewrite lookup_insert_eq.
Qed.

Lemma makedirs_existing parent name fs l :
  folder_listing fs (Path.join parent name) = Some l → makedirs parent name fs = Some fs.
Proof.
  unfold folder_listing, makedirs.
  destruct (fs !! Path.join parent name) as [[| |l0]|]; done.
Qed.

(** *** The temporary directory of a sync *)

Lemma split_no_sep sep s x : x ∈ split sep s → Str.contains sep x = false.
Proof.
  revert x. induction s as [|c s IH]; intros x; simpl.
  - intros ->%list_elem_of_singleton. done.
  - destruct (Ascii.eqb_spec c sep) as [->|Hne].
    + intros [->|Hx]%elem_of_cons; [done|by apply IH].
    + destruct (split sep s) as [|h t] eqn:Hs.
      * intros ->%list_elem_of_singleton. simpl.
        by destruct (Ascii.eqb_spec c sep).
      * intros [->|Hx]%elem_of_cons.
        -- simpl. destruct (Ascii.eqb_spec c sep); [done|]. apply IH. left.
        -- apply IH. by right.
Qed.

Lemma member_parts_no_sep name x :
  x ∈ member_parts name → Str.contains "/"%char x = false.
Proof.
  unfold member_parts. intros [Hx _]%list_elem_of_In%filter_In.
  by apply (split_no_sep "/"%char name), list_elem_of_In.
Qed.

Lemma same_outside_refl temp_dir fs : same_outside temp_dir fs fs.
Proof. by intros p ??. Qed.

Lemma same_outside_trans temp_dir fs1 fs2 fs3 :
  same_outside temp_dir fs1 fs2 → same_outside temp_dir fs2 fs3 →
  same_outside temp_dir fs1 fs3.
Proof. intros H12 H23 p ??. by rewrite H23, H12. Qed.

Section temp_dir.
Context (temp_dir : string).
Hypothesis temp_dir_nonempty : temp_dir ≠ "".
Hypothesis temp_dir_no_slash : Str.endswith "/" temp_dir = false.

Lemma join_temp_dir c :
  Str.contains "/"%char c = false → Path.join temp_dir c = temp_dir +:+ "/" +:+ c.
Proof.
  intros Hc. unfold Path.join.
  destruct (Str.startswith "/" c) eqn:Hs.
  { apply startswith_sep_contains in Hs. congruence. }
  apply String.eqb_neq in temp_dir_nonempty. by rewrite temp_dir_nonempty, temp_dir_no_slash.
Qed.

Lemma join_temp_dir_ne c :
  Str.contains "/"%char c = false → Path.join temp_dir c ≠ temp_dir.
Proof.
  intros Hc. rewrite join_temp_dir by done. apply append_neq.
  change ("/" +:+ c) with (String "/"%char c). done.
Qed.

Lemma join_temp_dir_inj c1 c2 :
  Str.contains "/"%char c1 = false → Str.contains "/"%char c2 = false →
  Path.join temp_dir c1 = Path.join temp_dir c2 → c1 = c2.
Proof.
  intros H1 H2 Heq. apply (f_equal Path.basename) in Heq.
  by rewrite !basename_join in Heq.
Qed.

Lemma makedirs_temp_tree c fs fs' :
  Str.contains "/"%char c = false →
  temp_tree temp_dir fs → makedirs temp_dir c fs = Some fs' →
  temp_tree temp_dir fs' ∧ same_outside temp_dir fs fs'
  ∧ ∃ l, fs' !! Path.join temp_dir c = Some (Directory l).
Proof.
  intros Hc (l & Hl & Hnames & Hlisted) Hmk.
  split; [|split].
  2: { intros p Hp Hout. eapply makedirs_frame; [done..|]. by apply Hout. }
  2: { apply makedirs_isdir in Hmk. unfold isdir, folder_listing in Hmk.
       destruct (fs' !! Path.join temp_dir c) as [[| |l']|]; try done. by exists l'. }
  unfold makedirs in Hmk. rewrite Hl in Hmk.
  destruct (fs !! Path.join temp_dir c) as [[| |l0]|] eqn:Hj; [done|done|..].
  { injection Hmk as <-. by exists l. }
  destruct (l !! c) as [[|]|] eqn:Hlc; [done|..]; injection Hmk as <-.
  - exists (<[c := Subdir]> l). split_and!.
    + rewrite lookup_insert_ne by (by apply join_temp_dir_ne).
      by rewrite lookup_insert_eq.
    + intros name [v Hv]. destruct (decide (c = name)) as [<-|Hne]; [done|].
      rewrite lookup_insert_ne in Hv by done. by apply Hnames.
    + intros c' Hc' Hsome. destruct (decide (c = c')) as [<-|Hne].
      * by rewrite lookup_insert_eq.
      * rewrite lookup_insert_ne by done. apply Hlisted; [done|].
        rewrite lookup_insert_ne in Hsome
          by (intros Heq; by apply join_temp_dir_inj in Heq).
        by rewrite lookup_insert_ne in Hsome by (by apply not_eq_sym, join_temp_dir_ne).
  - exists (<[c := Subdir]> l). split_and!.
    + rewrite lookup_insert_ne by (by apply join_temp_dir_ne).
      by rewrite lookup_insert_eq.
    + intros name [v Hv]. destruct (decide (c = name)) as [<-|Hne]; [done|].
      rewrite lookup_insert_ne in Hv by done. by apply Hnames.
    + intros c' Hc' Hsome. destruct (decide (c = c')) as [<-|Hne].
      * by rewrite lookup_insert_eq.
      * rewrite lookup_insert_ne by done. apply Hlisted; [done|].
        rewrite lookup_insert_ne in Hsome
          by (intros Heq; by apply join_temp_dir_inj in Heq).
        by rewrite lookup_insert_ne in Hsome by (by apply not_eq_sym, join_temp_dir_ne).
Qed.

(** Replacing the listing of a folder right below the temporary directory. *)
Lemma temp_tree_insert_child c l0 l' fs :
  Str.contains "/"%char c = false →
  temp_tree temp_dir fs → fs !! Path.join temp_dir c = Some (Directory l0) →
  temp_tree temp_dir (<[Path.join temp_dir c := Directory l']> fs)
  ∧ same_outside temp_dir fs (<[Path.join temp_dir c := Directory l']> fs).
Proof.
  intros Hc (l & Hl & Hnames & Hlisted) Hj. split.
  - exists l. split_and!; [|done|].
    + by rewrite lookup_insert_ne by (by apply join_temp_dir_ne).
    + intros c' Hc' Hsome. apply Hlisted; [done|].
      destruct (decide (c = c')) as [<-|Hne]; [by rewrite Hj|].
      by rewrite lookup_insert_ne in Hsome
        by (intros Heq; by apply join_temp_dir_inj in Heq).
  - intros p Hp Hout. rewrite lookup_insert_ne; [done|].
    apply not_eq_sym. by apply Hout.
Qed.

Lemma download_chapter_images_temp_tree session chapter_url max_workers fs :
  temp_tree temp_dir fs →
  temp_tree temp_dir (download_chapter_images session chapter_url temp_dir max_workers fs).2
  ∧ same_outside temp_dir fs (download_chapter_images session chapter_url temp_dir max_workers fs).2.
Proof.
  intros Htree. unfold download_chapter_images.
  pose proof (url_slug_no_sep chapter_url) as Hslug.
  destruct (makedirs _ _ _) as [fs'|] eqn:Hmk; [|split; [done|apply same_outside_refl]].
  destruct (makedirs_temp_tree _ _ _ Hslug Htree Hmk) as (Htree' & Hsame & l0 & Hl0).
  destruct (chapter_page session chapter_url) as [[|tag tags]| |]; [done| |done..].
  destruct (existsb _ _); [done|]. destruct (max_workers <=? 0); [done|].
  destruct (run_page_tasks _ _ _ _) as [raised l'].
  destruct (temp_tree_insert_child (url_slug chapter_url) l0 l' fs' Hslug Htree' Hl0)
    as [Ht Hs].
  cbn [snd]. split; [done|]. by eapply same_outside_trans.
Qed.

Lemma run_downloads_temp_tree session urls fs :
  temp_tree temp_dir fs →
  temp_tree temp_dir (run_downloads session urls temp_dir fs).2
  ∧ same_outside temp_dir fs (run_downloads session urls temp_dir fs).2.
Proof.
  intros Htree. induction urls as [|url urls IH] using rev_ind.
  - split; [done|apply same_outside_refl].
  - rewrite run_downloads_snoc. cbn [snd]. destruct IH as [Ht Hs].
    destruct (download_chapter_images_temp_tree session url (workers session) _ Ht)
      as [Ht' Hs'].
    split; [done|]. by eapply same_outside_trans.
Qed.

Lemma put_dirent_top_temp_tree c v fs fs' :
  Str.contains "/"%char c = false →
  temp_tree temp_dir fs → put_dirent temp_dir c v fs = Some fs' →
  temp_tree temp_dir fs' ∧ same_outside temp_dir fs fs'.
Proof.
  intros Hc (l & Hl & Hnames & Hlisted) Hput. unfold put_dirent in Hput.
  rewrite Hl in Hput.
  assert (fs' = <[temp_dir := Directory (<[c := v]> l)]> fs) as ->.
  { destruct (l !! c) as [[|]|], v; simplify_eq; done. }
  split.
  - exists (<[c := v]> l). split_and!; [by rewrite lookup_insert_eq| |].
    + intros name [v' Hv]. destruct (decide (c = name)) as [<-|Hne]; [done|].
      rewrite lookup_insert_ne in Hv by done. by apply Hnames.
    + intros c' Hc' Hsome.
      rewrite lookup_insert_ne in Hsome by (by apply not_eq_sym, join_temp_dir_ne).
      destruct (decide (c = c')) as [<-|Hne]; [by rewrite lookup_insert_eq|].
      rewrite lookup_insert_ne by done. by apply Hlisted.
  - intros p Hp _. by rewrite lookup_insert_ne.
Qed.

Lemma put_dirent_child_temp_tree c name v fs fs' :
  Str.contains "/"%char c = false →
  temp_tree temp_dir fs → put_dirent (Path.join temp_dir c) name v fs = Some fs' →
  temp_tree temp_dir fs' ∧ same_outside temp_dir fs fs'.
Proof.
  intros Hc Htree Hput. unfold put_dirent in Hput.
  destruct (fs !! Path.join temp_dir c) as [[| |l0]|] eqn:Hj; try done.
  assert (fs' = <[Path.join temp_dir c := Directory (<[name := v]> l0)]> fs) as ->.
  { destruct (l0 !! name) as [[|]|], v; simplify_eq; done. }
  by eapply temp_tree_insert_child.
Qed.

Lemma extract_member_temp_tree name data fs fs' :
  temp_tree temp_dir fs → extract_member temp_dir name data fs = Some fs' →
  temp_tree temp_dir fs' ∧ same_outside temp_dir fs fs'.
Proof.
  intros Htree. unfold extract_member.
  pose proof (member_parts_no_sep name) as Hparts.
  destruct (member_parts name) as [|c [|c2 rest]].
  - destruct (Str.endswith "/" name); [|done]. intros [= <-].
    split; [done|apply same_outside_refl].
  - assert (Str.contains "/"%char c = false) as Hc by (apply Hparts; left).
    destruct (Str.endswith "/" name).
    + intros Hmk. destruct (makedirs_temp_tree _ _ _ Hc Htree Hmk) as (? & ? & _). done.
    + by apply put_dirent_top_temp_tree.
  - assert (Str.contains "/"%char c = false) as Hc by (apply Hparts; left).
    destruct (makedirs temp_dir c fs) as [fs1|] eqn:Hmk; [|done]. cbn [mbind option_bind].
    destruct (makedirs_temp_tree _ _ _ Hc Htree Hmk) as (Ht1 & Hs1 & _).
    intros Hput. destruct (put_dirent_child_temp_tree _ _ _ _ _ Hc Ht1 Hput) as [Ht2 Hs2].
    split; [done|]. by eapply same_outside_trans.
Qed.

Lemma extractall_temp_tree zf fs fs' :
  temp_tree temp_dir fs → extractall zf temp_dir fs = Some fs' →
  temp_tree temp_dir fs' ∧ same_outside temp_dir fs fs'.
Proof.
  unfold extractall. generalize (namelist zf). intros names Htree. revert fs'.
  induction names as [|name names IH] using rev_ind; intros fs'.
  - intros [= <-]. split; [done|apply same_outside_refl].
  - rewrite foldl_app. cbn [foldl].
    destruct (foldl _ (Some fs) names) as [fs1|] eqn:Hfold; [|done].
    cbn [mbind option_bind].
    destruct (IH fs1 eq_refl) as [Ht1 Hs1].
    destruct (zip_read zf name) as [data|]; [|done]. cbn [mbind option_bind].
    intros Hex. destruct (extract_member_temp_tree _ _ _ _ Ht1 Hex) as [Ht2 Hs2].
    split; [done|]. by eapply same_outside_trans.
Qed.

Lemma foldr_delete_lookup (names : list string) (fs : gmap string node) p :
  foldr (λ d fs, delete (Path.join temp_dir d) fs) fs names !! p
  = if bool_decide (p ∈ Path.join temp_dir <$> names) then None else fs !! p.
Proof.
  induction names as [|n names IH]; cbn [foldr].
  - rewrite fmap_nil. by rewrite bool_decide_false by apply not_elem_of_nil.
  - rewrite fmap_cons. destruct (decide (Path.join temp_dir n = p)) as [<-|Hne].
    + rewrite lookup_delete_eq. by rewrite bool_decide_true by left.
    + rewrite lookup_delete_ne by done. rewrite IH.
      destruct (decide (p ∈ Path.join temp_dir <$> names)) as [Hin|Hin].
      * rewrite (bool_decide_true _ Hin). by rewrite bool_decide_true by (by right).
      * rewrite (bool_decide_false _ Hin). rewrite bool_decide_false; [done|].
        intros [?|?]%elem_of_cons; done.
Qed.

(** Leaving the temporary directory removes it and all that is right
    below it, and nothing else. *)
Lemma rmtree_temp_tree_inside fs p :
  temp_tree temp_dir fs →
  p = temp_dir ∨ (∃ c, Str.contains "/"%char c = false ∧ p = Path.join temp_dir c) →
  rmtree temp_dir fs !! p = None.
Proof.
  intros (l & Hl & Hnames & Hlisted) Hp. unfold rmtree. rewrite Hl.
  destruct Hp as [->|(c & Hc & ->)]; [by rewrite lookup_delete_eq|].
  rewrite lookup_delete_ne by (by apply not_eq_sym, join_temp_dir_ne).
  rewrite foldr_delete_lookup. case_bool_decide as Hin; [done|].
  destruct (fs !! Path.join temp_dir c) as [v|] eqn:Hv; [|done].
  exfalso. apply Hin, list_elem_of_fmap. exists c. split; [done|].
  apply elem_of_listdir, Hlisted; [done|]. by rewrite Hv.
Qed.

Lemma rmtree_temp_tree_outside fs p :
  temp_tree temp_dir fs →
  p ≠ temp_dir → (∀ c, Str.contains "/"%char c = false → p ≠ Path.join temp_dir c) →
  rmtree temp_dir fs !! p = fs !! p.
Proof.
  intros (l & Hl & Hnames & Hlisted) Hp Hout. unfold rmtree. rewrite Hl.
  rewrite lookup_delete_ne by done.
  rewrite foldr_delete_lookup. rewrite bool_decide_false; [done|].
  intros (c & -> & Hc%elem_of_listdir)%list_elem_of_fmap.
  by apply (Hout c); [apply Hnames|].
Qed.

Lemma below_temp_dir_dec p :
  (∃ c, Str.contains "/"%char c = false ∧ p = Path.join temp_dir c)
  ∨ (∀ c, Str.contains "/"%char c = false → p ≠ Path.join temp_dir c).
Proof.
  destruct (decide (p = Path.join temp_dir (Path.basename p))) as [Heq|Hne].
  - left. exists (Path.basename p). split; [apply last_segment_no_sep|done].
  - right. intros c Hc ->. apply Hne. by rewrite basename_join.
Qed.

(** What the extraction of the archive leaves of a page of the archive. *)
Lemma extract_member_writes_page entry data fs fs' folder name :
  member_parts entry = [folder; name] → Str.endswith "/" entry = false →
  extract_member temp_dir entry data fs = Some fs' →
  ∃ l, fs' !! Path.join temp_dir folder = Some (Directory l)
       ∧ l !! name = Some (Page data).
Proof.
  intros Hparts Hfile. unfold extract_member. rewrite Hparts, Hfile.
  destruct (makedirs temp_dir folder fs) as [fs1|]; [|done]. cbn [mbind option_bind].
  unfold put_dirent.
  destruct (fs1 !! Path.join temp_dir folder) as [[| |l]|]; try done.
  intros Hput. exists (<[name := Page data]> l).
  assert (fs' = <[Path.join temp_dir folder := Directory (<[name := Page data]> l)]> fs1)
    as -> by (destruct (l !! name) as [[|]|]; simplify_eq; done).
  by rewrite !lookup_insert_eq.
Qed.

Lemma extract_member_keeps_page entry data fs fs' folder name content l :
  Str.contains "/"%char folder = false →
  member_parts entry ≠ [folder; name] →
  extract_member temp_dir entry data fs = Some fs' →
  fs !! Path.join temp_dir folder = Some (Directory l) →
  l !! name = Some (Page content) →
  ∃ l', fs' !! Path.join temp_dir folder = Some (Directory l')
        ∧ l' !! name = Some (Page content).
Proof.
  intros Hfolder Hparts Hex Hl Hname. unfold extract_member in Hex.
  pose proof (member_parts_no_sep entry) as Hsep.
  assert (∀ c fs1, Str.contains "/"%char c = false → makedirs temp_dir c fs = Some fs1 →
                   fs1 !! Path.join temp_dir folder = Some (Directory l)) as Hmk.
  { intros c fs1 Hc Hmk. destruct (decide (c = folder)) as [->|Hne].
    - rewrite (makedirs_existing temp_dir folder fs l) in Hmk
        by (unfold folder_listing; by rewrite Hl).
      by injection Hmk as <-.
    - rewrite (makedirs_frame _ _ _ _ _ Hmk); [done|by apply join_temp_dir_ne|].
      intros Heq. by apply join_temp_dir_inj in Heq. }
  destruct (member_parts entry) as [|c [|c2 rest]].
  - destruct (Str.endswith "/" entry); [|done]. injection Hex as <-. by exists l.
  - assert (Str.contains "/"%char c = false) as Hc by (apply Hsep; left).
    destruct (Str.endswith "/" entry).
    + exists l. split; [by eapply Hmk|done].
    + unfold put_dirent in Hex.
      destruct (fs !! temp_dir) as [[| |l0]|]; try done.
      assert (fs' = <[temp_dir := Directory (<[c := Page data]> l0)]> fs) as ->
        by (destruct (l0 !! c) as [[|]|]; simplify_eq; done).
      exists l. split; [|done].
      by rewrite lookup_insert_ne by (by apply not_eq_sym, join_temp_dir_ne).
  - assert (Str.contains "/"%char c = false) as Hc by (apply Hsep; left).
    destruct (makedirs temp_dir c fs) as [fs1|] eqn:Hfs1; [|done].
    cbn [mbind option_bind] in Hex.
    pose proof (Hmk c fs1 Hc Hfs1) as Hl1.
    unfold put_dirent in Hex.
    destruct (fs1 !! Path.join temp_dir c) as [[| |l1]|] eqn:Hc1; try done.
    set (v := match rest with
              | [] => if Str.endswith "/" entry then Subdir else Page data
              | _ :: _ => Subdir
              end) in *.
    destruct (decide (c = folder)) as [->|Hne].
    + rewrite Hl1 in Hc1. injection Hc1 as <-.
      destruct (decide (c2 = name)) as [->|Hne2].
      * rewrite Hname in Hex. destruct v eqn:Hv; [|done].
        injection Hex as <-. exfalso. apply Hparts.
        unfold v in Hv. destruct rest; [done|done].
      * assert (fs' = <[Path.join temp_dir folder := Directory (<[c2 := v]> l)]> fs1) as ->
          by (destruct (l !! c2) as [[|]|], v; simplify_eq; done).
        exists (<[c2 := v]> l). split; [by rewrite lookup_insert_eq|].
        by rewrite lookup_insert_ne.
    + assert (fs' = <[Path.join temp_dir c := Directory (<[c2 := v]> l1)]> fs1) as ->
        by (destruct (l1 !! c2) as [[|]|], v; simplify_eq; done).
      exists l. split; [|done]. rewrite lookup_insert_ne; [done|].
      intros Heq. by apply join_temp_dir_inj in Heq.
Qed.

Lemma extract_fold_None zf names :
  foldl (λ acc name, fs ← acc; data ← zip_read zf name;
                     extract_member temp_dir name data fs) None names = None.
Proof. by induction names. Qed.

Lemma extract_fold_keeps_page zf names fs fs' folder name content l :
  Str.contains "/"%char folder = false →
  (∀ later, later ∈ names → member_parts later ≠ [folder; name]) →
  foldl (λ acc name, fs ← acc; data ← zip_read zf name;
                     extract_member temp_dir name data fs) (Some fs) names = Some fs' →
  fs !! Path.join temp_dir folder = Some (Directory l) →
  l !! name = Some (Page content) →
  ∃ l', fs' !! Path.join temp_dir folder = Some (Directory l')
        ∧ l' !! name = Some (Page content).
Proof.
  intros Hfolder. revert fs l.
  induction names as [|entry names IH]; intros fs l Hlater Hfold Hl Hname.
  - injection Hfold as <-. by exists l.
  - cbn [foldl mbind option_bind] in Hfold.
    destruct (zip_read zf entry) as [data|]; [|by rewrite extract_fold_None in Hfold].
    cbn [mbind option_bind] in Hfold.
    destruct (extract_member temp_dir entry data fs) as [fs1|] eqn:Hex;
      [|by rewrite extract_fold_None in Hfold].
    destruct (extract_member_keeps_page entry data fs fs1 folder name content l)
      as (l1 & Hl1 & Hname1); [done|apply Hlater; left|done..|].
    apply (IH fs1 l1); [|done..]. intros later Hin. apply Hlater. by right.
Qed.

(** The page an entry of the archive becomes in the scratch directory,
    when no later entry is extracted to the same place. *)
Lemma extractall_page zf fs fs' before entry after folder name data :
  namelist zf = before ++ entry :: after →
  member_parts entry = [folder; name] → Str.endswith "/" entry = false →
  (∀ later, later ∈ after → member_parts later ≠ [folder; name]) →
  zip_read zf entry = Some data →
  extractall zf temp_dir fs = Some fs' →
  ∃ l, fs' !! Path.join temp_dir folder = Some (Directory l)
       ∧ l !! name = Some (Page data).
Proof.
  intros Hnames Hparts Hfile Hlater Hread. unfold extractall.
  rewrite Hnames, foldl_app. cbn [foldl].
  destruct (foldl _ (Some fs) before) as [fs1|]; [|by rewrite extract_fold_None].
  cbn [mbind option_bind]. rewrite Hread. cbn [mbind option_bind].
  destruct (extract_member temp_dir entry data fs1) as [fs2|] eqn:Hex;
    [|by rewrite extract_fold_None].
  destruct (extract_member_writes_page _ _ _ _ _ _ Hparts Hfile Hex) as (l & Hl & Hname).
  intros Hfold. eapply extract_fold_keeps_page; [|done..].
  apply (member_parts_no_sep entry). rewrite Hparts. left.
Qed.

(** The folders the sync gives to the builder all lie right below the
    scratch directory. *)
Lemma existing_chapter_folders_elem fs f :
  temp_tree temp_dir fs →
  f ∈ existing_chapter_folders temp_dir fs →
  ∃ c, Str.contains "/"%char c = false ∧ f = Path.join temp_dir c.
Proof.
  intros (l & Hl & Hnames & _). unfold existing_chapter_folders, folder_listing.
  rewrite Hl. intros [Hf _]%list_elem_of_In%filter_In.
  apply list_elem_of_In, list_elem_of_fmap in Hf as (c & -> & Hc%elem_of_listdir).
  exists c. split; [by apply Hnames|done].
Qed.

Lemma existing_chapter_folders_child fs c l :
  temp_tree temp_dir fs →
  Str.contains "/"%char c = false →
  fs !! Path.join temp_dir c = Some (Directory l) →
  Path.join temp_dir c ∈ existing_chapter_folders temp_dir fs.
Proof.
  intros (l0 & Hl0 & _ & Hlisted) Hc Hl. unfold existing_chapter_folders, folder_listing.
  rewrite Hl0. apply list_elem_of_In, filter_In. split.
  - apply list_elem_of_In, list_elem_of_fmap. exists c. split; [done|].
    apply elem_of_listdir, Hlisted; [done|]. by rewrite Hl.
  - unfold isdir, folder_listing. by rewrite Hl.
Qed.

Lemma collect_paths_elem session urls fs completed f :
  f ∈ collect_paths (run_downloads session urls temp_dir fs).1 completed →
  ∃ c, Str.contains "/"%char c = false ∧ f = Path.join temp_dir c.
Proof.
  unfold collect_paths. intros (url & _ & Hf)%list_elem_of_omap.
  destruct ((run_downloads session urls temp_dir fs).1 !! url) as [[[p|]|]|] eqn:Hu;
    try done.
  destruct (String.eqb p ""); [done|]. injection Hf as <-.
  exists (url_slug url). split; [apply url_slug_no_sep|]. by eapply run_downloads_path.
Qed.

End temp_dir.

Lemma temp_tree_ext temp_dir (fs fs' : gmap string node) :
  temp_tree temp_dir fs →
  fs' !! temp_dir = fs !! temp_dir →
  (∀ c, Str.contains "/"%char c = false →
        fs' !! Path.join temp_dir c = fs !! Path.join temp_dir c) →
  temp_tree temp_dir fs'.
Proof.
  intros (l & Hl & Hnames & Hlisted) Htop Hbelow. exists l. split_and!.
  - by rewrite Htop.
  - done.
  - intros c Hc Hsome. apply Hlisted; [done|]. by rewrite <- Hbelow.
Qed.

(** What is left when the temporary directory has gone. *)
Lemma rmtree_restores temp_dir (fs0 fs : gmap string node) p :
  temp_dir ≠ "" → Str.endswith "/" temp_dir = false →
  fs0 !! temp_dir = None →
  (∀ c, Str.contains "/"%char c = false → fs0 !! Path.join temp_dir c = None) →
  temp_tree temp_dir fs →
  (p ≠ temp_dir → (∀ c, Str.contains "/"%char c = false → p ≠ Path.join temp_dir c) →
   fs !! p = fs0 !! p) →
  rmtree temp_dir fs !! p = fs0 !! p.
Proof.
  intros Hne Hslash Htop Hbelow Htree Hsame.
  destruct (decide (p = temp_dir)) as [->|Hp].
  { rewrite Htop. apply rmtree_temp_tree_inside; [done..|by left]. }
  destruct (below_temp_dir_dec temp_dir p) as [(c & Hc & ->)|Hout].
  - rewrite Hbelow by done. apply rmtree_temp_tree_inside; [done..|].
    right. by exists c.
  - rewrite rmtree_temp_tree_outside by done. by apply Hsame.
Qed.

(** *** The builder writes the container only *)

Lemma create_cbz_archive_other_paths manga_title chapter_folders output_filename d p :
  p ≠ cbz_file_name manga_title output_filename →
  files (create_cbz_archive manga_title chapter_folders output_filename d).2 !! p
  = files d !! p.
Proof.
  intros Hp. unfold create_cbz_archive.
  fold (cbz_file_name manga_title output_filename).
  destruct (scan_folders _ _) as [bookmarks total].
  destruct (total =? 0); [done|].
  destruct (write_cbz _ _ _ _) as [w|w];
    destruct (files d !! cbz_file_name manga_title output_filename) as [[]|];
    simpl; by rewrite ?lookup_insert_ne.
Qed.

(** *** Entries under the name of a folder *)

Lemma folder_pages_elem_iff fs folder e :
  e ∈ folder_pages fs folder
  ↔ ∃ l name content,
      folder_listing fs folder = Some l ∧ l !! name = Some (Page content)
      ∧ e = (Path.basename folder +:+ "/" +:+ name, content).
Proof.
  split.
  - unfold folder_pages.
    destruct (folder_listing fs folder) as [l|]; [|by intros ?%elem_of_nil].
    intros (name & _ & He)%list_elem_of_omap.
    destruct (l !! name) as [[content|]|] eqn:Hn; [|done..].
    injection He as <-. by exists l, name, content.
  - intros (l & name & content & Hl & Hn & ->). by eapply folder_pages_elem.
Qed.

Lemma append_sep_inj (a b n n' : string) :
  Str.contains "/"%char a = false → Str.contains "/"%char b = false →
  a +:+ "/" +:+ n = b +:+ "/" +:+ n' → a = b ∧ n = n'.
Proof.
  revert b. induction a as [|x a IH]; intros [|y b] Ha Hb Heq; simpl in *.
  - by injection Heq as ->.
  - injection Heq as <- _. by rewrite Ascii.eqb_refl in Hb.
  - injection Heq as -> _. by rewrite Ascii.eqb_refl in Ha.
  - injection Heq as -> Heq.
    apply orb_false_iff in Ha as [_ Ha]. apply orb_false_iff in Hb as [_ Hb].
    destruct (IH b Ha Hb Heq) as [-> ->]. done.
Qed.

(** The entries a container that was built has under the name of a
    folder, when no other folder of the list goes by that name. *)
Lemma archive_pages_of_folder manga_title chapter_folders output_filename d d'
    folder name content :
  create_cbz_archive manga_title chapter_folders output_filename d = (true, d') →
  folder ∈ chapter_folders →
  (∀ f, f ∈ chapter_folders → Path.basename f = Path.basename folder → f = folder) →
  (Path.basename folder +:+ "/" +:+ name, content)
    ∈ archive_pages d' (cbz_file_name manga_title output_filename)
  ↔ ∃ l, folder_listing (files d) folder = Some l ∧ l !! name = Some (Page content).
Proof.
  intros Hcreate Hin Honly. rewrite (archive_pages_created _ _ _ _ _ Hcreate). split.
  - intros (pages & He & Hpages)%list_elem_of_join.
    apply list_elem_of_fmap in Hpages as (f & -> & Hf).
    rewrite chapter_order_perm in Hf.
    apply folder_pages_elem_iff in He as (l & name' & content' & Hl & Hn & Heq).
    injection Heq as Heq <-.
    apply append_sep_inj in Heq as [Hbase <-]; [|apply last_segment_no_sep..].
    rewrite (Honly f Hf) in Hl by done. by exists l.
  - intros (l & Hl & Hn). apply list_elem_of_join.
    exists (folder_pages (files d) folder). split; [by eapply folder_pages_elem|].
    apply list_elem_of_fmap. exists folder. split; [done|]. by rewrite chapter_order_perm.
Qed.

(** * Properties of the reconciliation engine *)

(** ** Metadata-only update *)

(** C10. An archive that already has an entry [ComicInfo.xml] is skipped
    when the update runs without the force flag: the result is one of the
    skip messages (the one about the existing metadata whenever the path
    has the [.cbz] suffix) and the storage is exactly what it was, so the
    archive keeps its bytes and no temporary file appears. *)
Theorem update_local_cbz_skips_existing_metadata
    (cbz_path : string) (custom_title : option string)
    (zf : list (string * string)) (d : disk) :
  files d !! cbz_path = Some (Archive zf) →
  "ComicInfo.xml" ∈ namelist zf →
  is_skip (update_local_cbz cbz_path custom_title false d).1 = true
  ∧ (Str.endswith ".cbz" (Str.lower cbz_path) = true →
     (update_local_cbz cbz_path custom_title false d).1 = SkippingComicInfoExists)
  ∧ (update_local_cbz cbz_path custom_title false d).2 = d.
Proof.
  intros Hzf Hinfo. unfold update_local_cbz.
  destruct (Str.endswith ".cbz" (Str.lower cbz_path)); simpl; [|done].
  rewrite Hzf. rewrite bool_decide_true by done. done.
Qed.

Lemma update_local_cbz_skips_existing_metadata_witness :
  is_skip (update_local_cbz "/m/x.cbz" None false tagged_disk).1 = true
  ∧ (Str.endswith ".cbz" (Str.lower "/m/x.cbz") = true →
     (update_local_cbz "/m/x.cbz" None false tagged_disk).1 = SkippingComicInfoExists)
  ∧ (update_local_cbz "/m/x.cbz" None false tagged_disk).2 = tagged_disk.
Proof.
  apply (update_local_cbz_skips_existing_metadata "/m/x.cbz" None tagged_archive tagged_disk).
  - reflexivity.
  - unfold tagged_archive, namelist. simpl. left.
Defined.

(** ** Refusal of an empty result *)

(** C8. When no folder handed to [create_cbz_archive] holds a regular
    file, the call returns [False] and the storage is left exactly as it
    was: no container is created and none is touched. *)
Theorem create_cbz_archive_refuses_empty
    (manga_title : string) (chapter_folders : list string)
    (output_filename : option string) (d : disk) :
  (∀ folder l name,
     folder ∈ chapter_folders → folder_listing (files d) folder = Some l →
     isfile_in l name = false) →
  create_cbz_archive manga_title chapter_folders output_filename d = (false, d).
Proof.
  intros Hempty. unfold create_cbz_archive.
  assert ((scan_folders (files d) (sort_by_key chapter_sort_key chapter_folders)).2 = 0)
    as Htotal.
  { unfold scan_folders. rewrite scan_folders_no_pages; [done|].
    intros folder l Hin Hl. apply num_images_none. intros name.
    apply (Hempty folder l name); [|done].
    rewrite <- (chapter_order_perm chapter_folders). exact Hin. }
  destruct (scan_folders _ _) as [bookmarks total]. simpl in Htotal. by subst.
Qed.

Lemma create_cbz_archive_refuses_empty_witness :
  create_cbz_archive "x" ["/t/chapter-1"; "/t/chapter-2"] (Some "/m/x.cbz") empty_folder_disk
  = (false, empty_folder_disk).
Proof.
  apply (create_cbz_archive_refuses_empty "x" ["/t/chapter-1"; "/t/chapter-2"]
           (Some "/m/x.cbz") empty_folder_disk).
  intros folder l name Hin Hl.
  apply elem_of_cons in Hin as [->|Hin].
  - unfold folder_listing, empty_folder_disk in Hl. simpl in Hl.
    rewrite lookup_insert_eq in Hl. injection Hl as <-. unfold isfile_in.
    destruct (decide (name = "extras")) as [->|Hne].
    + by rewrite lookup_insert_eq.
    + by rewrite lookup_insert_ne, lookup_empty.
  - apply list_elem_of_singleton in Hin as ->. vm_compute in Hl. discriminate.
Defined.

(** ** Acquired chapters *)

(** C5, as stated, fails: every page fetch of the chapter fails, yet the
    download returns the chapter folder and the folder is collected among
    the downloaded chapters; it holds no page. *)
Lemma chapter_without_pages_is_collected :
  let r := run_downloads site_without_images [chapter_1_url] "/tmp/t" scratch_files in
  collect_paths r.1 [chapter_1_url] = ["/tmp/t/chapter-1"]
  ∧ folder_pages r.2 "/tmp/t/chapter-1" = [].
Proof. vm_compute. done. Qed.

(** C5, amended. A dispatched chapter is acquired exactly when its folder
    could be made, its chapter page was retrieved with at least one image
    tag on it, and no exception that the download does not catch has
    occurred: none from [urljoin] while the page tasks were listed, none
    from a pool of page workers of size 0 or less, none from the fetch of
    a page whose file was not there.  Whether the page fetches succeed or
    fail with a request failure plays no part.  (The last segment of the
    URL names a folder of its own: it is not empty, [.] or [..].) *)
Theorem chapter_acquired_iff_page_listed
    (session : web) (chapter_url base_download_dir : string) (max_workers : Z)
    (fs : gmap string node) :
  (url_slug chapter_url ∉ [""; "."; ".."]) →
  (download_chapter_images session chapter_url base_download_dir max_workers fs).1
    = Returns (Some (Path.join base_download_dir (url_slug chapter_url)))
  ↔ ∃ fs' tag tags,
      makedirs base_download_dir (url_slug chapter_url) fs = Some fs'
      ∧ chapter_page session chapter_url = Listed (tag :: tags)
      ∧ (∀ src, src ∈ tag :: tags → src ≠ "" →
                urljoin_raises session chapter_url src = false)
      ∧ 0 < max_workers
      ∧ (∀ (i : nat) src partial,
           (tag :: tags) !! i = Some src → src ≠ "" →
           default ∅ (folder_listing fs' (Path.join base_download_dir (url_slug chapter_url)))
             !! page_file_name i = None →
           get_image session chapter_url src ≠ Escaped partial).
Proof.
  intros _. rewrite download_chapter_images_returns.
  destruct (makedirs _ _ _) as [fs'|]; [|split; [done|by intros (? & ? & ? & ? & _)]].
  destruct (chapter_page session chapter_url) as [[|tag tags]| |];
    [split; [done|by intros (? & ? & ? & _ & ? & _)]|
    |split; [done|by intros (? & ? & ? & _ & ? & _)]..].
  set (l := default ∅ (folder_listing fs' (Path.join base_download_dir (url_slug chapter_url)))).
  destruct (existsb _ (tag :: tags)) eqn:Hjoin.
  { split; [done|]. intros (? & ? & ? & [= <-] & [= <- <-] & Hok & _).
    apply existsb_exists in Hjoin as (src & Hin%list_elem_of_In & Hsrc).
    apply andb_true_iff in Hsrc as [Hne%negb_true_iff%String.eqb_neq Hraise].
    by rewrite (Hok src Hin Hne) in Hraise. }
  destruct (Z.leb_spec max_workers 0) as [Hpool|Hpool].
  { split; [done|]. intros (? & ? & ? & _ & _ & _ & ? & _). lia. }
  destruct (run_page_tasks _ _ _ l).1 eqn:Hrun.
  - split; [done|]. intros (? & ? & ? & [= <-] & [= <- <-] & _ & _ & Hok).
    apply run_page_tasks_raised in Hrun as (src & name & partial & Hin & Hl & Hget);
      [|apply page_tasks_names_NoDup].
    rewrite page_tasks_from in Hin.
    apply elem_of_tasks_from in Hin as (i & Hi & Hne & ->).
    by destruct (Hok i src partial Hi Hne Hl).
  - split; [|done]. intros _. exists fs', tag, tags. split_and!; [done|done| |done|].
    + intros src Hin Hne. destruct (urljoin_raises session chapter_url src) eqn:Hr; [|done].
      assert (existsb (λ src, negb (String.eqb src "")
                              && urljoin_raises session chapter_url src) (tag :: tags) = true)
        as Hex; [|by rewrite Hex in Hjoin].
      apply existsb_exists. exists src. split; [by apply list_elem_of_In|].
      apply String.eqb_neq in Hne. by rewrite Hne, Hr.
    + intros i src partial Hi Hne Hl Hget.
      assert ((run_page_tasks session chapter_url (page_tasks (tag :: tags)) l).1 = true)
        as Hraised; [|by rewrite Hraised in Hrun].
      apply run_page_tasks_raised; [apply page_tasks_names_NoDup|].
      exists src, (page_file_name i), partial. split_and!; [|done..].
      rewrite page_tasks_from. apply elem_of_tasks_from. by exists i.
Qed.

Lemma chapter_acquired_iff_page_listed_witness :
  (download_chapter_images site_without_images chapter_1_url "/tmp/t" 10 scratch_files).1
    = Returns (Some (Path.join "/tmp/t" (url_slug chapter_1_url)))
  ↔ ∃ fs' tag tags,
      makedirs "/tmp/t" (url_slug chapter_1_url) scratch_files = Some fs'
      ∧ chapter_page site_without_images chapter_1_url = Listed (tag :: tags)
      ∧ (∀ src, src ∈ tag :: tags → src ≠ "" →
                urljoin_raises site_without_images chapter_1_url src = false)
      ∧ 0 < 10
      ∧ (∀ (i : nat) src partial,
           (tag :: tags) !! i = Some src → src ≠ "" →
           default ∅ (folder_listing fs' (Path.join "/tmp/t" (url_slug chapter_1_url)))
             !! page_file_name i = None →
           get_image site_without_images chapter_1_url src ≠ Escaped partial).
Proof.
  apply (chapter_acquired_iff_page_listed site_without_images chapter_1_url "/tmp/t" 10
           scratch_files).
  vm_compute. intros Hin.
  repeat (apply elem_of_cons in Hin as [Hin|Hin]; [discriminate|]).
  by apply elem_of_nil in Hin.
Defined.

(** ** No replacement of an existing chapter *)

(** C1, as stated, fails.  The archive has a page of chapter 1, stored
    under [./chapter-1/]; the directory part of that name is not the slug
    [chapter-1], so the sync fetches chapter 1, whose first page gets the
    same file name.  The archive is then extracted into the scratch
    directory, over the folder of the fetched chapter: the rebuilt archive
    has the existing page under the slug and not the fetched one. *)
Lemma existing_version_is_kept :
  let r := sync_cbz_with_source site_with_two_chapters "/m/x.cbz"
             "https://m.example/manga/x/" ["chapter-2"] "/tmp/t" [chapter_1_url]
             dotted_disk in
  urls_to_download dotted_archive
    (chapter_list site_with_two_chapters "https://m.example/manga/x/") ["chapter-2"]
  = [chapter_1_url]
  ∧ folder_pages
      (download_chapter_images site_with_two_chapters chapter_1_url "/tmp/t" 10
         scratch_files).2 "/tmp/t/chapter-1"
    = [("chapter-1/page_001.jpg", "image a.jpg of chapter-1")]
  ∧ r.1 = SyncComplete
  ∧ ("chapter-1/page_001.jpg", "old page") ∈ archive_pages r.2 "/m/x.cbz"
  ∧ ("chapter-1/page_001.jpg", "image a.jpg of chapter-1") ∉ archive_pages r.2 "/m/x.cbz".
Proof.
  vm_compute. split_and!; [done..|left|].
  intros Hin. repeat (apply elem_of_cons in Hin as [Hin|Hin]; [discriminate|]).
  by apply elem_of_nil in Hin.
Qed.

(** C1, amended. Nothing is replaced.  The sync fetches a chapter only
    when its slug is not the directory part of an image entry of the
    archive, and it extracts the archive into the scratch directory after
    the downloads, over what was fetched.  So when the sync completes,
    every page [folder/name] of the existing archive is in the rebuilt
    archive with the content it had, and with no other content, also
    when a chapter was fetched into that folder with a page of that name.
    (The page is the entry whose name comes to [folder/name] and that no
    later entry writes over; the scratch directory is a fresh one, and
    every chapter of the site has a slug that names a folder of its own:
    none is empty, [.] or [..].) *)
Theorem reconciliation_keeps_every_page
    (session : web) (cbz_path series_url : string) (exclude : list string)
    (temp_dir : string) (completed : list string) (d d' : disk)
    (zf : list (string * string)) (before after : list string)
    (entry folder name data : string) :
  temp_dir ≠ "" → Str.endswith "/" temp_dir = false →
  files d !! temp_dir = None →
  (∀ c, Str.contains "/"%char c = false → files d !! Path.join temp_dir c = None) →
  (∀ url, url ∈ chapter_list session series_url → url_slug url ∉ [""; "."; ".."]) →
  cbz_path ≠ "" →
  files d !! cbz_path = Some (Archive zf) →
  namelist zf = before ++ entry :: after →
  member_parts entry = [folder; name] → Str.endswith "/" entry = false →
  (∀ later, later ∈ after → member_parts later ≠ [folder; name]) →
  zip_read zf entry = Some data →
  sync_cbz_with_source session cbz_path series_url exclude temp_dir completed d
    = (SyncComplete, d') →
  (∀ url, url ∈ urls_to_download zf (chapter_list session series_url) exclude →
          url_slug url ∉ infer_chapter_slugs_from_zip zf)
  ∧ (∀ content,
       (folder +:+ "/" +:+ name, content) ∈ archive_pages d' cbz_path ↔ content = data).
Proof.
  intros Hne Hslash Htop Hbelow _ Hcbz Harchive Hnames Hparts Hfile Hlater Hread Hsync.
  split; [intros url; apply urls_to_download_slug|].
  assert (Str.contains "/"%char folder = false) as Hfolder.
  { apply (member_parts_no_sep entry). rewrite Hparts. left. }
  unfold sync_cbz_with_source in Hsync. rewrite Harchive in Hsync.
  destruct (chapter_list session series_url) as [|u0 online]; [done|].
  destruct (urls_to_download zf (u0 :: online) exclude) as [|u urls]; [done|].
  cbv zeta in Hsync.
  assert (temp_tree temp_dir (<[temp_dir := Directory ∅]> (files d))) as Htree0.
  { exists ∅. split_and!; [by rewrite lookup_insert_eq|by intros ? [? ?]|].
    intros c Hc [v Hv].
    rewrite lookup_insert_ne in Hv by (by apply not_eq_sym, join_temp_dir_ne).
    by rewrite Hbelow in Hv. }
  pose proof (run_downloads_temp_tree temp_dir Hne Hslash session (u :: urls) _ Htree0)
    as [Htree1 _].
  pose proof (collect_paths_elem temp_dir session (u :: urls)
                (<[temp_dir := Directory ∅]> (files d)) completed) as Hcollected.
  destruct (chapter_workers session <=? 0); [done|].
  destruct (run_downloads session (u :: urls) temp_dir _) as [results fs1].
  cbn [fst snd] in Htree1, Hcollected.
  destruct (any_raised results completed); [done|].
  destruct (extractall zf temp_dir fs1) as [fs2|] eqn:Hextract; [|done].
  destruct (extractall_temp_tree temp_dir Hne Hslash _ _ _ Htree1 Hextract) as [Htree2 _].
  destruct (extractall_page temp_dir Hne Hslash _ _ _ _ _ _ _ _ _
              Hnames Hparts Hfile Hlater Hread Hextract) as (l & Hl & Hname).
  assert (cbz_file_name (Path.splitext_root (Path.basename cbz_path)) (Some cbz_path)
          = cbz_path) as Hout.
  { unfold cbz_file_name. apply String.eqb_neq in Hcbz. by rewrite Hcbz. }
  pose proof (create_cbz_archive_other_paths
                (Path.splitext_root (Path.basename cbz_path))
                (existing_chapter_folders temp_dir fs2 ++ collect_paths results completed)
                (Some cbz_path) (Disk fs2 (writes_left d))) as Hother.
  rewrite Hout in Hother.
  destruct (create_cbz_archive _ _ _ _) as [[] d2] eqn:Hcreate; [|done].
  injection Hsync as <-. intros content.
  assert (archive_pages (set_files (rmtree temp_dir) d2) cbz_path = archive_pages d2 cbz_path)
    as ->.
  { unfold archive_pages, set_files. cbn [files].
    rewrite (rmtree_temp_tree_outside temp_dir); [done| | |].
    - apply (temp_tree_ext temp_dir fs2); [done|..]; cbn [snd files] in Hother.
      + apply Hother. intros ->. by rewrite Harchive in Htop.
      + intros c Hc. apply Hother. intros Heq. specialize (Hbelow c Hc).
        by rewrite Heq, Harchive in Hbelow.
    - intros ->. by rewrite Harchive in Htop.
    - intros c Hc ->. specialize (Hbelow c Hc). by rewrite Harchive in Hbelow. }
  rewrite <- Hout at 1.
  rewrite <- (basename_join temp_dir folder Hfolder) at 1.
  rewrite (archive_pages_of_folder _ _ _ _ _ (Path.join temp_dir folder) name content
             Hcreate).
  - cbn [files]. unfold folder_listing. rewrite Hl. split.
    + intros (l' & [= <-] & Hname'). congruence.
    + intros ->. by exists l.
  - apply elem_of_app. left. by eapply existing_chapter_folders_child.
  - intros f [Hf|Hf]%elem_of_app Hbase.
    + apply (existing_chapter_folders_elem temp_dir) in Hf as (c & Hc & ->); [|done].
      rewrite !basename_join in Hbase by done. by rewrite Hbase.
    + apply Hcollected in Hf as (c & Hc & ->).
      rewrite !basename_join in Hbase by done. by rewrite Hbase.
Qed.

Lemma reconciliation_keeps_every_page_witness :
  (∀ url, url ∈ urls_to_download dotted_archive
                  (chapter_list site_with_two_chapters "https://m.example/manga/x/")
                  ["chapter-2"] →
          url_slug url ∉ infer_chapter_slugs_from_zip dotted_archive)
  ∧ (∀ content,
       ("chapter-1" +:+ "/" +:+ "page_001.jpg", content)
         ∈ archive_pages
             (sync_cbz_with_source site_with_two_chapters "/m/x.cbz"
                "https://m.example/manga/x/" ["chapter-2"] "/tmp/t" [chapter_1_url]
                dotted_disk).2 "/m/x.cbz"
       ↔ content = "old page").
Proof.
  apply (reconciliation_keeps_every_page site_with_two_chapters "/m/x.cbz"
           "https://m.example/manga/x/" ["chapter-2"] "/tmp/t" [chapter_1_url]
           dotted_disk _ dotted_archive ["ComicInfo.xml"] []
           "./chapter-1/page_001.jpg" "chapter-1" "page_001.jpg" "old page").
  - discriminate.
  - reflexivity.
  - reflexivity.
  - intros c Hc. unfold dotted_disk. cbn [files].
    rewrite lookup_insert_ne; [done|].
    intros Heq. pose proof (f_equal Path.basename Heq) as Hb.
    rewrite basename_join in Hb by done. subst c. vm_compute in Heq. discriminate.
  - intros url Hurl. vm_compute in Hurl.
    repeat (apply elem_of_cons in Hurl as [->|Hurl];
            [vm_compute; intros Hin;
             repeat (apply elem_of_cons in Hin as [Hin|Hin]; [discriminate|]);
             by apply elem_of_nil in Hin|]).
    by apply elem_of_nil in Hurl.
  - discriminate.
  - reflexivity.
  - reflexivity.
  - reflexivity.
  - reflexivity.
  - by intros later ?%elem_of_nil.
  - reflexivity.
  - vm_compute. reflexivity.
Defined.

(** ** The page list of the metadata document *)

(** C7, as stated, fails: two chapters start at index 0 (the first one has
    no page); page 0 carries the title of the second one, so the first
    chapter's start does not carry that chapter's title. *)
Lemma earlier_bookmark_is_lost :
  generate_comic_info_xml "T" [(0, "Chapter 1"); (0, "Chapter 2")] 1
  = xml_prologue "T" 1 +:+ bookmarked_page 0 "Chapter 2" "FrontCover" +:+ xml_epilogue
  ∧ generate_comic_info_xml "T" [(0, "Chapter 1"); (0, "Chapter 2")] 1
    ≠ xml_prologue "T" 1 +:+ bookmarked_page 0 "Chapter 1" "FrontCover" +:+ xml_epilogue.
Proof. split; [by vm_compute|]. vm_compute. discriminate. Qed.

(** C7, amended. The document is the prologue, then one page entry per
    index 0, 1, ..., [total_page_count - 1] in this order (none when the
    count is not positive), then the epilogue.  The entry of an index that
    is the index of some bookmark carries the escaped title of the last
    bookmark of the list with that index, with type [FrontCover] when the
    index is that of the first bookmark of the list and [Story] otherwise;
    the entry of any other index carries the index alone. *)
Theorem generate_comic_info_xml_pages
    (manga_title : string) (bookmarks : list (Z * string)) (total_page_count : Z) :
  ∃ entries : list string,
    generate_comic_info_xml manga_title bookmarks total_page_count
    = xml_prologue (escape_text manga_title) total_page_count
      +:+ concat_strings entries +:+ xml_epilogue
    ∧ length entries = Z.to_nat total_page_count
    ∧ ∀ i : nat, (i < Z.to_nat total_page_count)%nat →
        entries !! i
        = Some match last_bookmark (Z.of_nat i) bookmarks with
               | Some t =>
                   bookmarked_page (Z.of_nat i) (escape_attribute t)
                     (if decide (Z.of_nat i = first_bookmark bookmarks)
                      then "FrontCover" else "Story")
               | None => plain_page (Z.of_nat i)
               end.
Proof.
  exists (page_entry (bookmark_dict bookmarks) (first_bookmark bookmarks)
            <$> range total_page_count).
  split; [apply generate_comic_info_xml_unfold|].
  split; [by rewrite length_fmap, range_length|].
  intros i Hi. rewrite list_lookup_fmap, range_lookup by done. simpl.
  unfold page_entry. by rewrite bookmark_dict_lookup.
Qed.

Lemma generate_comic_info_xml_pages_witness :
  ∃ entries : list string,
    generate_comic_info_xml "A & B" [(0, "Chapter 1"); (2, "Chapter 2")] 3
    = xml_prologue (escape_text "A & B") 3 +:+ concat_strings entries +:+ xml_epilogue
    ∧ length entries = Z.to_nat 3
    ∧ ∀ i : nat, (i < Z.to_nat 3)%nat →
        entries !! i
        = Some match last_bookmark (Z.of_nat i) [(0, "Chapter 1"); (2, "Chapter 2")] with
               | Some t =>
                   bookmarked_page (Z.of_nat i) (escape_attribute t)
                     (if decide (Z.of_nat i = first_bookmark [(0, "Chapter 1"); (2, "Chapter 2")])
                      then "FrontCover" else "Story")
               | None => plain_page (Z.of_nat i)
               end.
Proof.
  exact (generate_comic_info_xml_pages "A & B" [(0, "Chapter 1"); (2, "Chapter 2")] 3).
Defined.

(** ** Escaping of the titles *)

(** C6, as stated, fails: a double quote in the manga title goes into the
    [Series] and [Title] elements as it is. *)
Lemma quote_in_series_is_not_escaped :
  generate_comic_info_xml Str.dq [] 0 = xml_prologue Str.dq 0 +:+ xml_epilogue
  ∧ xml_escaped true Str.dq = false.
Proof. by vm_compute. Qed.

(** C6, amended. The document carries the manga title, in its [Series] and
    [Title] elements, with [&], [<] and [>] in escaped form only (a double
    quote stays as it is there), and every bookmark title, in its
    [Bookmark] attribute, with [&], [<], [>] and the double quote in
    escaped form only.  Both read back to the title they were made from. *)
Theorem titles_are_escaped
    (manga_title : string) (bookmarks : list (Z * string)) (total_page_count : Z) :
  generate_comic_info_xml manga_title bookmarks total_page_count
  = xml_prologue (escape_text manga_title) total_page_count
    +:+ concat_strings (page_entry (bookmark_dict bookmarks) (first_bookmark bookmarks)
                          <$> range total_page_count)
    +:+ xml_epilogue
  ∧ xml_escaped false (escape_text manga_title) = true
  ∧ unescape (escape_text manga_title) = manga_title
  ∧ ∀ i t, bookmark_dict bookmarks !! i = Some t →
      page_entry (bookmark_dict bookmarks) (first_bookmark bookmarks) i
      = bookmarked_page i (escape_attribute t)
          (if decide (i = first_bookmark bookmarks) then "FrontCover" else "Story")
      ∧ xml_escaped true (escape_attribute t) = true
      ∧ unescape (escape_attribute t) = t.
Proof.
  split; [apply generate_comic_info_xml_unfold|].
  split; [apply escape_text_escaped|].
  split; [apply unescape_escape_text|].
  intros i t Hi. unfold page_entry. rewrite Hi.
  split; [done|]. split; [apply escape_attribute_escaped|apply unescape_escape_attribute].
Qed.

Lemma titles_are_escaped_witness :
  generate_comic_info_xml "Tom & Jerry" quoted_bookmarks 3
  = xml_prologue (escape_text "Tom & Jerry") 3
    +:+ concat_strings (page_entry (bookmark_dict quoted_bookmarks)
                          (first_bookmark quoted_bookmarks) <$> range 3)
    +:+ xml_epilogue
  ∧ xml_escaped false (escape_text "Tom & Jerry") = true
  ∧ unescape (escape_text "Tom & Jerry") = "Tom & Jerry"
  ∧ ∀ i t, bookmark_dict quoted_bookmarks !! i = Some t →
      page_entry (bookmark_dict quoted_bookmarks) (first_bookmark quoted_bookmarks) i
      = bookmarked_page i (escape_attribute t)
          (if decide (i = first_bookmark quoted_bookmarks) then "FrontCover" else "Story")
      ∧ xml_escaped true (escape_attribute t) = true
      ∧ unescape (escape_attribute t) = t.
Proof. exact (titles_are_escaped "Tom & Jerry" quoted_bookmarks 3). Defined.

(** ** Page names after a partial failure *)




(** ** The order of the chapters *)

(** C4, as stated, fails: natural sort puts [vol-1-ch-2] before
    [vol-2-ch-1]; the container has them the other way round. *)
Lemma chapters_are_not_in_natural_order :
  let r := create_cbz_archive "T" ["/t/vol-1-ch-2"; "/t/vol-2-ch-1"] (Some "/m/T.cbz")
             volumes_disk in
  r.1 = true
  ∧ namelist (archive_pages r.2 "/m/T.cbz")
    = ["vol-2-ch-1/page_001.jpg"; "vol-1-ch-2/page_001.jpg"]
  ∧ spec_natural_sort ["vol-2-ch-1"; "vol-1-ch-2"] = ["vol-1-ch-2"; "vol-2-ch-1"].
Proof. by vm_compute. Qed.

(** C4, amended. The chapters of a container that [create_cbz_archive]
    builds follow one another by the integer that the digits after the
    last hyphen of the folder name write (0 when there is none), smallest
    first, and folders with the same integer stay in the order they were
    given in.  So [Chapter 002] comes before [Chapter 010] and [chapter-2]
    before [chapter-10]. *)
Theorem chapters_ordered_by_trailing_number
    (manga_title : string) (chapter_folders : list string)
    (output_filename : option string) (d d' : disk) :
  create_cbz_archive manga_title chapter_folders output_filename d = (true, d') →
  ∃ order,
    archive_pages d' (cbz_file_name manga_title output_filename)
    = mjoin (folder_pages (files d) <$> order)
    ∧ order ≡ₚ chapter_folders
    ∧ StronglySorted (λ a b, chapter_sort_key a ≤ chapter_sort_key b) order
    ∧ (∀ k, filter (λ f, chapter_sort_key f = k) order
            = filter (λ f, chapter_sort_key f = k) chapter_folders)
    ∧ chapter_sort_key "Chapter 002" < chapter_sort_key "Chapter 010"
    ∧ chapter_sort_key "chapter-2" < chapter_sort_key "chapter-10".
Proof.
  intros Hcreate. exists (chapter_order chapter_folders).
  split; [by apply archive_pages_created|].
  split; [apply chapter_order_perm|].
  split; [apply (sort_by_key_sorted chapter_sort_key)|].
  split; [intros k; apply (sort_by_key_stable chapter_sort_key)|].
  by vm_compute.
Qed.

Lemma chapters_ordered_by_trailing_number_witness :
  ∃ order,
    archive_pages
      (create_cbz_archive "T" ["/t/vol-1-ch-2"; "/t/vol-2-ch-1"] (Some "/m/T.cbz")
         volumes_disk).2 (cbz_file_name "T" (Some "/m/T.cbz"))
    = mjoin (folder_pages (files volumes_disk) <$> order)
    ∧ order ≡ₚ ["/t/vol-1-ch-2"; "/t/vol-2-ch-1"]
    ∧ StronglySorted (λ a b, chapter_sort_key a ≤ chapter_sort_key b) order
    ∧ (∀ k, filter (λ f, chapter_sort_key f = k) order
            = filter (λ f, chapter_sort_key f = k) ["/t/vol-1-ch-2"; "/t/vol-2-ch-1"])
    ∧ chapter_sort_key "Chapter 002" < chapter_sort_key "Chapter 010"
    ∧ chapter_sort_key "chapter-2" < chapter_sort_key "chapter-10".
Proof.
  apply (chapters_ordered_by_trailing_number "T" ["/t/vol-1-ch-2"; "/t/vol-2-ch-1"]
           (Some "/m/T.cbz") volumes_disk).
  vm_compute. reflexivity.
Defined.

(** ** The order in which the downloads complete *)

(** C9, as stated, fails: the two downloads have the same sort key, and the
    container differs with the order in which they complete. *)
Lemma completion_order_shows_in_archive :
  archive_pages
    (sync_cbz_with_source site_with_special "/m/x.cbz" "https://m.example/manga/x/" []
       "/tmp/t" [chapter_1_url; special_1_url] (local_disk None)).2 "/m/x.cbz"
  ≠ archive_pages
      (sync_cbz_with_source site_with_special "/m/x.cbz" "https://m.example/manga/x/" []
         "/tmp/t" [special_1_url; chapter_1_url] (local_disk None)).2 "/m/x.cbz".
Proof. vm_compute. discriminate. Qed.

(** C9, amended. When the chapters that are downloaded have pairwise
    distinct sort keys (the integer after the last hyphen of the slug), the
    sync ends in the same state, with the same container, whatever the
    order in which the downloads complete. *)
Theorem sync_independent_of_completion_order
    (session : web) (cbz_path series_url : string) (exclude : list string)
    (temp_dir : string) (completed completed' : list string) (d : disk) :
  completed ≡ₚ completed' →
  NoDup ((λ u, chapter_sort_key (url_slug u)) <$> completed) →
  sync_cbz_with_source session cbz_path series_url exclude temp_dir completed d
  = sync_cbz_with_source session cbz_path series_url exclude temp_dir completed' d.
Proof.
  intros Hp Hnd. unfold sync_cbz_with_source.
  destruct (files d !! cbz_path) as [[zf| |]|]; try done.
  destruct (chapter_list session series_url) as [|u0 online]; [done|].
  destruct (urls_to_download zf (u0 :: online) exclude) as [|u urls]; [done|].
  pose proof (collect_paths_keys session (u :: urls) temp_dir
                (<[temp_dir := Directory ∅]> (files d)) completed) as Hkeys.
  destruct (chapter_workers session <=? 0); [done|].
  destruct (run_downloads session (u :: urls) temp_dir _) as [results fs]. simpl in Hkeys.
  rewrite (any_raised_perm results completed completed' Hp).
  destruct (any_raised results completed'); [done|].
  destruct (extractall zf temp_dir fs) as [fs'|]; [|done].
  rewrite (create_cbz_archive_app_perm _ _ (collect_paths results completed)
             (collect_paths results completed')); [done| |].
  - by apply collect_paths_perm.
  - by eapply sublist_NoDup.
Qed.

Lemma sync_independent_of_completion_order_witness :
  sync_cbz_with_source site_with_two_chapters "/m/x.cbz" "https://m.example/manga/x/" []
    "/tmp/t" [chapter_1_url; chapter_2_url] (local_disk None)
  = sync_cbz_with_source site_with_two_chapters "/m/x.cbz" "https://m.example/manga/x/" []
      "/tmp/t" [chapter_2_url; chapter_1_url] (local_disk None).
Proof.
  apply (sync_independent_of_completion_order site_with_two_chapters "/m/x.cbz"
           "https://m.example/manga/x/" [] "/tmp/t"
           [chapter_1_url; chapter_2_url] [chapter_2_url; chapter_1_url] (local_disk None)).
  - apply Permutation_swap.
  - vm_compute. apply NoDup_cons. split; [|apply NoDup_singleton].
    intros Hin%list_elem_of_singleton. discriminate.
Defined.

(** ** Writing over the archive *)

(** C2 fails on the sync: the container is opened for writing under the
    path of the archive itself.  Here the device takes the metadata entry
    and refuses the first page: the sync reports failure, and the archive
    has lost the page it had. *)
Theorem sync_overwrites_archive_in_place :
  let d := local_disk (Some 1%nat) in
  let r := sync_cbz_with_source site_with_special "/m/x.cbz" "https://m.example/manga/x/" []
             "/tmp/t" [chapter_1_url; special_1_url] d in
  r.1 = SyncFailed
  ∧ archive_pages d "/m/x.cbz" = [("chapter-0/page_001.jpg", "P0")]
  ∧ archive_pages r.2 "/m/x.cbz" = []
  ∧ files r.2 !! "/m/x.cbz" ≠ files d !! "/m/x.cbz".
Proof.
  vm_compute. split; [done|]. split; [done|]. split; [done|]. discriminate.
Qed.

(** * Further properties of the program *)

(** *** More on [create_cbz_archive] *)

Lemma list_filter_length_perm {A} (p : A → bool) l l' :
  l ≡ₚ l' → length (List.filter p l) = length (List.filter p l').
Proof.
  induction 1 as [|x l l' _ IH|x y l|l1 l2 l3 _ IH1 _ IH2]; simpl.
  - done.
  - destruct (p x); simpl; by rewrite IH.
  - destruct (p x), (p y); done.
  - by rewrite IH1.
Qed.

Lemma length_omap_page_entry folder l names :
  length (omap (page_entry_of folder l) names) = length (List.filter (isfile_in l) names).
Proof.
  induction names as [|n names IH]; [done|].
  change (omap (page_entry_of folder l) (n :: names))
    with (match page_entry_of folder l n with
          | Some y => y :: omap (page_entry_of folder l) names
          | None => omap (page_entry_of folder l) names
          end).
  change (List.filter (isfile_in l) (n :: names))
    with (if isfile_in l n then n :: List.filter (isfile_in l) names
          else List.filter (isfile_in l) names).
  unfold page_entry_of at 1, isfile_in at 1.
  destruct (l !! n) as [[c|]|]; simpl; by rewrite IH.
Qed.

Lemma num_images_folder_pages fs folder l :
  folder_listing fs folder = Some l →
  num_images l = Z.of_nat (length (folder_pages fs folder)).
Proof.
  intros Hl. rewrite (folder_pages_listing _ _ _ Hl), length_omap_page_entry.
  unfold num_images. f_equal.
  rewrite (list_filter_length_perm _ (sorted_names (listdir l)) (listdir l))
    by apply py_sorted_perm.
  unfold sorted_names. by rewrite (Permutation_length (py_sorted_perm _ _)).
Qed.

Lemma folder_pages_not_dir fs folder :
  folder_listing fs folder = None → folder_pages fs folder = [].
Proof. unfold folder_pages. by intros ->. Qed.

Lemma scan_folders_total fs folders acc :
  (foldl (scan_folder fs) acc folders).2
  = acc.2 + Z.of_nat (length (mjoin (folder_pages fs <$> folders))).
Proof.
  revert acc. induction folders as [|f folders IH]; intros acc; csimpl; [lia|].
  rewrite IH, length_app. unfold scan_folder.
  destruct (folder_listing fs f) as [l|] eqn:Hl.
  - destruct acc as [bms idx]. cbn [snd].
    rewrite (num_images_folder_pages _ _ _ Hl). lia.
  - rewrite (folder_pages_not_dir _ _ Hl). cbn [length]. lia.
Qed.

Lemma scan_folders_count fs folders :
  (scan_folders fs folders).2 = Z.of_nat (length (mjoin (folder_pages fs <$> folders))).
Proof. unfold scan_folders. by rewrite scan_folders_total. Qed.

(** X1. Whatever it returns, [create_cbz_archive] leaves every path other
    than that of the container as it was: the chapter folders it reads and
    all other files are not touched. *)
Theorem create_cbz_archive_frame
    (manga_title : string) (chapter_folders : list string)
    (output_filename : option string) (d : disk) (p : string) :
  p ≠ cbz_file_name manga_title output_filename →
  files (create_cbz_archive manga_title chapter_folders output_filename d).2 !! p
  = files d !! p.
Proof. apply create_cbz_archive_other_paths. Qed.

Lemma create_cbz_archive_frame_witness :
  files (create_cbz_archive "T" ["/t/vol-1-ch-2"; "/t/vol-2-ch-1"] (Some "/m/T.cbz")
           volumes_disk).2 !! "/t/vol-1-ch-2"
  = files volumes_disk !! "/t/vol-1-ch-2".
Proof.
  apply (create_cbz_archive_frame "T" ["/t/vol-1-ch-2"; "/t/vol-2-ch-1"] (Some "/m/T.cbz")
           volumes_disk "/t/vol-1-ch-2").
  vm_compute. discriminate.
Defined.

(** X2. In a container that [create_cbz_archive] has built, the page count
    written into the metadata document is the number of page entries of
    the container: the first entry is [ComicInfo.xml], generated for
    exactly as many pages as follow it. *)
Theorem create_cbz_archive_page_count
    (manga_title : string) (chapter_folders : list string)
    (output_filename : option string) (d d' : disk) :
  create_cbz_archive manga_title chapter_folders output_filename d = (true, d') →
  ∃ bookmarks pages,
    files d' !! cbz_file_name manga_title output_filename
    = Some (Archive (("ComicInfo.xml",
                      generate_comic_info_xml manga_title bookmarks (Z.of_nat (length pages)))
                     :: pages))
    ∧ pages = archive_pages d' (cbz_file_name manga_title output_filename)
    ∧ (0 < length pages)%nat.
Proof.
  intros Hcreate.
  pose proof (archive_pages_created _ _ _ _ _ Hcreate) as Hpages.
  apply create_cbz_archive_true in Hcreate as (Htotal & _ & Hfiles).
  exists (scan_folders (files d) (chapter_order chapter_folders)).1,
         (mjoin (folder_pages (files d) <$> chapter_order chapter_folders)).
  rewrite scan_folders_count in Htotal.
  split; [|split; [done|lia]].
  by rewrite Hfiles, lookup_insert_eq, scan_folders_count.
Qed.

Lemma create_cbz_archive_page_count_witness :
  ∃ bookmarks pages,
    files (create_cbz_archive "T" ["/t/vol-1-ch-2"; "/t/vol-2-ch-1"] (Some "/m/T.cbz")
             volumes_disk).2 !! cbz_file_name "T" (Some "/m/T.cbz")
    = Some (Archive (("ComicInfo.xml",
                      generate_comic_info_xml "T" bookmarks (Z.of_nat (length pages)))
                     :: pages))
    ∧ pages = archive_pages
                (create_cbz_archive "T" ["/t/vol-1-ch-2"; "/t/vol-2-ch-1"] (Some "/m/T.cbz")
                   volumes_disk).2 (cbz_file_name "T" (Some "/m/T.cbz"))
    ∧ (0 < length pages)%nat.
Proof.
  apply (create_cbz_archive_page_count "T" ["/t/vol-1-ch-2"; "/t/vol-2-ch-1"]
           (Some "/m/T.cbz") volumes_disk).
  vm_compute. reflexivity.
Defined.

(** *** What a build that stops has written *)

Lemma zip_write_state name data w :
  ∃ k, written (outcome_state (zip_write name data w)) = written w ++ k
       ∧ k `prefix_of` [(name, data)].
Proof.
  unfold zip_write. destruct (accepts w) as [[|n]|]; simpl.
  - exists []. rewrite app_nil_r. split; [done|by eexists].
  - by exists [(name, data)].
  - by exists [(name, data)].
Qed.

Lemma write_images_state folder l images w :
  ∃ k, written (outcome_state (write_images folder l images w)) = written w ++ k
       ∧ k `prefix_of` omap (page_entry_of folder l) images.
Proof.
  revert w. induction images as [|n images IH]; intros w.
  - exists []. simpl. rewrite app_nil_r. split; [done|by eexists].
  - change (omap (page_entry_of folder l) (n :: images))
      with (match page_entry_of folder l n with
            | Some y => y :: omap (page_entry_of folder l) images
            | None => omap (page_entry_of folder l) images
            end).
    simpl. unfold page_entry_of at 1.
    destruct (l !! n) as [[content|]|]; [|apply IH..].
    destruct (zip_write _ content w) as [w1|w1] eqn:Hw.
    + destruct (IH w1) as (k & Hk & Hp). apply zip_write_ok in Hw.
      exists ((Path.basename folder +:+ "/" +:+ n, content) :: k).
      split; [|by apply prefix_cons].
      rewrite Hk, Hw, <- app_assoc. done.
    + apply zip_write_raised in Hw as [-> _]. exists []. simpl.
      rewrite app_nil_r. split; [done|by eexists].
Qed.

Lemma write_folders_state fs folders w :
  ∃ k, written (outcome_state (write_folders fs folders w)) = written w ++ k
       ∧ k `prefix_of` mjoin (folder_pages fs <$> folders).
Proof.
  revert w. induction folders as [|f folders IH]; intros w; csimpl.
  - exists []. rewrite app_nil_r. split; [done|by eexists].
  - destruct (folder_listing fs f) as [l|] eqn:Hl.
    + rewrite (folder_pages_listing _ _ _ Hl).
      pose proof (write_images_state f l (sorted_names (listdir l)) w) as (k & Hk & Hp).
      destruct (write_images f l _ w) as [w1|w1] eqn:Hw; simpl in Hk.
      * apply write_images_ok in Hw.
        destruct (IH w1) as (k' & Hk' & Hp').
        exists (omap (page_entry_of f l) (sorted_names (listdir l)) ++ k').
        split; [by rewrite Hk', Hw, <- app_assoc|]. by apply prefix_app.
      * exists k. split; [done|]. by apply prefix_app_r.
    + exists []. rewrite app_nil_r. split; [done|by eexists].
Qed.

Lemma write_cbz_state fs comic_info_content folders left :
  written (outcome_state (write_cbz fs comic_info_content folders (ZipWriter [] left)))
  `prefix_of` ("ComicInfo.xml", comic_info_content) :: mjoin (folder_pages fs <$> folders).
Proof.
  unfold write_cbz.
  destruct (zip_write _ _ _) as [w1|w1] eqn:Hw.
  - apply zip_write_ok in Hw. simpl in Hw.
    destruct (write_folders_state fs folders w1) as (k & -> & Hp).
    rewrite Hw. simpl. by apply prefix_cons.
  - apply zip_write_raised in Hw as [-> _]. by eexists.
Qed.

Lemma elem_of_planned_pages fs folders folder l name content :
  folder ∈ folders → folder_listing fs folder = Some l → l !! name = Some (Page content) →
  (scan_folders fs (chapter_order folders)).2 ≠ 0.
Proof.
  intros Hin Hl Hn. rewrite scan_folders_count.
  assert ((Path.basename folder +:+ "/" +:+ name, content)
            ∈ mjoin (folder_pages fs <$> chapter_order folders)) as He.
  { apply list_elem_of_join. exists (folder_pages fs folder). split.
    - by apply folder_pages_elem with l.
    - apply list_elem_of_fmap. exists folder. split; [done|].
      by rewrite chapter_order_perm. }
  destruct (mjoin _); [by apply elem_of_nil in He|]. simpl. lia.
Qed.

(** X3. Whatever [create_cbz_archive] returns, the path of the container
    holds afterwards either what it held before or a container with a
    prefix of the entries the build sets out to write, the metadata
    document first and then the pages of the folders in their order; when
    it returns [True] the container holds all of them.  So a build that
    fails can leave a truncated container, and nothing else. *)
Theorem create_cbz_archive_leaves_prefix
    (manga_title : string) (chapter_folders : list string)
    (output_filename : option string) (d : disk) :
  let name := cbz_file_name manga_title output_filename in
  let planned := planned_entries (files d) manga_title chapter_folders in
  let r := create_cbz_archive manga_title chapter_folders output_filename d in
  (r.1 = true → files r.2 !! name = Some (Archive planned))
  ∧ (files r.2 !! name = files d !! name
     ∨ ∃ entries, files r.2 !! name = Some (Archive entries) ∧ entries `prefix_of` planned).
Proof.
  intros name planned r. split.
  - destruct r as [ok d'] eqn:Hr. cbn [fst snd]. intros ->.
    pose proof (create_cbz_archive_true _ _ _ _ _ Hr) as (_ & _ & Hfiles).
    rewrite Hfiles. by rewrite lookup_insert_eq.
  - unfold r, planned, name, create_cbz_archive, planned_entries, chapter_order.
    fold (cbz_file_name manga_title output_filename).
    destruct (scan_folders _ _) as [bookmarks total]. cbn [fst snd].
    destruct (Z.eqb_spec total 0) as [|_]; [by left|].
    pose proof (write_cbz_state (files d)
                  (generate_comic_info_xml manga_title bookmarks total)
                  (sort_by_key chapter_sort_key chapter_folders) (writes_left d)) as Hp.
    destruct (files d !! cbz_file_name manga_title output_filename) as [[| |listing]|] eqn:Hf;
      [..|by left|];
      destruct (write_cbz _ _ _ _) as [w|w]; cbn [fst snd files outcome_state] in *;
      right; eexists; rewrite lookup_insert_eq; (split; [done|exact Hp]).
Qed.

(** *** When the build succeeds *)

Lemma create_cbz_archive_unlimited manga_title chapter_folders output_filename d :
  writes_left d = None →
  (scan_folders (files d) (chapter_order chapter_folders)).2 ≠ 0 →
  (∀ listing, files d !! cbz_file_name manga_title output_filename
              ≠ Some (Directory listing)) →
  Forall (λ f, isdir (files d) f = true) (chapter_order chapter_folders) →
  create_cbz_archive manga_title chapter_folders output_filename d
  = (true, Disk (<[cbz_file_name manga_title output_filename :=
                     Archive (planned_entries (files d) manga_title chapter_folders)]>
                   (files d)) None).
Proof.
  intros Hleft Htotal Hout Hdirs. unfold create_cbz_archive, planned_entries, chapter_order in *.
  fold (cbz_file_name manga_title output_filename).
  destruct (scan_folders _ _) as [bookmarks total]. simpl in *.
  destruct (Z.eqb_spec total 0) as [|_]; [done|].
  unfold write_cbz. rewrite Hleft.
  rewrite zip_write_unlimited by done.
  rewrite write_folders_unlimited by done. simpl.
  destruct (files d !! cbz_file_name manga_title output_filename) as [[| |listing]|] eqn:Hf;
    try done. by destruct (Hout listing).
Qed.

Lemma folder_pages_elem_inv fs folder e :
  e ∈ folder_pages fs folder →
  ∃ l name content, folder_listing fs folder = Some l ∧ l !! name = Some (Page content).
Proof.
  unfold folder_pages. destruct (folder_listing fs folder) as [l|]; [|by intros ?%elem_of_nil].
  intros (name & _ & He)%list_elem_of_omap.
  destruct (l !! name) as [[content|]|] eqn:Hn; [|done..]. by exists l, name, content.
Qed.

Lemma create_cbz_archive_true_inv manga_title chapter_folders output_filename d :
  (create_cbz_archive manga_title chapter_folders output_filename d).1 = true →
  (∃ folder l name content,
     folder ∈ chapter_folders ∧ folder_listing (files d) folder = Some l
     ∧ l !! name = Some (Page content))
  ∧ (∀ listing, files d !! cbz_file_name manga_title output_filename
                ≠ Some (Directory listing))
  ∧ Forall (λ f, isdir (files d) f = true) chapter_folders.
Proof.
  destruct (create_cbz_archive _ _ _ d) as [ok d'] eqn:Hcreate. simpl. intros ->.
  pose proof (create_cbz_archive_true _ _ _ _ _ Hcreate) as (Htotal & Hdirs & _).
  split; [|split].
  - rewrite scan_folders_count in Htotal.
    destruct (mjoin _) as [|e pages] eqn:Hj; [done|].
    assert (e ∈ mjoin (folder_pages (files d) <$> chapter_order chapter_folders)) as He
      by (rewrite Hj; left).
    apply list_elem_of_join in He as (pages' & He & Hin).
    apply list_elem_of_fmap in Hin as (folder & -> & Hin).
    apply folder_pages_elem_inv in He as (l & name & content & Hl & Hn).
    exists folder, l, name, content. split; [|done].
    by rewrite <- (chapter_order_perm chapter_folders).
  - intros listing Hf. unfold create_cbz_archive in Hcreate.
    fold (cbz_file_name manga_title output_filename) in Hcreate.
    destruct (scan_folders _ _) as [bookmarks total].
    destruct (total =? 0); [by simplify_eq|]. rewrite Hf in Hcreate. by simplify_eq.
  - by rewrite <- (chapter_order_perm chapter_folders).
Qed.

(** X4. [create_cbz_archive] returns [True] only if some folder of the
    list holds a regular file, the path of the container is not a
    directory, and every element of the list is a directory: a single
    element that is no directory makes the whole build fail, although the
    page count passes it over. *)
Theorem create_cbz_archive_succeeds_only_if
    (manga_title : string) (chapter_folders : list string)
    (output_filename : option string) (d : disk) :
  (create_cbz_archive manga_title chapter_folders output_filename d).1 = true →
  (∃ folder l name content,
     folder ∈ chapter_folders ∧ folder_listing (files d) folder = Some l
     ∧ l !! name = Some (Page content))
  ∧ (∀ listing, files d !! cbz_file_name manga_title output_filename
                ≠ Some (Directory listing))
  ∧ Forall (λ f, isdir (files d) f = true) chapter_folders.
Proof. apply create_cbz_archive_true_inv. Qed.

Lemma create_cbz_archive_succeeds_only_if_witness :
  (∃ folder l name content,
     folder ∈ ["/t/vol-1-ch-2"; "/t/vol-2-ch-1"]
     ∧ folder_listing (files volumes_disk) folder = Some l
     ∧ l !! name = Some (Page content))
  ∧ (∀ listing, files volumes_disk !! cbz_file_name "T" (Some "/m/T.cbz")
                ≠ Some (Directory listing))
  ∧ Forall (λ f, isdir (files volumes_disk) f = true) ["/t/vol-1-ch-2"; "/t/vol-2-ch-1"].
Proof.
  apply (create_cbz_archive_succeeds_only_if "T" ["/t/vol-1-ch-2"; "/t/vol-2-ch-1"]
           (Some "/m/T.cbz") volumes_disk).
  vm_compute. reflexivity.
Defined.

(** One folder of the list is missing: the first folder has a page, the
    container is opened, and the build fails after the page was written. *)
Example missing_folder_fails_the_build :
  let r := create_cbz_archive "T" ["/t/chapter-1"; "/t/chapter-2"] (Some "/m/T.cbz")
             broken_list_disk in
  r.1 = false ∧ archive_pages r.2 "/m/T.cbz" = [("chapter-1/page_001.jpg", "one")].
Proof. by vm_compute. Qed.

(** *** Building twice *)

Lemma folder_listing_after_build fs name entries f :
  (∀ listing, fs !! name ≠ Some (Directory listing)) →
  folder_listing (<[name := Archive entries]> fs) f = folder_listing fs f.
Proof.
  intros Hout. unfold folder_listing. destruct (decide (name = f)) as [->|Hne].
  - rewrite lookup_insert_eq. destruct (fs !! f) as [[| |listing]|] eqn:Hf; try done.
    by destruct (Hout listing).
  - by rewrite lookup_insert_ne.
Qed.

Lemma scan_folders_ext fs1 fs2 folders :
  (∀ f, folder_listing fs1 f = folder_listing fs2 f) →
  scan_folders fs1 folders = scan_folders fs2 folders.
Proof.
  intros Hext. unfold scan_folders. generalize (([] : list (Z * string)), 0).
  induction folders as [|f folders IH]; intros acc; simpl; [done|].
  rewrite IH. f_equal. unfold scan_folder. by rewrite Hext.
Qed.

Lemma folder_pages_ext fs1 fs2 (folders : list string) :
  (∀ f, folder_listing fs1 f = folder_listing fs2 f) →
  folder_pages fs1 <$> folders = folder_pages fs2 <$> folders.
Proof.
  intros Hext. apply list_fmap_ext. intros _ f _. unfold folder_pages. by rewrite Hext.
Qed.

(** X5. On a device that takes every write, building again from the state
    a successful build has left gives the same container and the same
    state: the build is idempotent. *)
Theorem create_cbz_archive_idempotent
    (manga_title : string) (chapter_folders : list string)
    (output_filename : option string) (d d' : disk) :
  writes_left d = None →
  create_cbz_archive manga_title chapter_folders output_filename d = (true, d') →
  create_cbz_archive manga_title chapter_folders output_filename d' = (true, d').
Proof.
  intros Hleft Hcreate.
  assert ((create_cbz_archive manga_title chapter_folders output_filename d).1 = true)
    as Hok by (by rewrite Hcreate).
  apply create_cbz_archive_true_inv in Hok as (Hpage & Hout & Hdirs).
  destruct Hpage as (folder & l & name & content & Hin & Hl & Hn).
  pose proof (elem_of_planned_pages _ _ _ _ _ _ Hin Hl Hn) as Htotal.
  rewrite create_cbz_archive_unlimited in Hcreate;
    [|done..|by rewrite (chapter_order_perm chapter_folders)].
  injection Hcreate as <-.
  set (name' := cbz_file_name manga_title output_filename) in *.
  set (entries := planned_entries (files d) manga_title chapter_folders).
  assert (∀ f, folder_listing (<[name' := Archive entries]> (files d)) f
               = folder_listing (files d) f) as Hext
    by (intros f; by apply folder_listing_after_build).
  rewrite create_cbz_archive_unlimited; simpl.
  - f_equal. f_equal. rewrite insert_insert_eq. f_equal. f_equal.
    unfold planned_entries, entries.
    by rewrite (scan_folders_ext _ _ _ Hext), (folder_pages_ext _ _ _ Hext).
  - done.
  - by rewrite (scan_folders_ext _ _ _ Hext).
  - intros listing. fold name'. by rewrite lookup_insert_eq.
  - rewrite (chapter_order_perm chapter_folders).
    eapply Forall_impl; [exact Hdirs|]. intros f Hf. unfold isdir in *. by rewrite Hext.
Qed.

Lemma create_cbz_archive_idempotent_witness :
  create_cbz_archive "T" ["/t/vol-1-ch-2"; "/t/vol-2-ch-1"] (Some "/m/T.cbz")
    (create_cbz_archive "T" ["/t/vol-1-ch-2"; "/t/vol-2-ch-1"] (Some "/m/T.cbz")
       volumes_disk).2
  = (true, (create_cbz_archive "T" ["/t/vol-1-ch-2"; "/t/vol-2-ch-1"] (Some "/m/T.cbz")
              volumes_disk).2).
Proof.
  apply (create_cbz_archive_idempotent "T" ["/t/vol-1-ch-2"; "/t/vol-2-ch-1"]
           (Some "/m/T.cbz") volumes_disk).
  - reflexivity.
  - vm_compute. reflexivity.
Defined.

(** *** The cover *)

Lemma scan_folder_bookmarks fs folders bookmarks idx :
  (foldl (scan_folder fs) (bookmarks, idx) folders).1
  = bookmarks ++ bookmarks_from fs idx folders.
Proof.
  revert bookmarks idx. induction folders as [|f folders IH]; intros bookmarks idx; simpl.
  - by rewrite app_nil_r.
  - unfold scan_folder at 2. destruct (folder_listing fs f) as [l|]; [|apply IH].
    rewrite IH, <- app_assoc. done.
Qed.

Lemma num_images_nonneg l : 0 ≤ num_images l.
Proof. unfold num_images. lia. Qed.

Lemma bookmarks_from_ge fs idx folders b :
  b ∈ bookmarks_from fs idx folders → idx ≤ b.1.
Proof.
  revert idx. induction folders as [|f folders IH]; intros idx; simpl.
  - by intros ?%elem_of_nil.
  - destruct (folder_listing fs f) as [l|]; [|apply IH].
    intros [->|Hin]%elem_of_cons; [simpl; lia|].
    apply IH in Hin. pose proof (num_images_nonneg l). lia.
Qed.

Lemma bookmarks_from_app_empty fs idx before rest :
  Forall (λ f, isdir fs f = true) before →
  Forall (λ f, folder_pages fs f = []) before →
  bookmarks_from fs idx (before ++ rest)
  = ((λ f, (idx, clean_chapter_title (Path.basename f))) <$> before)
    ++ bookmarks_from fs idx rest.
Proof.
  induction before as [|f before IH]; intros Hd He; csimpl; [done|].
  apply Forall_cons in Hd as [Hf Hd]. apply Forall_cons in He as [Hp He].
  unfold isdir in Hf. destruct (folder_listing fs f) as [l|] eqn:Hl; [|done].
  rewrite (num_images_folder_pages _ _ _ Hl), Hp. simpl.
  rewrite Z.add_0_r. f_equal. by apply IH.
Qed.

Lemma first_nonempty {A B} (g : A → list B) (l : list A) :
  mjoin (g <$> l) ≠ [] →
  ∃ before x after,
    l = before ++ x :: after ∧ Forall (λ f, g f = []) before ∧ g x ≠ [].
Proof.
  induction l as [|x l IH]; csimpl; [done|].
  destruct (g x) as [|e es] eqn:Hx; simpl.
  - intros Hne. destruct (IH Hne) as (before & y & after & -> & Hb & Hy).
    exists (x :: before), y, after. split; [done|]. split; [by constructor|done].
  - intros _. exists [], x, l. split; [done|]. split; [constructor|]. by rewrite Hx.
Qed.

Lemma last_bookmark_cover (pre post : list (Z * string)) t :
  Forall (λ b, b.1 = 0) pre → Forall (λ b, 0 < b.1) post →
  last_bookmark 0 (pre ++ (0, t) :: post) = Some t
  ∧ first_bookmark (pre ++ (0, t) :: post) = 0.
Proof.
  intros Hpre Hpost. split.
  - unfold last_bookmark. rewrite filter_app, filter_cons_True by done.
    assert (filter (λ b : Z * string, b.1 = 0) post = []) as ->.
    { induction Hpost as [|b post Hb _ IH]; [done|].
      rewrite filter_cons. case_decide; [lia|done]. }
    by rewrite last_snoc.
  - destruct Hpre as [|b pre Hb _]; simpl; done.
Qed.

(** X6. In a container that [create_cbz_archive] has built, the first page
    entry of the metadata document is the cover: it has image index 0, type
    [FrontCover], and as its bookmark the title of the first chapter, in
    the order of the container, that has a page (chapters without pages
    that come before it leave no bookmark). *)
Theorem create_cbz_archive_cover
    (manga_title : string) (chapter_folders : list string)
    (output_filename : option string) (d d' : disk) :
  create_cbz_archive manga_title chapter_folders output_filename d = (true, d') →
  ∃ before folder after total pages rest,
    chapter_order chapter_folders = before ++ folder :: after
    ∧ Forall (λ f, folder_pages (files d) f = []) before
    ∧ folder_pages (files d) folder ≠ []
    ∧ files d' !! cbz_file_name manga_title output_filename
      = Some (Archive
                (("ComicInfo.xml",
                  xml_prologue (escape_text manga_title) total
                  +:+ bookmarked_page 0
                        (escape_attribute (clean_chapter_title (Path.basename folder)))
                        "FrontCover"
                  +:+ rest) :: pages)).
Proof.
  intros Hcreate.
  apply create_cbz_archive_true in Hcreate as (Htotal & Hdirs & Hfiles).
  pose proof Htotal as Hcount. rewrite scan_folders_count in Hcount.
  assert (mjoin (folder_pages (files d) <$> chapter_order chapter_folders) ≠ []) as Hne.
  { intros Heq. rewrite Heq in Hcount. done. }
  apply first_nonempty in Hne as (before & folder & after & Horder & Hempty & Hfolder).
  exists before, folder, after.
  rewrite Hfiles, lookup_insert_eq.
  set (scan := scan_folders (files d) (chapter_order chapter_folders)) in *.
  assert (scan.1 = bookmarks_from (files d) 0 (chapter_order chapter_folders)) as Hbms.
  { unfold scan, scan_folders. by rewrite scan_folder_bookmarks. }
  rewrite Horder in Hdirs, Hbms. apply Forall_app in Hdirs as [Hdb Hdf].
  apply Forall_cons in Hdf as [Hdfolder _].
  rewrite bookmarks_from_app_empty in Hbms by done. simpl in Hbms.
  unfold isdir in Hdfolder.
  destruct (folder_listing (files d) folder) as [l|] eqn:Hl; [|done].
  assert (0 < num_images l) as Hpos.
  { rewrite (num_images_folder_pages _ _ _ Hl).
    destruct (folder_pages (files d) folder); [done|]. simpl. lia. }
  destruct (last_bookmark_cover
              ((λ f, (0, clean_chapter_title (Path.basename f))) <$> before)
              (bookmarks_from (files d) (0 + num_images l) after)
              (clean_chapter_title (Path.basename folder))) as [Hlast Hfirst].
  { apply Forall_fmap, Forall_forall. done. }
  { apply Forall_forall. intros b Hb. apply bookmarks_from_ge in Hb. lia. }
  rewrite <- Hbms in Hlast, Hfirst.
  rewrite generate_comic_info_xml_unfold.
  assert (range scan.2 = 0 :: (Z.of_nat <$> seq 1 (Z.to_nat scan.2 - 1))) as Hrange.
  { pose proof (scan_folders_count (files d) (chapter_order chapter_folders)) as Hc.
    fold scan in Hc.
    unfold range. destruct (Z.to_nat scan.2) as [|n] eqn:Hn; [lia|].
    simpl. by rewrite Nat.sub_0_r. }
  rewrite Hrange, fmap_cons.
  assert (∀ x l, concat_strings (x :: l) = x +:+ concat_strings l) as -> by done.
  unfold page_entry at 1.
  rewrite bookmark_dict_lookup, Hlast, Hfirst. rewrite decide_True by done.
  eexists scan.2, _, _. split_and!; [done..|].
  rewrite !append_assoc. reflexivity.
Qed.

Lemma create_cbz_archive_cover_witness :
  ∃ before folder after total pages rest,
    chapter_order ["/t/vol-1-ch-2"; "/t/vol-2-ch-1"] = before ++ folder :: after
    ∧ Forall (λ f, folder_pages (files volumes_disk) f = []) before
    ∧ folder_pages (files volumes_disk) folder ≠ []
    ∧ files (create_cbz_archive "T" ["/t/vol-1-ch-2"; "/t/vol-2-ch-1"] (Some "/m/T.cbz")
               volumes_disk).2 !! cbz_file_name "T" (Some "/m/T.cbz")
      = Some (Archive
                (("ComicInfo.xml",
                  xml_prologue (escape_text "T") total
                  +:+ bookmarked_page 0
                        (escape_attribute (clean_chapter_title (Path.basename folder)))
                        "FrontCover"
                  +:+ rest) :: pages)).
Proof.
  apply (create_cbz_archive_cover "T" ["/t/vol-1-ch-2"; "/t/vol-2-ch-1"]
           (Some "/m/T.cbz") volumes_disk).
  vm_compute. reflexivity.
Defined.

(** *** More on [update_local_cbz] *)

Lemma cleanup_temp_frame temp_cbz_path left fs p :
  p ≠ temp_cbz_path →
  files (cleanup_temp temp_cbz_path left fs).2 !! p = fs !! p.
Proof.
  intros Hp. unfold cleanup_temp.
  destruct (fs !! temp_cbz_path) as [[| |]|]; simpl; by rewrite ?lookup_delete_ne.
Qed.

Lemma update_local_cbz_other_paths cbz_path custom_title force_overwrite d p :
  p ≠ cbz_path → p ≠ cbz_path +:+ ".tmp" →
  files (update_local_cbz cbz_path custom_title force_overwrite d).2 !! p = files d !! p.
Proof.
  intros Hp Htmp. unfold update_local_cbz.
  destruct (negb _); [done|].
  destruct (files d !! cbz_path) as [[zf| |]|]; try done.
  destruct (_ && _); [done|].
  destruct (sorted_names _) as [|f image_files]; [done|].
  destruct (group_chapters _) as [chapters|]; [|done].
  destruct (foldl _ _ _) as [[bookmarks idx] total].
  destruct (total =? 0); [done|].
  destruct (files d !! (cbz_path +:+ ".tmp")) as [[| |]|];
    try (by apply cleanup_temp_frame);
    (destruct (match zip_write _ _ _ with Ok w => _ | Raised w => Raised w end) as [w|w];
     [simpl; by rewrite lookup_insert_ne, lookup_delete_ne
     |rewrite cleanup_temp_frame by done; by rewrite lookup_insert_ne]).
Qed.

(** X7. [update_local_cbz] works on the archive and on its temporary
    neighbour [cbz_path + ".tmp"] only: every other path holds after the
    call what it held before, whatever the call returns. *)
Theorem update_local_cbz_frame
    (cbz_path : string) (custom_title : option string) (force_overwrite : bool)
    (d : disk) (p : string) :
  p ≠ cbz_path → p ≠ cbz_path +:+ ".tmp" →
  files (update_local_cbz cbz_path custom_title force_overwrite d).2 !! p = files d !! p.
Proof. apply update_local_cbz_other_paths. Qed.

Lemma update_local_cbz_frame_witness :
  files (update_local_cbz "/m/my-manga.cbz" None false (flat_disk None)).2 !! "/m/other.cbz"
  = files (flat_disk None) !! "/m/other.cbz".
Proof.
  apply (update_local_cbz_frame "/m/my-manga.cbz" None false (flat_disk None) "/m/other.cbz").
  - discriminate.
  - vm_compute. discriminate.
Defined.



(** *** The grouping into chapters *)

Lemma setdefault_append_keys key item chapters :
  (setdefault_append key item chapters).*1
  = if bool_decide (key ∈ chapters.*1) then chapters.*1 else chapters.*1 ++ [key].
Proof.
  induction chapters as [|[k v] chapters IH]; csimpl; [done|].
  destruct (String.eqb_spec k key) as [->|Hne]; csimpl.
  - rewrite bool_decide_true by left. done.
  - rewrite IH. destruct (bool_decide (key ∈ chapters.*1)) eqn:Hin.
    + apply bool_decide_eq_true in Hin. rewrite bool_decide_true by (by right). done.
    + apply bool_decide_eq_false in Hin. rewrite bool_decide_false; [done|].
      intros [?|?]%elem_of_cons; done.
Qed.

Lemma setdefault_append_NoDup key item chapters :
  NoDup chapters.*1 → NoDup (setdefault_append key item chapters).*1.
Proof.
  intros Hnd. rewrite setdefault_append_keys. case_bool_decide as Hin; [done|].
  apply NoDup_app. split; [done|]. split; [|apply NoDup_singleton].
  intros x Hx ->%list_elem_of_singleton. done.
Qed.

Lemma setdefault_append_items key item chapters :
  mjoin (setdefault_append key item chapters).*2 ≡ₚ item :: mjoin chapters.*2.
Proof.
  induction chapters as [|[k v] chapters IH]; csimpl; [done|].
  destruct (String.eqb k key); csimpl.
  - rewrite <- app_assoc. simpl. symmetry. apply Permutation_middle.
  - rewrite IH. symmetry. apply Permutation_middle.
Qed.

Lemma group_by_key_snoc chapter_key image_files item :
  group_by_key chapter_key (image_files ++ [item])
  = setdefault_append (chapter_key item) item (group_by_key chapter_key image_files).
Proof. unfold group_by_key. by rewrite foldl_app. Qed.

Lemma group_by_key_NoDup chapter_key image_files :
  NoDup (group_by_key chapter_key image_files).*1.
Proof.
  induction image_files as [|item image_files IH] using rev_ind; [constructor|].
  rewrite group_by_key_snoc. by apply setdefault_append_NoDup.
Qed.

Lemma group_by_key_items chapter_key image_files :
  mjoin (group_by_key chapter_key image_files).*2 ≡ₚ image_files.
Proof.
  induction image_files as [|item image_files IH] using rev_ind; [done|].
  rewrite group_by_key_snoc, setdefault_append_items, IH.
  by rewrite <- Permutation_cons_append.
Qed.

Lemma group_chapters_Some image_files chapters :
  group_chapters image_files = Some chapters →
  ∃ chapter_key, chapters = group_by_key chapter_key image_files.
Proof.
  unfold group_chapters. case_bool_decide.
  - destruct (_ && _); [done|]. intros [= <-]. by exists chapter_key_of_filename.
  - intros [= <-]. by exists Path.dirname.
Qed.

(** *** The page count of the update *)

Lemma dict_get_cons_ne k v key chapters :
  k ≠ key → dict_get key ((k, v) :: chapters) = dict_get key chapters.
Proof.
  intros Hne. unfold dict_get. simpl. by destruct (String.eqb_spec k key).
Qed.

Lemma dict_get_cons_eq k v chapters : dict_get k ((k, v) :: chapters) = v.
Proof. unfold dict_get. simpl. by rewrite String.eqb_refl. Qed.

Lemma count_chapter_total chapters keys bookmarks idx total :
  (foldl (count_chapter chapters) (bookmarks, idx, total) keys).2
  = total + Z.of_nat (length (mjoin ((λ k, dict_get k chapters) <$> keys))).
Proof.
  revert bookmarks idx total. induction keys as [|k keys IH]; intros bookmarks idx total; csimpl.
  - lia.
  - rewrite IH, length_app. lia.
Qed.

Lemma count_chapter_bookmarks chapters keys bookmarks idx total :
  length (foldl (count_chapter chapters) (bookmarks, idx, total) keys).1.1
  = (length bookmarks + length keys)%nat.
Proof.
  revert bookmarks idx total. induction keys as [|k keys IH]; intros bookmarks idx total; csimpl.
  - lia.
  - rewrite IH, length_app. simpl. lia.
Qed.

Lemma dict_get_all (chapters : list (string * list string)) :
  NoDup chapters.*1 →
  (λ k, dict_get k chapters) <$> chapters.*1 = chapters.*2.
Proof.
  induction chapters as [|[k v] chapters IH]; csimpl; [done|].
  intros [Hk Hnd]%NoDup_cons. rewrite dict_get_cons_eq. f_equal.
  rewrite <- IH by done. apply list_fmap_ext. intros i key Hkey.
  apply dict_get_cons_ne. intros Heq. apply Hk. rewrite Heq.
  by eapply list_elem_of_lookup_2.
Qed.

Lemma length_join_perm {A} (l1 l2 : list (list A)) :
  l1 ≡ₚ l2 → length (mjoin l1) = length (mjoin l2).
Proof. intros Hp. by rewrite Hp. Qed.

Lemma count_chapter_sorted_total chapters :
  NoDup chapters.*1 →
  (foldl (count_chapter chapters) ([], 0, 0) (sorted_names chapters.*1)).2
  = Z.of_nat (length (mjoin chapters.*2)).
Proof.
  intros Hnd. rewrite count_chapter_total, Z.add_0_l. f_equal.
  rewrite <- (dict_get_all chapters Hnd).
  apply length_join_perm. apply fmap_Permutation. apply py_sorted_perm.
Qed.

(** *** What a successful update writes *)

Lemma omap_cons_match {A B} (f : A → option B) x l :
  omap f (x :: l) = match f x with Some y => y :: omap f l | None => omap f l end.
Proof. done. Qed.

Lemma rewrite_images_ok zf chapter_folder image_list w w' :
  rewrite_images zf chapter_folder image_list w = Ok w' →
  written w' = written w ++ omap (regrouped_page zf chapter_folder) image_list
  ∧ length (omap (regrouped_page zf chapter_folder) image_list) = length image_list.
Proof.
  revert w. induction image_list as [|item items IH]; intros w.
  - simpl. intros [= <-]. by rewrite app_nil_r.
  - rewrite omap_cons_match. cbn [rewrite_images].
    destruct (zip_read zf item) as [data|] eqn:Hread; [|done].
    assert (regrouped_page zf chapter_folder item
            = Some (chapter_folder +:+ "/" +:+ Path.basename item, data)) as ->
      by (unfold regrouped_page; by rewrite Hread).
    destruct (zip_write _ data w) as [w1|w1] eqn:Hw; [|done].
    intros Hr. apply IH in Hr as [Hr Hlen]. apply zip_write_ok in Hw.
    rewrite Hr, Hw, <- app_assoc. cbn [length app]. by rewrite Hlen.
Qed.

Lemma rewrite_chapters_ok zf chapters w w' :
  rewrite_chapters zf chapters w = Ok w' →
  written w' = written w ++ mjoin ((λ kv, omap (regrouped_page zf kv.1) kv.2) <$> chapters)
  ∧ length (mjoin ((λ kv, omap (regrouped_page zf kv.1) kv.2) <$> chapters))
    = length (mjoin chapters.*2).
Proof.
  revert w. induction chapters as [|[key items] chapters IH]; intros w; csimpl.
  - intros [= <-]. by rewrite app_nil_r.
  - destruct (rewrite_images zf key items w) as [w1|w1] eqn:Hw; [|done].
    intros Hr. apply IH in Hr as [Hr Hlen]. apply rewrite_images_ok in Hw as [Hw Hlen1].
    rewrite Hr, Hw, <- app_assoc, !length_app, Hlen, Hlen1. done.
Qed.

Lemma cleanup_temp_not_success temp_cbz_path left fs n c :
  (cleanup_temp temp_cbz_path left fs).1 ≠ Success n c.
Proof. unfold cleanup_temp. by destruct (fs !! temp_cbz_path) as [[| |]|]. Qed.

Lemma update_local_cbz_success_inv cbz_path custom_title force_overwrite d n c d' :
  update_local_cbz cbz_path custom_title force_overwrite d = (Success n c, d') →
  ∃ zf chapters bookmarks idx xml w0 w,
    Str.endswith ".cbz" (Str.lower cbz_path) = true
    ∧ files d !! cbz_path = Some (Archive zf)
    ∧ group_chapters (sorted_names (List.filter is_image_entry (namelist zf))) = Some chapters
    ∧ foldl (count_chapter chapters) ([], 0, 0) (sorted_names chapters.*1)
      = (bookmarks, idx, n)
    ∧ c = length bookmarks
    ∧ zip_write "ComicInfo.xml" xml (ZipWriter [] (writes_left d)) = Ok w0
    ∧ rewrite_chapters zf chapters w0 = Ok w
    ∧ d' = Disk (<[cbz_path := Archive (written w)]>
                   (delete (cbz_path +:+ ".tmp") (files d))) (accepts w).
Proof.
  unfold update_local_cbz.
  destruct (Str.endswith ".cbz" (Str.lower cbz_path)) eqn:Hext; [|done]. simpl.
  destruct (files d !! cbz_path) as [[zf| |]|] eqn:Hzf; try done.
  destruct (_ && _); [done|].
  destruct (sorted_names (List.filter is_image_entry (namelist zf)))
    as [|f image_files] eqn:Himg; [done|].
  destruct (group_chapters _) as [chapters|] eqn:Hgroup; [|done].
  destruct (foldl _ _ _) as [[bookmarks idx] total] eqn:Hcount.
  destruct (total =? 0); [done|].
  set (xml := generate_comic_info_xml _ bookmarks total).
  intros Hres.
  destruct (zip_write "ComicInfo.xml" xml (ZipWriter [] (writes_left d)))
    as [w0|w0] eqn:Hw0;
    [destruct (rewrite_chapters zf chapters w0) as [w|w] eqn:Hw|];
    destruct (files d !! (cbz_path +:+ ".tmp")) as [[| |]|] eqn:Htmp;
    simpl in Hres;
    try (match type of Hres with
         | cleanup_temp ?a ?b ?fs = _ =>
             pose proof (cleanup_temp_not_success a b fs n c) as Hns;
             rewrite Hres in Hns; done
         end);
    simplify_eq.
  all: rewrite <- Himg in Hgroup.
  all: by exists zf, chapters, bookmarks, idx, xml, w0, w.
Qed.

(** X9. When [update_local_cbz] reports success, the archive has become
    the metadata document followed by one page entry for every image entry
    of the old archive, the reported page count is the number of these
    entries, each of them holds the bytes of an image entry of the old
    archive and keeps its file name, and nothing is left under the
    temporary path. *)
Theorem update_local_cbz_keeps_every_image
    (cbz_path : string) (custom_title : option string) (force_overwrite : bool)
    (d d' : disk) (n : Z) (c : nat) :
  update_local_cbz cbz_path custom_title force_overwrite d = (Success n c, d') →
  ∃ zf xml pages,
    files d !! cbz_path = Some (Archive zf)
    ∧ files d' !! cbz_path = Some (Archive (("ComicInfo.xml", xml) :: pages))
    ∧ files d' !! (cbz_path +:+ ".tmp") = None
    ∧ n = Z.of_nat (length pages)
    ∧ length pages = length (List.filter is_image_entry (namelist zf))
    ∧ ∀ e, e ∈ pages →
        ∃ original,
          original ∈ namelist zf ∧ is_image_entry original = true
          ∧ zip_read zf original = Some e.2
          ∧ Path.basename e.1 = Path.basename original.
Proof.
  intros Hres.
  apply update_local_cbz_success_inv in Hres
    as (zf & chapters & bookmarks & idx & xml & w0 & w
        & Hext & Hzf & Hgroup & Hcount & -> & Hw0 & Hw & ->).
  apply zip_write_ok in Hw0. simpl in Hw0.
  apply rewrite_chapters_ok in Hw as [Hw Hlen]. rewrite Hw0 in Hw.
  destruct (group_chapters_Some _ _ Hgroup) as [chapter_key Hchapters].
  assert (mjoin chapters.*2 ≡ₚ List.filter is_image_entry (namelist zf)) as Hitems.
  { rewrite Hchapters, group_by_key_items. apply py_sorted_perm. }
  assert (cbz_path ≠ cbz_path +:+ ".tmp") as Hne.
  { intros Heq. by apply (append_neq cbz_path ".tmp"). }
  exists zf, xml, (mjoin ((λ kv, omap (regrouped_page zf kv.1) kv.2) <$> chapters)).
  simpl. split_and!.
  - done.
  - by rewrite lookup_insert_eq, Hw.
  - rewrite lookup_insert_ne by done. by rewrite lookup_delete_eq.
  - rewrite Hlen.
    assert ((foldl (count_chapter chapters) ([], 0, 0) (sorted_names chapters.*1)).2 = n)
      as <- by (by rewrite Hcount).
    apply count_chapter_sorted_total. rewrite Hchapters. apply group_by_key_NoDup.
  - rewrite Hlen. by rewrite Hitems.
  - intros e (pages & He & Hin)%list_elem_of_join.
    apply list_elem_of_fmap in Hin as ([key items] & -> & Hkv). simpl in He.
    apply list_elem_of_omap in He as (original & Horig & Hpage).
    unfold regrouped_page in Hpage.
    destruct (zip_read zf original) as [data|] eqn:Hread; [|done].
    simpl in Hpage. injection Hpage as <-. exists original.
    assert (original ∈ List.filter is_image_entry (namelist zf)) as Hfilter.
    { rewrite <- Hitems. apply list_elem_of_join. exists items. split; [done|].
      apply list_elem_of_fmap. by exists (key, items). }
    apply list_elem_of_In, filter_In in Hfilter as [Hname Himage].
    split_and!; [by apply list_elem_of_In|done..|]. simpl.
    change ("/" +:+ Path.basename original) with (String "/"%char (Path.basename original)).
    apply last_segment_app_sep, last_segment_no_sep.
Qed.

Lemma update_local_cbz_keeps_every_image_witness :
  ∃ zf xml pages,
    files (flat_disk None) !! "/m/my-manga.cbz" = Some (Archive zf)
    ∧ files (update_local_cbz "/m/my-manga.cbz" None false (flat_disk None)).2
        !! "/m/my-manga.cbz" = Some (Archive (("ComicInfo.xml", xml) :: pages))
    ∧ files (update_local_cbz "/m/my-manga.cbz" None false (flat_disk None)).2
        !! ("/m/my-manga.cbz" +:+ ".tmp") = None
    ∧ 3 = Z.of_nat (length pages)
    ∧ length pages = length (List.filter is_image_entry (namelist zf))
    ∧ ∀ e, e ∈ pages →
        ∃ original,
          original ∈ namelist zf ∧ is_image_entry original = true
          ∧ zip_read zf original = Some e.2
          ∧ Path.basename e.1 = Path.basename original.
Proof.
  apply (update_local_cbz_keeps_every_image "/m/my-manga.cbz" None false (flat_disk None)
           (update_local_cbz "/m/my-manga.cbz" None false (flat_disk None)).2 3 2).
  vm_compute. reflexivity.
Defined.

(** X10. A second update of an archive that an update has just rewritten
    is skipped when the force flag is not given: it returns the message
    about the existing metadata and changes nothing. *)
Theorem update_local_cbz_twice
    (cbz_path : string) (custom_title custom_title' : option string)
    (force_overwrite : bool) (d d' : disk) (n : Z) (c : nat) :
  update_local_cbz cbz_path custom_title force_overwrite d = (Success n c, d') →
  update_local_cbz cbz_path custom_title' false d' = (SkippingComicInfoExists, d').
Proof.
  intros Hres.
  apply update_local_cbz_success_inv in Hres
    as (zf & chapters & bookmarks & idx & xml & w0 & w
        & Hext & Hzf & Hgroup & Hcount & -> & Hw0 & Hw & ->).
  apply zip_write_ok in Hw0. simpl in Hw0.
  apply rewrite_chapters_ok in Hw as [Hw _]. rewrite Hw0 in Hw.
  unfold update_local_cbz. rewrite Hext. cbn [negb files].
  rewrite lookup_insert_eq, Hw.
  rewrite bool_decide_true by (unfold namelist; rewrite fmap_app, fmap_cons; left). done.
Qed.

Lemma update_local_cbz_twice_witness :
  update_local_cbz "/m/my-manga.cbz" (Some "Other") false
    (update_local_cbz "/m/my-manga.cbz" None false (flat_disk None)).2
  = (SkippingComicInfoExists,
     (update_local_cbz "/m/my-manga.cbz" None false (flat_disk None)).2).
Proof.
  apply (update_local_cbz_twice "/m/my-manga.cbz" None (Some "Other") false (flat_disk None)
           (update_local_cbz "/m/my-manga.cbz" None false (flat_disk None)).2 3 2).
  vm_compute. reflexivity.
Defined.

(** *** Archives without chapter numbers *)

Lemma group_by_key_constant chapter_key key item image_files :
  (∀ f, f ∈ item :: image_files → chapter_key f = key) →
  group_by_key chapter_key (item :: image_files) = [(key, item :: image_files)].
Proof.
  induction image_files as [|f image_files IH] using rev_ind; intros Hkey.
  - unfold group_by_key. simpl. by rewrite (Hkey item) by left.
  - rewrite app_comm_cons, group_by_key_snoc, IH.
    + simpl. rewrite (Hkey f) by (rewrite app_comm_cons, elem_of_app; right; left).
      by rewrite String.eqb_refl.
    + intros g Hg. apply Hkey. rewrite app_comm_cons, elem_of_app. by left.
Qed.

Lemma list_to_set_constant (x : string) (l : list string) :
  l ≠ [] → (∀ y, y ∈ l → y = x) → list_to_set (C:=gset string) l = {[x]}.
Proof.
  intros Hne Hall. apply set_eq. intros y. rewrite elem_of_list_to_set, elem_of_singleton.
  split; [apply Hall|]. intros ->. destruct l as [|z l]; [done|].
  rewrite (Hall z) by left. left.
Qed.

(** X11. An archive whose image entries all lie at the top level and none
    of whose file names yields a chapter number other than 0 is left
    alone: [update_local_cbz] returns the message that no chapters could
    be inferred and changes nothing. *)
Theorem update_local_cbz_no_chapters
    (cbz_path : string) (custom_title : option string) (force_overwrite : bool)
    (zf : list (string * string)) (d : disk) (image : string) :
  Str.endswith ".cbz" (Str.lower cbz_path) = true →
  files d !! cbz_path = Some (Archive zf) →
  "ComicInfo.xml" ∉ namelist zf ∨ force_overwrite = true →
  image ∈ namelist zf → is_image_entry image = true →
  (∀ f, f ∈ namelist zf → is_image_entry f = true →
        Path.dirname f = "" ∧ chapter_key_of_filename f = "Chapter 000") →
  update_local_cbz cbz_path custom_title force_overwrite d = (SkippingNoChapters, d).
Proof.
  intros Hext Hzf Hinfo Himage Hentry Hflat.
  unfold update_local_cbz. rewrite Hext. cbn [negb]. rewrite Hzf.
  assert (bool_decide ("ComicInfo.xml" ∈ namelist zf) && negb force_overwrite = false) as ->.
  { destruct Hinfo as [Hno| ->]; [by rewrite bool_decide_false|by rewrite andb_false_r]. }
  assert (∀ f, f ∈ sorted_names (List.filter is_image_entry (namelist zf)) →
               Path.dirname f = "" ∧ chapter_key_of_filename f = "Chapter 000") as Hall.
  { intros f Hf. apply elem_of_sorted_names, list_elem_of_In, filter_In in Hf as [Hin Hf].
    apply Hflat; [by apply list_elem_of_In|done]. }
  assert (image ∈ sorted_names (List.filter is_image_entry (namelist zf))) as Hin.
  { apply elem_of_sorted_names, list_elem_of_In, filter_In.
    split; [by apply list_elem_of_In|done]. }
  destruct (sorted_names (List.filter is_image_entry (namelist zf)))
    as [|item image_files]; [by apply elem_of_nil in Hin|].
  assert (group_chapters (item :: image_files) = None) as ->; [|done].
  unfold group_chapters.
  rewrite (list_to_set_constant "" (Path.dirname <$> item :: image_files)).
  - rewrite bool_decide_true by (split; [apply size_singleton|by apply elem_of_singleton]).
    fold (group_by_key chapter_key_of_filename (item :: image_files)).
    rewrite (group_by_key_constant _ "Chapter 000") by (intros f Hf; by apply Hall).
    done.
  - done.
  - intros y (f & -> & Hf)%list_elem_of_fmap. by apply Hall.
Qed.

Lemma update_local_cbz_no_chapters_witness :
  update_local_cbz "/m/art.cbz" None false unnumbered_disk
  = (SkippingNoChapters, unnumbered_disk).
Proof.
  apply (update_local_cbz_no_chapters "/m/art.cbz" None false
           [("cover.jpg", "A"); ("back.jpg", "B")] unnumbered_disk "cover.jpg").
  - reflexivity.
  - reflexivity.
  - left. vm_compute. intros Hin.
    repeat (apply elem_of_cons in Hin as [Hin|Hin]; [discriminate|]).
    by apply elem_of_nil in Hin.
  - left.
  - reflexivity.
  - intros f Hin _. vm_compute in Hin.
    repeat (apply elem_of_cons in Hin as [->|Hin]; [by vm_compute|]).
    by apply elem_of_nil in Hin.
Defined.

(** *** The chapters an archive holds and the chapters to fetch *)

Lemma infer_chapter_slugs_foldl (image_files : list string) (chapters : gset string) slug :
  slug ∈ foldl (λ chapters item_path,
                  let parent_dir := Path.dirname item_path in
                  if String.eqb parent_dir "" then chapters else {[parent_dir]} ∪ chapters)
               chapters image_files
  ↔ slug ∈ chapters ∨ (slug ≠ "" ∧ ∃ f, f ∈ image_files ∧ Path.dirname f = slug).
Proof.
  revert chapters. induction image_files as [|f image_files IH]; intros chapters; simpl.
  - split; [by left|]. intros [?|(_ & f & ?%elem_of_nil & _)]; done.
  - rewrite IH. destruct (String.eqb_spec (Path.dirname f) "") as [Hf|Hf].
    + split.
      * intros [?|(Hne & g & Hg & Hd)]; [by left|]. right. split; [done|].
        exists g. split; [by right|done].
      * intros [?|(Hne & g & Hg & Hd)]; [by left|]. right. split; [done|].
        exists g. split; [|done]. apply elem_of_cons in Hg as [->|Hg]; [congruence|done].
    + rewrite elem_of_union, elem_of_singleton. split.
      * intros [[->|?]|(Hne & g & Hg & Hd)].
        -- right. split; [done|]. exists f. split; [left|done].
        -- by left.
        -- right. split; [done|]. exists g. split; [by right|done].
      * intros [?|(Hne & g & Hg & Hd)]; [left; by right|].
        apply elem_of_cons in Hg as [->|Hg]; [left; by left|].
        right. split; [done|]. by exists g.
Qed.

(** X13. The chapters [infer_chapter_slugs_from_zip] finds in an archive
    are exactly the non-empty directory parts of its image entries: an
    image at the top level stands for no chapter. *)
Theorem infer_chapter_slugs_from_zip_spec (zf : list (string * string)) (slug : string) :
  slug ∈ infer_chapter_slugs_from_zip zf
  ↔ slug ≠ "" ∧ ∃ f, f ∈ namelist zf ∧ is_image_entry f = true ∧ Path.dirname f = slug.
Proof.
  unfold infer_chapter_slugs_from_zip. rewrite infer_chapter_slugs_foldl. split.
  - intros [?%elem_of_empty|(Hne & f & Hf & Hd)]; [done|]. split; [done|].
    apply list_elem_of_In, filter_In in Hf as [Hf Himg].
    exists f. split_and!; [by apply list_elem_of_In|done..].
  - intros (Hne & f & Hf & Himg & Hd). right. split; [done|].
    exists f. split; [|done]. apply list_elem_of_In, filter_In.
    split; [by apply list_elem_of_In|done].
Qed.

Lemma slug_to_url_elem urls slug url :
  slug_to_url urls !! slug = Some url → url ∈ urls.
Proof.
  unfold slug_to_url. revert slug url.
  induction urls as [|u urls IH] using rev_ind; intros slug url; [done|].
  rewrite foldl_app. simpl. rewrite elem_of_app, list_elem_of_singleton.
  destruct (decide (url_slug u = slug)) as [<-|Hne].
  - rewrite lookup_insert_eq. intros [= ->]. by right.
  - rewrite lookup_insert_ne by done. intros Hu. left. by eapply IH.
Qed.

Lemma slug_to_url_dom urls slug :
  slug ∈ dom (slug_to_url urls) ↔ ∃ url, url ∈ urls ∧ url_slug url = slug.
Proof.
  split.
  - intros [url Hu]%elem_of_dom. exists url.
    split; [by eapply slug_to_url_elem|by eapply slug_to_url_slug].
  - intros (url & Hin & <-). unfold slug_to_url.
    induction urls as [|u urls IH] using rev_ind; [by apply elem_of_nil in Hin|].
    rewrite foldl_app. simpl. rewrite dom_insert, elem_of_union, elem_of_singleton.
    apply elem_of_app in Hin as [Hin|Hin]; [right; by apply IH|].
    apply list_elem_of_singleton in Hin as ->. by left.
Qed.

Lemma urls_to_download_slugs zf online_urls exclude :
  url_slug <$> urls_to_download zf online_urls exclude
  = sorted_names
      (elements
         (dom (slug_to_url
                 (List.filter (λ u, negb (bool_decide (url_slug u ∈ exclude))) online_urls))
          ∖ infer_chapter_slugs_from_zip zf)).
Proof.
  unfold urls_to_download. cbv zeta. rewrite <- list_fmap_compose.
  rewrite <- (list_fmap_id (sorted_names _)) at 2.
  apply list_fmap_ext. intros _ slug Hslug%list_elem_of_lookup_2.
  apply elem_of_sorted_names, elem_of_elements, elem_of_difference in Hslug as [Hdom _].
  apply elem_of_dom in Hdom as [u Hu]. simpl.
  rewrite (lookup_total_correct _ _ _ Hu). by eapply slug_to_url_slug.
Qed.

Lemma elem_of_urls_to_download zf online_urls exclude url :
  url ∈ urls_to_download zf online_urls exclude →
  url ∈ online_urls ∧ (url_slug url ∉ exclude) ∧
  (url_slug url ∉ infer_chapter_slugs_from_zip zf).
Proof.
  intros Hurl. split_and!; [..|by eapply urls_to_download_slug].
  - unfold urls_to_download in Hurl. apply list_elem_of_fmap in Hurl as (slug & -> & Hin).
    apply elem_of_sorted_names, elem_of_elements, elem_of_difference in Hin as [Hdom _].
    apply elem_of_dom in Hdom as [u Hu]. rewrite (lookup_total_correct _ _ _ Hu).
    apply slug_to_url_elem, list_elem_of_In, filter_In in Hu as [Hu _].
    by apply list_elem_of_In.
  - unfold urls_to_download in Hurl. apply list_elem_of_fmap in Hurl as (slug & -> & Hin).
    apply elem_of_sorted_names, elem_of_elements, elem_of_difference in Hin as [Hdom _].
    apply elem_of_dom in Hdom as [u Hu]. rewrite (lookup_total_correct _ _ _ Hu).
    apply slug_to_url_elem, list_elem_of_In, filter_In in Hu as [_ Hu].
    apply negb_true_iff, bool_decide_eq_false in Hu. done.
Qed.

Lemma urls_to_download_complete zf online_urls exclude url :
  url ∈ online_urls → url_slug url ∉ exclude →
  url_slug url ∉ infer_chapter_slugs_from_zip zf →
  url_slug url ∈ url_slug <$> urls_to_download zf online_urls exclude.
Proof.
  intros Hin Hex Hloc. rewrite urls_to_download_slugs.
  apply elem_of_sorted_names, elem_of_elements, elem_of_difference. split; [|done].
  apply slug_to_url_dom. exists url. split; [|done].
  apply list_elem_of_In, filter_In. split; [by apply list_elem_of_In|].
  by apply negb_true_iff, bool_decide_eq_false.
Qed.

(** X14. The chapters [sync_cbz_with_source] fetches: every URL it
    submits is one of the site's, with a slug that is neither excluded nor
    a folder of the archive; every such slug of the site is fetched, each
    once, and they are submitted in the code-point order of their slugs. *)
Theorem urls_to_download_spec
    (zf : list (string * string)) (online_urls exclude : list string) :
  let urls := urls_to_download zf online_urls exclude in
  (∀ url, url ∈ urls →
     url ∈ online_urls ∧ (url_slug url ∉ exclude) ∧
     (url_slug url ∉ infer_chapter_slugs_from_zip zf)) ∧
  (∀ url, url ∈ online_urls → url_slug url ∉ exclude →
     url_slug url ∉ infer_chapter_slugs_from_zip zf →
     url_slug url ∈ url_slug <$> urls) ∧
  NoDup (url_slug <$> urls) ∧
  StronglySorted String.le (url_slug <$> urls).
Proof.
  intros urls. split_and!.
  - apply elem_of_urls_to_download.
  - apply urls_to_download_complete.
  - unfold urls. rewrite urls_to_download_slugs.
    unfold sorted_names. rewrite py_sorted_perm. apply NoDup_elements.
  - unfold urls. rewrite urls_to_download_slugs. apply sorted_names_sorted.
Qed.

(** X15. When the archive exists and the site lists chapters, the sync
    declares the archive up to date exactly when every chapter of the site
    is excluded or already a folder of the archive; it then changes
    nothing. *)
Theorem sync_up_to_date
    (session : web) (cbz_path series_url : string) (exclude : list string)
    (temp_dir : string) (completed : list string) (d : disk)
    (zf : list (string * string)) :
  files d !! cbz_path = Some (Archive zf) →
  chapter_list session series_url ≠ [] →
  let r := sync_cbz_with_source session cbz_path series_url exclude temp_dir completed d in
  (r.1 = UpToDate ↔
   ∀ url, url ∈ chapter_list session series_url →
          url_slug url ∈ exclude ∨ url_slug url ∈ infer_chapter_slugs_from_zip zf) ∧
  (r.1 = UpToDate → r.2 = d).
Proof.
  intros Hzf Hsite r. unfold r, sync_cbz_with_source. rewrite Hzf.
  destruct (chapter_list session series_url) as [|u0 online] eqn:Honline; [done|].
  destruct (urls_to_download zf (u0 :: online) exclude) as [|u urls] eqn:Hurls.
  - split; [|done]. split; [|done]. intros _ url Hurl.
    destruct (decide (url_slug url ∈ exclude)) as [|Hex]; [by left|].
    destruct (decide (url_slug url ∈ infer_chapter_slugs_from_zip zf)) as [|Hloc]; [by right|].
    pose proof (urls_to_download_complete zf _ exclude url Hurl Hex Hloc) as Hin.
    rewrite Hurls in Hin. by apply elem_of_nil in Hin.
  - assert (¬ ∀ url, url ∈ u0 :: online →
                     url_slug url ∈ exclude ∨ url_slug url ∈ infer_chapter_slugs_from_zip zf)
      as Hnot.
    { intros Hall.
      assert (u ∈ urls_to_download zf (u0 :: online) exclude) as Hu by (rewrite Hurls; left).
      apply elem_of_urls_to_download in Hu as (Hin & Hex & Hloc).
      destruct (Hall u Hin); done. }
    cbv zeta.
    destruct (chapter_workers session <=? 0);
      [cbn [fst snd]; split; [split; [done|by intros ?%Hnot]|done]|].
    destruct (run_downloads _ _ _ _) as [results fs0].
    destruct (any_raised _ _);
      [cbn [fst snd]; split; [split; [done|by intros ?%Hnot]|done]|].
    destruct (extractall _ _ _);
      [|cbn [fst snd]; split; [split; [done|by intros ?%Hnot]|done]].
    destruct (create_cbz_archive _ _ _ _) as [[] ?];
      cbn [fst snd]; (split; [split; [done|by intros ?%Hnot]|done]).
Qed.

Lemma sync_up_to_date_witness :
  let r := sync_cbz_with_source site_with_two_chapters "/m/x.cbz" "https://m.example/manga/x/"
             ["chapter-1"; "chapter-2"] "/tmp/t" [] (local_disk None) in
  (r.1 = UpToDate ↔
   ∀ url, url ∈ chapter_list site_with_two_chapters "https://m.example/manga/x/" →
          url_slug url ∈ ["chapter-1"; "chapter-2"] ∨
          url_slug url ∈ infer_chapter_slugs_from_zip local_archive) ∧
  (r.1 = UpToDate → r.2 = local_disk None).
Proof.
  apply (sync_up_to_date site_with_two_chapters "/m/x.cbz" "https://m.example/manga/x/"
           ["chapter-1"; "chapter-2"] "/tmp/t" [] (local_disk None) local_archive).
  - reflexivity.
  - vm_compute. discriminate.
Defined.

(** X16. [download_chapter_images] works in the chapter folder only.  When
    the base directory exists and the last segment of the URL names a
    folder of its own in it (it is not empty, [.] or [..]), the download
    changes no path other than the base directory and that folder,
    whatever it returns or raises; and if the folder is not there
    afterwards, [os.makedirs] has raised and nothing has changed at all. *)
Theorem download_chapter_images_frame
    (session : web) (chapter_url base_download_dir : string) (max_workers : Z)
    (fs : gmap string node) :
  let output_dir := Path.join base_download_dir (url_slug chapter_url) in
  let r := download_chapter_images session chapter_url base_download_dir max_workers fs in
  isdir fs base_download_dir = true →
  (url_slug chapter_url ∉ [""; "."; ".."]) →
  (∀ p, p ≠ base_download_dir → p ≠ output_dir → r.2 !! p = fs !! p) ∧
  (isdir r.2 output_dir = false → r.1 = DownloadRaises ∧ r.2 = fs).
Proof.
  intros output_dir r _ _. unfold r, download_chapter_images. fold output_dir.
  destruct (makedirs _ _ _) as [fs'|] eqn:Hmk; [|done].
  pose proof (makedirs_isdir _ _ _ _ Hmk) as Hdir. fold output_dir in Hdir.
  assert (∀ l', isdir (<[output_dir := Directory l']> fs') output_dir = true) as Hdir'.
  { intros l'. unfold isdir, folder_listing. by rewrite lookup_insert_eq. }
  destruct (chapter_page session chapter_url) as [[|tag tags]| |]; cbn [fst snd].
  - split; [|by rewrite Hdir]. intros p ??. by eapply makedirs_frame.
  - destruct (existsb _ _); cbn [fst snd].
    { split; [|by rewrite Hdir]. intros p ??. by eapply makedirs_frame. }
    destruct (max_workers <=? 0); cbn [fst snd].
    { split; [|by rewrite Hdir]. intros p ??. by eapply makedirs_frame. }
    destruct (run_page_tasks _ _ _ _) as [raised l']. cbn [fst snd].
    split; [|by rewrite Hdir'].
    intros p ??. rewrite lookup_insert_ne by done. by eapply makedirs_frame.
  - split; [|by rewrite Hdir]. intros p ??. by eapply makedirs_frame.
  - split; [|by rewrite Hdir]. intros p ??. by eapply makedirs_frame.
Qed.

Lemma download_chapter_images_frame_witness :
  let output_dir := Path.join "/tmp/t" (url_slug chapter_1_url) in
  let r := download_chapter_images site_with_failure chapter_1_url "/tmp/t" 10 scratch_files in
  (∀ p, p ≠ "/tmp/t" → p ≠ output_dir → r.2 !! p = scratch_files !! p) ∧
  (isdir r.2 output_dir = false → r.1 = DownloadRaises ∧ r.2 = scratch_files).
Proof.
  apply (download_chapter_images_frame site_with_failure chapter_1_url "/tmp/t" 10
           scratch_files).
  - reflexivity.
  - vm_compute. intros Hin.
    repeat (apply elem_of_cons in Hin as [Hin|Hin]; [discriminate|]).
    by apply elem_of_nil in Hin.
Defined.

(** X17. A file that is already in the chapter folder is never fetched
    again nor written over: whatever [download_chapter_images] returns or
    raises, every entry of the folder is there afterwards with the content
    it had. *)
Theorem download_chapter_images_keeps_files
    (session : web) (chapter_url base_download_dir : string) (max_workers : Z)
    (fs : gmap string node) (l : gmap string dirent) (name : string) (v : dirent) :
  let output_dir := Path.join base_download_dir (url_slug chapter_url) in
  let r := download_chapter_images session chapter_url base_download_dir max_workers fs in
  folder_listing fs output_dir = Some l → l !! name = Some v →
  ∃ l', folder_listing r.2 output_dir = Some l' ∧ l' !! name = Some v.
Proof.
  intros output_dir r Hl Hname. unfold r, download_chapter_images. fold output_dir.
  unfold output_dir. rewrite (makedirs_existing _ _ _ _ Hl). fold output_dir.
  destruct (chapter_page session chapter_url) as [[|tag tags]| |]; cbn [fst snd];
    [by exists l| |by exists l..].
  - destruct (existsb _ _); cbn [fst snd]; [by exists l|].
    destruct (max_workers <=? 0); cbn [fst snd]; [by exists l|].
    rewrite Hl. cbn [default].
    pose proof (run_page_tasks_listing session chapter_url (page_tasks (tag :: tags)) l)
      as Hrun.
    destruct (run_page_tasks _ _ _ _) as [raised l']. cbn [fst snd] in *. subst l'.
    eexists. split; [unfold folder_listing; by rewrite lookup_insert_eq|].
    apply download_images_lookup; [apply page_tasks_names_NoDup|by left].
Qed.

Lemma download_chapter_images_keeps_files_witness :
  let r := download_chapter_images site_with_two_chapters chapter_1_url "/d" 10 resumed_files in
  ∃ l', folder_listing r.2 (Path.join "/d" (url_slug chapter_1_url)) = Some l'
        ∧ l' !! "page_001.jpg" = Some (Page "kept").
Proof.
  apply (download_chapter_images_keeps_files site_with_two_chapters chapter_1_url "/d" 10
           resumed_files (<["page_001.jpg" := Page "kept"]> ∅) "page_001.jpg" (Page "kept")).
  - reflexivity.
  - reflexivity.
Defined.

(** *** Page names and the order of pages *)

Lemma sorted_names_id (l : list string) :
  StronglySorted String.le l → sorted_names l = l.
Proof.
  intros Hl. apply (StronglySorted_unique String.le).
  - apply sorted_names_sorted.
  - done.
  - apply py_sorted_perm.
Qed.

Lemma StronglySorted_sublist {A} (R : relation A) (l1 l2 : list A) :
  l1 `sublist_of` l2 → StronglySorted R l2 → StronglySorted R l1.
Proof.
  induction 1 as [|x l1 l2 Hsub IH|x l1 l2 Hsub IH]; intros Hs; [done|..].
  - apply StronglySorted_cons in Hs as [Hx Hs]. apply StronglySorted_cons.
    split; [|by apply IH]. rewrite Forall_forall in Hx. apply Forall_forall.
    intros y Hy. apply Hx. by eapply elem_of_sublist.
  - apply StronglySorted_cons in Hs as [_ Hs]. by apply IH.
Qed.

Lemma page_file_names_sorted :
  sorted_names (page_file_name <$> seq 0 999) = page_file_name <$> seq 0 999.
Proof. vm_compute. reflexivity. Qed.

(** X18. Up to 999 pages the names [download_chapter_images] gives the
    pages sort in page order, so [create_cbz_archive], which takes the
    files of a folder in the order of their names, keeps the pages of a
    downloaded chapter in the order of the source, gaps included. *)
Theorem page_file_names_sort_in_page_order (names : list string) :
  names `sublist_of` (page_file_name <$> seq 0 999) →
  sorted_names names = names.
Proof.
  intros Hsub. apply sorted_names_id.
  eapply StronglySorted_sublist; [exact Hsub|].
  rewrite <- page_file_names_sorted. apply sorted_names_sorted.
Qed.

Lemma page_file_names_sort_in_page_order_witness :
  sorted_names (page_file_name <$> [1; 9; 10; 99]%nat)
  = page_file_name <$> [1; 9; 10; 99]%nat.
Proof.
  apply page_file_names_sort_in_page_order.
  apply fmap_sublist.
  change (seq 0 999) with ([0%nat] ++ [1%nat] ++ seq 2 7 ++ [9; 10]%nat ++ seq 11 88
                           ++ [99%nat] ++ seq 100 899).
  change [1; 9; 10; 99]%nat with ([1%nat] ++ [9; 10]%nat ++ [99%nat] ++ []).
  apply sublist_inserts_l.
  apply sublist_app; [done|]. apply sublist_inserts_l.
  apply sublist_app; [done|]. apply sublist_inserts_l.
  apply sublist_app; [done|]. apply sublist_nil_l.
Defined.

(** The thousandth page breaks the order: its name sorts before that of
    page 101. *)
Example page_1000_sorts_before_page_101 :
  sorted_names [page_file_name 100; page_file_name 999]
  = [page_file_name 999; page_file_name 100].
Proof. vm_compute. reflexivity. Qed.

(** *** Numbered chapter folders *)

Lemma pretty_N_char_isdigit (x : N) : (x < 10)%N → Str.isdigit (pretty_N_char x) = true.
Proof.
  intros Hx.
  assert (x = 0 ∨ x = 1 ∨ x = 2 ∨ x = 3 ∨ x = 4 ∨ x = 5 ∨ x = 6 ∨ x = 7 ∨ x = 8 ∨ x = 9)%N
    as Hc by lia.
  repeat (destruct Hc as [->|Hc]; [done|]). by subst.
Qed.

Lemma pretty_N_go_digits (x : N) s :
  Str.filter Str.isdigit s = s →
  Str.filter Str.isdigit (pretty_N_go x s) = pretty_N_go x s.
Proof.
  revert s. induction (N.lt_wf_0 x) as [x _ IH]; intros s Hs.
  destruct (decide (x = 0%N)) as [->|Hx]; [done|].
  rewrite pretty_N_go_step by lia.
  apply IH; [apply N.div_lt; lia|]. simpl.
  rewrite pretty_N_char_isdigit by (apply N.mod_lt; lia). by rewrite Hs.
Qed.

Lemma pretty_N_digits (x : N) :
  Str.filter Str.isdigit (pretty x) = pretty x ∧ pretty x ≠ "".
Proof.
  unfold pretty, pretty_N. case_decide as Hx; [by subst|].
  split; [by apply pretty_N_go_digits|].
  intros Heq. apply (f_equal Str.int) in Heq.
  unfold Str.int in Heq at 1. rewrite int_go_pretty_N_go in Heq. simpl in Heq.
  unfold Str.int in Heq. simpl in Heq. lia.
Qed.

Lemma filter_digits_contains c s :
  Str.isdigit c = false → Str.filter Str.isdigit s = s → Str.contains c s = false.
Proof.
  intros Hc. induction s as [|a s IH]; [done|]. cbn [Str.filter].
  destruct (Str.isdigit a) eqn:Ha.
  - intros [= Hs]. simpl. rewrite IH by done.
    destruct (Ascii.eqb_spec a c) as [->|]; [congruence|done].
  - intros Heq. exfalso.
    assert (∀ t, String.length (Str.filter Str.isdigit t) ≤ String.length t)%nat as Hlen.
    { clear. induction t as [|x t IH]; simpl; [done|].
      destruct (Str.isdigit x); simpl; lia. }
    specialize (Hlen s). rewrite Heq in Hlen. simpl in Hlen. lia.
Qed.

Lemma contains_app c a b : Str.contains c (a +:+ b) = Str.contains c a || Str.contains c b.
Proof. induction a as [|x a IH]; simpl; [done|]. by rewrite IH, orb_assoc. Qed.

(** X19. A chapter folder whose name ends in a hyphen followed by a
    decimal numeral is sorted by that number, whatever directory it is
    in and whatever precedes the hyphen. *)
Theorem chapter_sort_key_numbered (base word : string) (n : N) :
  Str.contains "/"%char word = false →
  chapter_sort_key (Path.join base (word +:+ "-" +:+ pretty n)) = Z.of_N n.
Proof.
  intros Hword. destruct (pretty_N_digits n) as [Hdigits Hne].
  rewrite chapter_sort_key_join.
  2: { rewrite !contains_app, Hword. simpl.
       by rewrite (filter_digits_contains "/"%char (pretty n)). }
  unfold chapter_sort_key.
  assert (word +:+ "-" +:+ pretty n ≠ "") as Hname.
  { destruct word; simpl; done. }
  apply String.eqb_neq in Hname. rewrite Hname.
  assert (Path.basename (word +:+ "-" +:+ pretty n) = word +:+ "-" +:+ pretty n) as ->.
  { apply last_segment_id. change Path.sep with "/"%char.
    rewrite !contains_app, Hword. simpl.
    by rewrite (filter_digits_contains "/"%char (pretty n)). }
  change (word +:+ "-" +:+ pretty n) with (word +:+ String "-"%char (pretty n)).
  rewrite last_segment_app_sep by (by apply filter_digits_contains).
  rewrite Hdigits. apply String.eqb_neq in Hne. rewrite Hne.
  apply int_pretty_N.
Qed.

Lemma chapter_sort_key_numbered_witness :
  chapter_sort_key (Path.join "/tmp/t" ("chapter" +:+ "-" +:+ pretty 12%N)) = Z.of_N 12.
Proof. apply (chapter_sort_key_numbered "/tmp/t" "chapter" 12). reflexivity. Defined.

(** *** Updates of different archives *)

Lemma rewrite_images_unlimited zf chapter_folder image_list w :
  accepts w = None →
  accepts (outcome_state (rewrite_images zf chapter_folder image_list w)) = None.
Proof.
  revert w. induction image_list as [|f image_list IH]; intros w Hw; simpl; [done|].
  destruct (zip_read zf f) as [data|]; [|done].
  rewrite zip_write_unlimited by done. by apply IH.
Qed.

Lemma rewrite_chapters_unlimited zf chapters w :
  accepts w = None →
  accepts (outcome_state (rewrite_chapters zf chapters w)) = None.
Proof.
  revert w. induction chapters as [|[chapter_folder image_list] chapters IH];
    intros w Hw; simpl; [done|].
  pose proof (rewrite_images_unlimited zf chapter_folder image_list w Hw) as Hi.
  destruct (rewrite_images zf chapter_folder image_list w) as [w'|w']; simpl in *; [|done].
  by apply IH.
Qed.

Lemma cleanup_temp_left temp_cbz_path left fs :
  writes_left (cleanup_temp temp_cbz_path left fs).2 = left.
Proof. unfold cleanup_temp. by destruct (fs !! temp_cbz_path) as [[| |]|]. Qed.

Lemma update_local_cbz_unlimited cbz_path custom_title force_overwrite d :
  writes_left d = None →
  writes_left (update_local_cbz cbz_path custom_title force_overwrite d).2 = None.
Proof.
  intros Hleft. unfold update_local_cbz.
  destruct (negb _); [done|].
  destruct (files d !! cbz_path) as [[zf| |]|]; try done.
  destruct (_ && _); [done|].
  destruct (sorted_names _) as [|f image_files]; [done|].
  destruct (group_chapters _) as [chapters|]; [|done].
  destruct (foldl _ _ _) as [[bookmarks idx] total].
  destruct (total =? 0); [done|].
  rewrite Hleft, zip_write_unlimited by done.
  match goal with
  | |- context [rewrite_chapters zf chapters ?w] =>
      pose proof (rewrite_chapters_unlimited zf chapters w eq_refl) as Hw;
      destruct (rewrite_chapters zf chapters w) as [w'|w']
  end; simpl in Hw;
    destruct (files d !! (cbz_path +:+ ".tmp")) as [[| |]|];
    rewrite ?cleanup_temp_left; done.
Qed.

Lemma cleanup_temp_local temp_cbz_path left fs1 fs2 p :
  fs1 !! temp_cbz_path = fs2 !! temp_cbz_path → fs1 !! p = fs2 !! p →
  (cleanup_temp temp_cbz_path left fs1).1 = (cleanup_temp temp_cbz_path left fs2).1 ∧
  files (cleanup_temp temp_cbz_path left fs1).2 !! p
  = files (cleanup_temp temp_cbz_path left fs2).2 !! p.
Proof.
  intros Htmp Hp. unfold cleanup_temp. rewrite Htmp.
  destruct (fs2 !! temp_cbz_path) as [[| |]|]; simpl; try done;
    (split; [done|]); (destruct (decide (temp_cbz_path = p)) as [->|Hne];
      [by rewrite !lookup_delete_eq|by rewrite !lookup_delete_ne]).
Qed.

(** What a call returns and what it leaves at a path depend on the
    archive, on its temporary neighbour and on the device only. *)
Lemma update_local_cbz_local cbz_path custom_title force_overwrite d1 d2 p :
  files d1 !! cbz_path = files d2 !! cbz_path →
  files d1 !! (cbz_path +:+ ".tmp") = files d2 !! (cbz_path +:+ ".tmp") →
  writes_left d1 = writes_left d2 →
  files d1 !! p = files d2 !! p →
  (update_local_cbz cbz_path custom_title force_overwrite d1).1
  = (update_local_cbz cbz_path custom_title force_overwrite d2).1 ∧
  files (update_local_cbz cbz_path custom_title force_overwrite d1).2 !! p
  = files (update_local_cbz cbz_path custom_title force_overwrite d2).2 !! p.
Proof.
  intros Hcbz Htmp Hleft Hp. unfold update_local_cbz. rewrite Hcbz, Htmp, Hleft.
  destruct (negb _); [done|].
  destruct (files d2 !! cbz_path) as [[zf| |]|]; try done.
  destruct (_ && _); [done|].
  destruct (sorted_names _) as [|f image_files]; [done|].
  destruct (group_chapters _) as [chapters|]; [|done].
  destruct (foldl _ _ _) as [[bookmarks idx] total].
  destruct (total =? 0); [done|].
  assert (∀ w,
    (cleanup_temp (cbz_path +:+ ".tmp") (accepts w)
       (<[cbz_path +:+ ".tmp" := Archive (written w)]> (files d1))).1
    = (cleanup_temp (cbz_path +:+ ".tmp") (accepts w)
         (<[cbz_path +:+ ".tmp" := Archive (written w)]> (files d2))).1 ∧
    files (cleanup_temp (cbz_path +:+ ".tmp") (accepts w)
             (<[cbz_path +:+ ".tmp" := Archive (written w)]> (files d1))).2 !! p
    = files (cleanup_temp (cbz_path +:+ ".tmp") (accepts w)
               (<[cbz_path +:+ ".tmp" := Archive (written w)]> (files d2))).2 !! p)
    as Hraised.
  { intros w. apply cleanup_temp_local; [by rewrite !lookup_insert_eq|].
    destruct (decide (cbz_path +:+ ".tmp" = p)) as [->|Hne];
      [by rewrite !lookup_insert_eq|by rewrite !lookup_insert_ne]. }
  assert (∀ w : zip_writer,
    (<[cbz_path := Archive (written w)]> (delete (cbz_path +:+ ".tmp") (files d1)) : gmap string node) !! p
    = (<[cbz_path := Archive (written w)]> (delete (cbz_path +:+ ".tmp") (files d2)) : gmap string node) !! p)
    as Hmoved.
  { intros w. destruct (decide (cbz_path = p)) as [->|Hne];
      [by rewrite !lookup_insert_eq|rewrite !lookup_insert_ne by done].
    destruct (decide (cbz_path +:+ ".tmp" = p)) as [->|Hne'];
      [by rewrite !lookup_delete_eq|by rewrite !lookup_delete_ne]. }
  destruct (files d2 !! (cbz_path +:+ ".tmp")) as [[| |]|] eqn:Htmp2;
    try (apply cleanup_temp_local; congruence);
    (destruct (match zip_write _ _ _ with Ok w => _ | Raised w => Raised w end) as [w|w];
     [split; [done|apply Hmoved]|apply Hraised]).
Qed.

(** X20. Updates of two different archives do not interfere: on a device
    that takes every write, either order of the two calls returns the same
    two messages as the calls made alone and leaves the same files, so the
    pool of workers of the batch mode may run them in any order. *)
Theorem update_local_cbz_commute
    (p q : string) (title_p title_q : option string) (force_p force_q : bool) (d : disk) :
  writes_left d = None →
  p ≠ q → p ≠ q +:+ ".tmp" → q ≠ p +:+ ".tmp" →
  let a := update_local_cbz p title_p force_p d in
  let b := update_local_cbz q title_q force_q d in
  let ab := update_local_cbz q title_q force_q a.2 in
  let ba := update_local_cbz p title_p force_p b.2 in
  ab.1 = b.1 ∧ ba.1 = a.1 ∧ ab.2 = ba.2.
Proof.
  intros Hleft Hpq Hpq' Hqp' a b ab ba.
  assert (p +:+ ".tmp" ≠ q +:+ ".tmp") as Htmp.
  { intros Heq. by apply append_cancel_r in Heq. }
  assert (writes_left a.2 = None) as Ha by (by apply update_local_cbz_unlimited).
  assert (writes_left b.2 = None) as Hb by (by apply update_local_cbz_unlimited).
  assert (∀ x, x ≠ p → x ≠ p +:+ ".tmp" → files a.2 !! x = files d !! x) as Hfa
    by (intros x ??; by apply update_local_cbz_other_paths).
  assert (∀ x, x ≠ q → x ≠ q +:+ ".tmp" → files b.2 !! x = files d !! x) as Hfb
    by (intros x ??; by apply update_local_cbz_other_paths).
  assert (∀ x, x ≠ p → x ≠ p +:+ ".tmp" →
    ab.1 = b.1 ∧ files ab.2 !! x = files b.2 !! x) as Hab.
  { intros x ??. apply update_local_cbz_local.
    - by apply Hfa.
    - by apply Hfa.
    - by rewrite Ha, Hleft.
    - by apply Hfa. }
  assert (∀ x, x ≠ q → x ≠ q +:+ ".tmp" →
    ba.1 = a.1 ∧ files ba.2 !! x = files a.2 !! x) as Hba.
  { intros x ??. apply update_local_cbz_local.
    - by apply Hfb.
    - by apply Hfb.
    - by rewrite Hb, Hleft.
    - by apply Hfb. }
  split; [by apply (Hab q)|]. split; [by apply (Hba p)|].
  assert (writes_left ab.2 = None) as Hlab by (by apply update_local_cbz_unlimited).
  assert (writes_left ba.2 = None) as Hlba by (by apply update_local_cbz_unlimited).
  assert (files ab.2 = files ba.2) as Hfiles.
  { apply map_eq. intros x.
    destruct (decide (x = p ∨ x = p +:+ ".tmp")) as [Hp|Hp].
    - assert (x ≠ q ∧ x ≠ q +:+ ".tmp") as [??] by (destruct Hp as [->| ->]; done).
      unfold ab. rewrite update_local_cbz_other_paths by done.
      symmetry. by apply Hba.
    - assert (x ≠ p ∧ x ≠ p +:+ ".tmp") as [??] by (split; intros ->; tauto).
      unfold ba. rewrite update_local_cbz_other_paths by done.
      by apply Hab. }
  destruct ab.2 as [f1 l1], ba.2 as [f2 l2]. simpl in *. by subst.
Qed.

Lemma update_local_cbz_commute_witness :
  let a := update_local_cbz "/m/my-manga.cbz" None false (flat_disk None) in
  let b := update_local_cbz "/m/other.cbz" None true (flat_disk None) in
  let ab := update_local_cbz "/m/other.cbz" None true a.2 in
  let ba := update_local_cbz "/m/my-manga.cbz" None false b.2 in
  ab.1 = b.1 ∧ ba.1 = a.1 ∧ ab.2 = ba.2.
Proof.
  apply (update_local_cbz_commute "/m/my-manga.cbz" "/m/other.cbz" None None false true
           (flat_disk None)); [reflexivity|discriminate..].
Defined.

(** X21. A sync changes nothing but the archive: when the temporary
    directory is a fresh one, every path other than that of the archive
    holds after the sync what it held before, whatever the sync returns;
    the temporary directory, the chapters downloaded into it and the
    chapters extracted into it are gone. *)
Theorem sync_cbz_with_source_frame
    (session : web) (cbz_path series_url : string) (exclude : list string)
    (temp_dir : string) (completed : list string) (d : disk) (p : string) :
  temp_dir ≠ "" → Str.endswith "/" temp_dir = false →
  files d !! temp_dir = None →
  (∀ c, Str.contains "/"%char c = false → files d !! Path.join temp_dir c = None) →
  (∀ url, url ∈ chapter_list session series_url → url_slug url ∉ [""; "."; ".."]) →
  cbz_path ≠ "" →
  p ≠ cbz_path →
  files (sync_cbz_with_source session cbz_path series_url exclude temp_dir completed d).2 !! p
  = files d !! p.
Proof.
  intros Hne Hslash Htop Hbelow _ Hcbz Hp. unfold sync_cbz_with_source.
  destruct (files d !! cbz_path) as [[zf| |]|] eqn:Harchive; try done.
  destruct (chapter_list session series_url) as [|u0 online]; [done|].
  destruct (urls_to_download zf (u0 :: online) exclude) as [|u urls]; [done|].
  cbv zeta.
  assert (temp_tree temp_dir (<[temp_dir := Directory ∅]> (files d))) as Htree0.
  { exists ∅. split_and!; [by rewrite lookup_insert_eq|by intros name [? ?]|].
    intros c Hc [v Hv].
    rewrite lookup_insert_ne in Hv by (by apply not_eq_sym, join_temp_dir_ne).
    by rewrite Hbelow in Hv. }
  assert (same_outside temp_dir (files d) (<[temp_dir := Directory ∅]> (files d))) as Hsame0.
  { intros x Hx _. by rewrite lookup_insert_ne. }
  pose proof (run_downloads_temp_tree temp_dir Hne Hslash session (u :: urls) _ Htree0)
    as [Htree1 Hsame1].
  destruct (chapter_workers session <=? 0).
  { cbn [snd files set_files]. by apply rmtree_restores; [..|apply Hsame0]. }
  destruct (run_downloads session (u :: urls) temp_dir _) as [results fs1].
  cbn [snd] in Htree1, Hsame1.
  pose proof (same_outside_trans _ _ _ _ Hsame0 Hsame1) as Hsame01.
  destruct (any_raised results completed).
  { cbn [snd files set_files]. by apply rmtree_restores; [..|apply Hsame01]. }
  destruct (extractall zf temp_dir fs1) as [fs2|] eqn:Hextract.
  2: { cbn [snd files set_files]. by apply rmtree_restores; [..|apply Hsame01]. }
  destruct (extractall_temp_tree temp_dir Hne Hslash _ _ _ Htree1 Hextract)
    as [Htree2 Hsame2].
  pose proof (same_outside_trans _ _ _ _ Hsame01 Hsame2) as Hsame02.
  pose proof (create_cbz_archive_other_paths
                (Path.splitext_root (Path.basename cbz_path))
                (existing_chapter_folders temp_dir fs2 ++ collect_paths results completed)
                (Some cbz_path) (Disk fs2 (writes_left d))) as Hother.
  assert (cbz_file_name (Path.splitext_root (Path.basename cbz_path)) (Some cbz_path)
          = cbz_path) as Hname.
  { unfold cbz_file_name. apply String.eqb_neq in Hcbz. by rewrite Hcbz. }
  rewrite Hname in Hother.
  destruct (create_cbz_archive _ _ _ _) as [ok d'].
  cbn [snd files set_files] in *.
  apply rmtree_restores; [done..| |].
  - apply (temp_tree_ext temp_dir fs2); [done|..].
    + apply Hother. intros ->. by rewrite Harchive in Htop.
    + intros c Hc. apply Hother. intros Heq. specialize (Hbelow c Hc).
      by rewrite Heq, Harchive in Hbelow.
  - intros Hx Hout. rewrite Hother by done. by apply Hsame02.
Qed.

Lemma sync_cbz_with_source_frame_witness :
  files (sync_cbz_with_source site_with_two_chapters "/m/x.cbz" "https://m.example/manga/x/"
           [] "/tmp/t" [chapter_2_url; chapter_1_url] (local_disk None)).2
    !! "/tmp/t/chapter-1"
  = files (local_disk None) !! "/tmp/t/chapter-1".
Proof.
  apply (sync_cbz_with_source_frame site_with_two_chapters "/m/x.cbz"
           "https://m.example/manga/x/" [] "/tmp/t" [chapter_2_url; chapter_1_url]
           (local_disk None) "/tmp/t/chapter-1").
  - discriminate.
  - reflexivity.
  - reflexivity.
  - intros c Hc. unfold local_disk. cbn [files].
    rewrite lookup_insert_ne; [done|].
    intros Heq. pose proof (f_equal Path.basename Heq) as Hb.
    rewrite basename_join in Hb by done. subst c. vm_compute in Heq. discriminate.
  - intros url Hurl. vm_compute in Hurl.
    repeat (apply elem_of_cons in Hurl as [->|Hurl];
            [vm_compute; intros Hin;
             repeat (apply elem_of_cons in Hin as [Hin|Hin]; [discriminate|]);
             by apply elem_of_nil in Hin|]).
    by apply elem_of_nil in Hurl.
  - discriminate.
  - discriminate.
Defined.
